(** * datalad clone: source decoding, clone attempts and post-clone fixups

    A shallow embedding of [datalad/core/distributed/clone.py]
    ([Clone.__call__], [decode_source_spec], [clone_dataset],
    [postclone_check_head], [postclonecfg_annexdataset], [postclonecfg_ria],
    [configure_origins], [_get_tracking_source],
    [_get_installationpath_from_url]).

    Python strings are modelled as [string] (8-bit characters); generators
    as computations that append to an event trace; the Git/annex/filesystem
    collaborators the module calls into as operations of an abstract world. *)

From Stdlib Require Import String Ascii List Bool Arith Lia DecimalString.
Import ListNotations.
Local Open Scope list_scope.
Local Open Scope string_scope.

Set Implicit Arguments.

(* ===================================================================== *)
(** ** Python string primitives used by the module *)
(* ===================================================================== *)

Module PyStr.

(** [s[:n]] *)
Fixpoint take (n : nat) (s : string) : string :=
  match n, s with
  | S n', String c s' => String c (take n' s')
  | _, _ => EmptyString
  end.

(** [s[n:]] *)
Fixpoint drop (n : nat) (s : string) : string :=
  match n, s with
  | S n', String _ s' => drop n' s'
  | _, _ => s
  end.

(** [s.startswith(p)] *)
Fixpoint startswith (p s : string) : bool :=
  match p, s with
  | EmptyString, _ => true
  | String a p', String b s' => Ascii.eqb a b && startswith p' s'
  | String _ _, EmptyString => false
  end.

(** [p in s] for strings *)
Fixpoint contains (p s : string) : bool :=
  startswith p s ||
  match s with
  | EmptyString => false
  | String _ s' => contains p s'
  end.

(** [c in s] for a single character *)
Fixpoint has_char (c : ascii) (s : string) : bool :=
  match s with
  | EmptyString => false
  | String a s' => Ascii.eqb a c || has_char c s'
  end.

Fixpoint rev_acc (s acc : string) : string :=
  match s with
  | EmptyString => acc
  | String c s' => rev_acc s' (String c acc)
  end.

Definition rev (s : string) : string := rev_acc s EmptyString.

(** [s.endswith(p)] *)
Definition endswith (p s : string) : bool := startswith (rev p) (rev s).

(** [bool(s)]: a string is true when it is not empty *)
Definition truthy (s : string) : bool :=
  match s with EmptyString => false | _ => true end.

(** [s.split(c, maxsplit=1)] when [c in s]: the text before the first
    [c] and the text after it; [None] when [c] does not occur. *)
Fixpoint split_first (c : ascii) (s : string) : option (string * string) :=
  match s with
  | EmptyString => None
  | String a s' =>
      if Ascii.eqb a c then Some (EmptyString, s')
      else match split_first c s' with
           | Some (l, r) => Some (String a l, r)
           | None => None
           end
  end.

(** [s.split(c)] *)
Fixpoint split (c : ascii) (s : string) : list string :=
  match s with
  | EmptyString => [EmptyString]
  | String a s' =>
      match split c s' with
      | [] => [EmptyString]
      | hd :: tl =>
          if Ascii.eqb a c then EmptyString :: hd :: tl
          else String a hd :: tl
      end
  end.

Fixpoint lstrip_char (c : ascii) (s : string) : string :=
  match s with
  | String a s' => if Ascii.eqb a c then lstrip_char c s' else s
  | EmptyString => EmptyString
  end.

(** [s.rstrip(c)] for a one-character argument *)
Definition rstrip_char (c : ascii) (s : string) : string :=
  rev (lstrip_char c (rev s)).

Definition lower_char (c : ascii) : ascii :=
  let n := nat_of_ascii c in
  if ((65 <=? n) && (n <=? 90))%nat then ascii_of_nat (n + 32) else c.

(** [s.lower()] *)
Fixpoint lower (s : string) : string :=
  match s with
  | EmptyString => EmptyString
  | String c s' => String (lower_char c) (lower s')
  end.

(** the characters [str.strip()] removes *)
Definition is_space (c : ascii) : bool :=
  let n := nat_of_ascii c in
  (((9 <=? n) && (n <=? 13)) || ((28 <=? n) && (n <=? 32)))%nat.

Fixpoint lstrip (s : string) : string :=
  match s with
  | String a s' => if is_space a then lstrip s' else s
  | EmptyString => EmptyString
  end.

(** [s.strip()] *)
Definition strip (s : string) : string := rev (lstrip (rev (lstrip s))).

(** the text after the last occurrence of [needle] in [s] *)
Fixpoint after_last (needle s : string) : option string :=
  match s with
  | EmptyString => if startswith needle EmptyString then Some EmptyString else None
  | String _ s' =>
      match after_last needle s' with
      | Some r => Some r
      | None =>
          if startswith needle s then Some (drop (String.length needle) s)
          else None
      end
  end.

(** [sep.join(l)] *)
Fixpoint join (sep : string) (l : list string) : string :=
  match l with
  | [] => EmptyString
  | [x] => x
  | x :: rest => x ++ sep ++ join sep rest
  end.

Definition lf : string := String (ascii_of_nat 10) EmptyString.

(** every character of [s] satisfies [p] *)
Fixpoint all_chars (p : ascii -> bool) (s : string) : bool :=
  match s with
  | EmptyString => true
  | String c s' => p c && all_chars p s'
  end.

End PyStr.

(* ===================================================================== *)
(** ** The regular expression of [decode_source_spec] *)
(* ===================================================================== *)

Module Re.

(** The pattern only uses a character class repeated a fixed number of
    times and literal characters, so matching needs no backtracking. *)
Inductive atom : Type :=
| Class (p : ascii -> bool) (n : nat)   (* [..]{n} *)
| Lit (c : ascii).

Fixpoint match_class (p : ascii -> bool) (n : nat) (s : string) : option string :=
  match n with
  | 0 => Some s
  | S n' =>
      match s with
      | String c s' => if p c then match_class p n' s' else None
      | EmptyString => None
      end
  end.

Definition match_atom (a : atom) (s : string) : option string :=
  match a with
  | Class p n => match_class p n s
  | Lit c =>
      match s with
      | String a s' => if Ascii.eqb a c then Some s' else None
      | EmptyString => None
      end
  end.

(** [re.match(pattern, s)]: the pattern has to match at the start of
    [s]; what follows the match is not looked at. *)
Fixpoint re_match (re : list atom) (s : string) : bool :=
  match re with
  | [] => true
  | a :: re' =>
      match match_atom a s with
      | Some rest => re_match re' rest
      | None => false
      end
  end.

Definition atom_width (a : atom) : nat :=
  match a with Class _ n => n | Lit _ => 1 end.

Definition width (re : list atom) : nat :=
  fold_right (fun a n => atom_width a + n) 0 re.

(** the characters an atom lets through *)
Definition accepts (a : atom) (c : ascii) : bool :=
  match a with
  | Class p _ => p c
  | Lit x => Ascii.eqb c x
  end.

(** [[a-f0-9]] *)
Definition hex_lower (c : ascii) : bool :=
  let n := nat_of_ascii c in
  (((97 <=? n) && (n <=? 102)) || ((48 <=? n) && (n <=? 57)))%nat.

Definition dash : ascii := "-"%char.

(** an upper-case hexadecimal letter, [A] to [F] *)
Definition hex_upper_letter (c : ascii) : bool :=
  let n := nat_of_ascii c in ((65 <=? n) && (n <=? 70))%nat.

(** [n] characters of [[a-f0-9]] *)
Definition hex_group (n : nat) (s : string) : Prop :=
  String.length s = n /\ PyStr.all_chars hex_lower s = true.

(** [r'[a-f0-9]{8}-[a-f0-9]{4}-[a-f0-9]{4}-[a-f0-9]{4}-[a-f0-9]{12}'] *)
Definition uuid_regex : list atom :=
  [Class hex_lower 8; Lit dash; Class hex_lower 4; Lit dash; Class hex_lower 4;
   Lit dash; Class hex_lower 4; Lit dash; Class hex_lower 12].

End Re.

(* ===================================================================== *)
(** ** Data model *)
(* ===================================================================== *)

(** The fields of [datalad.support.network.URL]. *)
Record URL_fields : Type := mkURL {
  scheme : string;
  username : string;
  password : string;
  hostname : string;
  port : string;
  path : string;
  query : string;
  fragment : string
}.

(** What [RI(spec)] can be an instance of. *)
Inductive RI : Type :=
| DataLadRI (remote : string) (ri_path : string)
| URL (u : URL_fields)
| PathRI (p : string)
| SSHRI (s : string)
| GitTransportRI (s : string).

(** The exceptions that leave the modelled functions. *)
Inductive exn : Type :=
| ValueError (msg : string)
| NameError (name : string)
| KeyError (key : string)
| AttributeError (attr : string)
| IndexError.

Inductive result (A : Type) : Type :=
| Ok (a : A)
| Err (e : exn).
Arguments Ok {A} a.
Arguments Err {A} e.

(** The ['type'] label of a decoded source. *)
Inductive source_type : Type := type_giturl | type_dataladri | type_ria.

(** The dict [decode_source_spec] returns, with its five keys. *)
Record props : Type := mkProps {
  source : string;
  version : option string;
  type : source_type;
  giturl : string;
  default_destpath : string
}.

(** The pure helpers of [datalad.support.network], [datalad.utils],
    [os.path], [urllib] and of the configuration that the module calls;
    their code is not part of the module. *)
Class Network : Type := {
  rewrite_url : string -> string;            (* cfg.rewrite_url(spec) *)
  RI_of : string -> RI;                      (* RI(spec) *)
  as_git_url : string -> string -> string;   (* DataLadRI.as_git_url() *)
  URL_str : URL_fields -> string;            (* str(url) *)
  urlunquote : string -> string;
  Path_last_part : string -> option string;  (* Path(p).parts[-1] *)
  Path_str : string -> option string;        (* str(Path(p)); None: it raised *)
  get_local_file_url : string -> string;     (* with compatibility='git' *)
  expanduser : string -> string;
  localpath : string -> option string;       (* RI(url).localpath; None: ValueError *)
  Path_name : string -> string;              (* Path(p).name *)
  Path_join : string -> string -> string;    (* p / q *)
  _get_flexible_source_candidates : string -> list string
}.

Section Decoder.

Context {N : Network}.

Definition at_sign : ascii := "@"%char.
Definition slash : ascii := "/"%char.

(** [l[-1]] and [l[-2]] of a list with at least two elements *)
Definition last_str (l : list string) : string := last l EmptyString.
Definition last2_str (l : list string) : string :=
  last (removelast l) EmptyString.

(** [_get_installationpath_from_url] *)
Definition _get_installationpath_from_url (url : string) : result string :=
  let strip_git (p : string) : string :=
    if PyStr.endswith ".git" p
    then PyStr.take (String.length p - 4) p
    else p in
  let from_url_path (ri_path : string) (host : result string) : result string :=
    let p := PyStr.rstrip_char slash ri_path in
    match (if PyStr.truthy p then Ok (urlunquote p) else host) with
    | Err e => Err e
    | Ok p =>
        if PyStr.has_char slash p then
          let parts := PyStr.split slash p in
          if String.eqb (last_str parts) ".git"
          then Ok (strip_git (last2_str parts))
          else Ok (strip_git (last_str parts))
        else Ok (strip_git p)
    end in
  match RI_of url with
  | URL u => from_url_path (path u) (Ok (hostname u))
  | DataLadRI _ p => from_url_path p (Err (AttributeError "hostname"))
  | _ =>
      match Path_last_part url with
      | Some p => Ok (strip_git p)
      | None => Err IndexError
      end
  end.

(** [dsid, version = fragment.split('@', maxsplit=1) if '@' in fragment
    else (fragment, None)] *)
Definition ria_dsid_version (frag : string) : string * option string :=
  match PyStr.split_first at_sign frag with
  | Some (dsid, v) => (dsid, Some v)
  | None => (frag, None)
  end.

(** The [trace] and [default_destpath] that the RIA branch computes from
    the dataset ID; [None] where the code raises. *)
Definition ria_trace_destpath (dsid : string) : option (string * string) :=
  if Re.re_match Re.uuid_regex dsid then
    Some (PyStr.take 3 dsid ++ "/" ++ PyStr.drop 3 dsid, dsid)
  else if PyStr.startswith "~" dsid then
    Some ("alias/" ++ PyStr.drop 1 dsid, PyStr.drop 1 dsid)
  else None.

(** The URL after the three assignments to [source_ri.fragment],
    [source_ri.scheme] and [source_ri.path]. *)
Definition ria_git_url (u : URL_fields) (trace : string) : URL_fields :=
  let urlpath := if PyStr.truthy (path u) then path u else EmptyString in
  let urldelim :=
    if negb (PyStr.truthy (path u)) || PyStr.endswith "/" (path u)
    then EmptyString else "/" in
  mkURL (PyStr.drop 4 (scheme u)) (username u) (password u) (hostname u)
        (port u) (urlpath ++ urldelim ++ trace) (query u) EmptyString.

Definition ria_error_msg (spec : string) : string :=
  "RIA URI not recognized, no valid dataset ID or other supported scheme: "
  ++ spec.

(** [decode_source_spec]; [orig] is the specification as given, which
    is kept under ['source'], the rest works on the rewritten one. *)
Definition decode_source_spec (orig : string) : result props :=
  let spec := rewrite_url orig in
  let with_default (ty : source_type) (v : option string) (g : string)
    : result props :=
    match _get_installationpath_from_url g with
    | Ok d => Ok (mkProps orig v ty g d)
    | Err e => Err e
    end in
  match RI_of spec with
  | DataLadRI r p => with_default type_dataladri None (as_git_url r p)
  | URL u =>
      if PyStr.startswith "ria+" (scheme u) then
        let '(dsid, ver) := ria_dsid_version (fragment u) in
        match ria_trace_destpath dsid with
        | Some (trace, dest) =>
            Ok (mkProps orig ver type_ria
                        (URL_str (ria_git_url u trace)) dest)
        | None => Err (ValueError (ria_error_msg spec))
        end
      else with_default type_giturl None spec
  | _ => with_default type_giturl None spec
  end.

(** [[decode_source_spec(s, cfg=cfg) for s in srcs]]: the first
    specification that fails to decode raises. *)
Fixpoint decode_all (srcs : list string) : result (list props) :=
  match srcs with
  | [] => Ok []
  | s :: rest =>
      match decode_source_spec s with
      | Err e => Err e
      | Ok p =>
          match decode_all rest with
          | Err e => Err e
          | Ok ps => Ok (p :: ps)
          end
      end
  end.

(** [dict(props, giturl=s)] *)
Definition with_giturl (p : props) (s : string) : props :=
  mkProps (source p) (version p) (type p) s (default_destpath p).

(** [[dict(props, giturl=s) for props in candidate_sources
      for s in _get_flexible_source_candidates(props['giturl'])]] *)
Definition expand_candidates (decoded : list props) : list props :=
  flat_map
    (fun p => map (with_giturl p) (_get_flexible_source_candidates (giturl p)))
    decoded.

End Decoder.

(* ===================================================================== *)
(** ** Result records, events and the collaborators *)
(* ===================================================================== *)

(** A dataset handle is identified by its path; [Dataset.__eq__] compares
    the paths. *)
Definition Dataset : Type := string.

(** [datalad.cmd.CommandError]: what a failed [git clone] carries. *)
Record CommandError : Type := mkCommandError {
  ce_msg : string;
  ce_stdout : string;
  ce_stderr : string
}.

Inductive status_t : Type := ok | error | notneeded | impossible.

Inductive msg_arg : Type :=
| ArgStr (s : string)
| ArgDataset (d : Dataset)
| ArgList (l : list string)
| ArgTuple (l : list string).

(** A message is a string, or a tuple of a template and its arguments. *)
Inductive message_t : Type :=
| Msg (s : string)
| MsgFmt (template : string) (args : list msg_arg).

(** The [result_props] dict that is threaded through [clone_dataset]. *)
Record result_props : Type := mkRP {
  action : string;
  refds : option string;
  source_url : option string;
  ds : Dataset;
  rp_source : option props          (* the key 'source', once set *)
}.

(** What [get_status_dict(status=.., message=.., **result_props)] builds. *)
Record status_dict : Type := mkSD {
  status : status_t;
  message : option message_t;
  res_props : result_props
}.

Definition get_status_dict (st : status_t) (m : option message_t)
  (rp : result_props) : status_dict := mkSD st m rp.

Inductive log_level : Type := debug | info | warning.

(** Everything a run does that can be seen from outside, in order. *)
Inductive event : Type :=
| EvYield (r : status_dict)
| EvProgress (msg : string) (args : list string)
| EvLog (lvl : log_level) (msg : string) (args : list string)
| EvClone (dest url : string) (branch : option string)
          (failure : option CommandError)
| EvRmtree (p : string) (children_only : bool)
| EvCallGit (d : Dataset) (args : list string)
| EvConfigSet (d : Dataset) (key value : string)
| EvAnnexRepo (d : Dataset)
| EvAnnexInit (d : Dataset) (description : option string)
| EvAnnexCommand (d : Dataset) (cmd : string) (opts : list string)
| EvSetRemoteDead (d : Dataset) (name : string)
| EvUnlink (p : string)
| EvSymlink (link target : string)
| EvReadConfig (how : string) (location : string)
| EvEnableRemote (d : Dataset) (name : string) (opts : list string)
                 (failure : option CommandError)
| EvSiblingsConfigure (d : Dataset) (name : string) (url : option string)
                      (publish_depends : option string) (fetch : bool).

(** One entry of [repo.get_special_remotes()]. *)
Record special_remote : Type := mkSR {
  sr_name : option string;
  sr_autoenable : option string;
  sr_externaltype : option string
}.

(** One record of [ds.siblings('query')]. *)
Record sibling : Type := mkSibling {
  sib_name : string;
  sib_annex_externaltype : option string
}.

(** The stateful collaborators: the file system, Git, git-annex, the
    configuration store and the [siblings] command.  [World] is whatever
    they keep; the module only sees it through these operations. *)
Class Collaborators (World : Type) : Type := {
  (* file system *)
  path_exists : World -> string -> bool;
  path_nonempty : World -> string -> bool;          (* any(p.iterdir()) *)
  rmtree : World -> string -> bool -> World;
  is_symlink : World -> string -> bool;
  unlink : World -> string -> World;
  symlink_to : World -> string -> string -> World;
  check_symlink_capability : World -> string -> string -> bool;
  read_local_file : World -> string -> option string;
  (* datasets and repositories *)
  is_installed : World -> Dataset -> bool;
  dot_git : World -> Dataset -> string;
  is_AnnexRepo : World -> Dataset -> bool;
  get_tracking_branch : World -> Dataset -> bool -> option string;
  get_remote_url : World -> Dataset -> string -> string;
  get_remotes : World -> Dataset -> list string;
  GitRepo_clone : World -> string -> string -> option string
                  -> World * option CommandError;
  commit_exists : World -> Dataset -> string -> bool;
  for_each_ref_ : World -> Dataset -> string -> string -> string -> list string;
  call_git : World -> Dataset -> list string -> World;
  (* configuration *)
  config_get : World -> Dataset -> string -> option string;
  config_set : World -> Dataset -> string -> string -> World;
  config_obtain : World -> Dataset -> string -> bool -> bool;
  config_sections : World -> Dataset -> list string;
  (* git-annex *)
  knows_annex : World -> Dataset -> bool;
  AnnexRepo : World -> Dataset -> World;
  is_initialized : World -> Dataset -> bool;
  _init : World -> Dataset -> option string -> World;
  _run_annex_command : World -> Dataset -> string -> list string -> World;
  set_remote_dead : World -> Dataset -> string -> World;
  get_special_remotes : World -> Dataset -> list (string * special_remote);
  enable_remote : World -> Dataset -> string -> list string
                  -> World * option CommandError;
  (* siblings *)
  siblings_query : World -> Dataset -> list sibling;
  siblings_configure : World -> Dataset -> string -> option string
                       -> option string -> bool -> World * list status_dict;
  (* reading the configuration of a RIA store *)
  requests_get : World -> string -> option string;
  ssh_read_file : World -> string -> string -> option string;
  git_config_get : World -> string -> string -> option string
}.

(** Pure helpers of [datalad.dochelpers] and [datalad.utils]. *)
Class Helpers : Type := {
  exc_str : CommandError -> string;
  assure_bool : string -> option bool;     (* None: ValueError *)
  URL_path : string -> string;             (* URL(s).path *)
  URL_localpath : string -> string         (* URL(s).localpath *)
}.

(* ===================================================================== *)
(** ** Generators as trace-producing computations *)
(* ===================================================================== *)

(** How a run ends: it returns, an exception leaves it, or the recursion
    budget of the model is used up before it ends. *)
Inductive outcome (A : Type) : Type :=
| Returned (a : A)
| Raised (e : exn)
| OutOfFuel.
Arguments Returned {A} a.
Arguments Raised {A} e.
Arguments OutOfFuel {A}.

Record run (World A : Type) : Type := mkRun {
  trace : list event;
  final : World;
  out : outcome A
}.

Definition M (World A : Type) : Type := World -> run World A.

Section Monad.

Context {World : Type}.

Definition ret {A} (a : A) : M World A :=
  fun w => mkRun [] w (Returned a).

Definition bind {A B} (m : M World A) (f : A -> M World B) : M World B :=
  fun w =>
    let r := m w in
    match out r with
    | Returned a =>
        let r' := f a (final r) in
        mkRun (trace r ++ trace r')%list (final r') (out r')
    | Raised e => mkRun (trace r) (final r) (Raised e)
    | OutOfFuel => mkRun (trace r) (final r) OutOfFuel
    end.

Definition raise {A} (e : exn) : M World A :=
  fun w => mkRun [] w (Raised e).

Definition out_of_fuel {A} : M World A :=
  fun w => mkRun [] w OutOfFuel.

(** read something off the world *)
Definition observe {A} (f : World -> A) : M World A :=
  fun w => mkRun [] w (Returned (f w)).

(** an event that leaves the world as it is: a yield, a log line *)
Definition emit (e : event) : M World unit :=
  fun w => mkRun [e] w (Returned tt).

(** an event that changes the world *)
Definition act (e : event) (f : World -> World) : M World unit :=
  fun w => mkRun [e] (f w) (Returned tt).

(** a call that changes the world and hands back a value *)
Definition call {A} (f : World -> World * A) (e : A -> event) : M World A :=
  fun w => let '(w', a) := f w in mkRun [e a] w' (Returned a).

Definition yield (r : status_dict) : M World unit := emit (EvYield r).

Definition when (b : bool) (m : M World unit) : M World unit :=
  if b then m else ret tt.

(** [yield from] over records that a collaborator produced *)
Fixpoint yield_all (rs : list status_dict) : M World unit :=
  match rs with
  | [] => ret tt
  | r :: rest => bind (yield r) (fun _ => yield_all rest)
  end.

End Monad.

Declare Scope gen_scope.
Delimit Scope gen_scope with gen.
Notation "x <- m ;; k" := (bind m (fun x => k))
  (at level 61, m at next level, right associativity) : gen_scope.
Notation "m ;;; k" := (bind m (fun _ => k))
  (at level 61, right associativity) : gen_scope.
Local Open Scope gen_scope.

(** The records a trace yields, and the transfers it attempts. *)
Definition yields (t : list event) : list status_dict :=
  flat_map (fun e => match e with EvYield r => [r] | _ => [] end) t.

Definition clone_attempts (t : list event) : list (string * option string) :=
  flat_map (fun e => match e with
                     | EvClone _ url br _ => [(url, br)]
                     | _ => []
                     end) t.

(** No event of the trace is a transfer. *)
Definition no_transfer (t : list event) : Prop :=
  Forall (fun e => match e with EvClone _ _ _ _ => False | _ => True end) t.

(** No event of the trace makes a symbolic link. *)
Definition no_symlink (t : list event) : Prop :=
  Forall (fun e => match e with EvSymlink _ _ => False | _ => True end) t.

(** How each attempted transfer ended: [None] for a success, the error
    for a failure. *)
Definition clone_outcomes (t : list event) : list (option CommandError) :=
  flat_map (fun e => match e with
                     | EvClone _ _ _ res => [res]
                     | _ => []
                     end) t.

(** The failed transfers of a trace: URL and error, in order. *)
Definition clone_failures (t : list event) : list (string * CommandError) :=
  flat_map (fun e => match e with
                     | EvClone _ url _ (Some err) => [(url, err)]
                     | _ => []
                     end) t.

(** The commands that [call_git] was asked to run. *)
Definition git_calls (t : list event) : list (list string) :=
  flat_map (fun e => match e with
                     | EvCallGit _ args => [args]
                     | _ => []
                     end) t.

(** The remotes that [siblings('configure')] was asked to set up with a
    URL: name, URL and the [fetch] flag. *)
Definition registrations (t : list event) : list (string * string * bool) :=
  flat_map (fun e => match e with
                     | EvSiblingsConfigure _ name (Some url) _ fetch =>
                         [(name, url, fetch)]
                     | _ => []
                     end) t.

(** [bool(x)] of an optional string: [None] and [''] are false *)
Definition truthy_opt (o : option string) : bool :=
  match o with Some s => PyStr.truthy s | None => false end.

(** [x in l] *)
Definition str_in (x : string) (l : list string) : bool :=
  existsb (String.eqb x) l.

Definition opt_str_eqb (a b : option string) : bool :=
  match a, b with
  | Some x, Some y => String.eqb x y
  | None, None => true
  | _, _ => false
  end.

(** [s.split(c, 1)[0]] *)
Definition before_first (c : ascii) (s : string) : string :=
  match PyStr.split_first c s with
  | Some (l, _) => l
  | None => s
  end.

(** [str(n)] *)
Definition str_of_nat (n : nat) : string :=
  NilEmpty.string_of_uint (Nat.to_uint n).

(** [collections.OrderedDict] with string keys: [d[k] = v] keeps the place
    of a key that is there already and appends a new key. *)
Module OrderedDict.

Definition t (V : Type) : Type := list (string * V).

Fixpoint set {V} (d : t V) (k : string) (v : V) : t V :=
  match d with
  | [] => [(k, v)]
  | (k', v') :: d' =>
      if String.eqb k' k then (k', v) :: d'
      else (k', v') :: set d' k v
  end.

Definition keys {V} (d : t V) : list string := map fst d.
Definition values {V} (d : t V) : list V := map snd d.

(** the dict after the assignments [d[k] = v] for the [(k, v)] of [l],
    in order *)
Definition set_all {V} (d : t V) (l : list (string * V)) : t V :=
  fold_left (fun d kv => set d (fst kv) (snd kv)) l d.

End OrderedDict.

(* ===================================================================== *)
(** ** The module's functions *)
(* ===================================================================== *)

Section Engine.

Context {N : Network} {H : Helpers} {World : Type} {C : Collaborators World}.

#[local] Abbreviation G := (M World).

Definition log (lvl : log_level) (msg : string) (args : list string)
  : G unit := emit (EvLog lvl msg args).

Definition log_progress (msg : string) (args : list string) : G unit :=
  emit (EvProgress msg args).

(** [ds.config.set(key, value, where='local')] *)
Definition do_config_set (d : Dataset) (key value : string) : G unit :=
  act (EvConfigSet d key value) (fun w => config_set w d key value).

(** [repo.call_git(args)] *)
Definition do_call_git (d : Dataset) (args : list string) : G unit :=
  act (EvCallGit d args) (fun w => call_git w d args).

(** [yield from ds.siblings('configure', ...)] *)
Definition do_siblings_configure (d : Dataset) (name : string)
  (url publish_depends : option string) (fetch : bool) : G unit :=
  rs <- call (fun w => siblings_configure w d name url publish_depends fetch)
             (fun _ => EvSiblingsConfigure d name url publish_depends fetch) ;;
  yield_all rs.

(* ------------------------------------------------------------------- *)
(** *** [_get_tracking_source] *)

Definition _get_tracking_source (d : Dataset) (w : World)
  : option string * string :=
  let remote_name := get_tracking_branch w d true in
  let remote_name :=
    if negb (truthy_opt remote_name) && is_AnnexRepo w d
    then get_tracking_branch w d false
    else remote_name in
  let remote_url :=
    match remote_name with
    | Some n => if PyStr.truthy n then get_remote_url w d n else EmptyString
    | None => EmptyString
    end in
  (remote_name, remote_url).

(** The test of the 'notneeded' loop in [clone_dataset]. *)
Definition already_cloned_from (track_url : string)
  (track_path : option string) (src : string) : bool :=
  String.eqb track_url src
  || String.eqb (get_local_file_url track_url) src
  || opt_str_eqb track_path (Some (expanduser src)).

(* ------------------------------------------------------------------- *)
(** *** [postclone_check_head] *)

Definition skipped_branch (rbranch : string) : bool :=
  str_in rbranch ["origin/git-annex"; "HEAD"].

Definition postclone_check_head (d : Dataset) : G unit :=
  has_head <- observe (fun w => commit_exists w d "HEAD") ;;
  if negb has_head then
    remote_branches <-
      observe (fun w => for_each_ref_ w d "refname:strip=2"
                          "-committerdate" "refs/remotes/origin") ;;
    match find (fun b => negb (skipped_branch b)) remote_branches with
    | Some rbranch =>
        do_call_git d ["checkout"; "-b"; PyStr.drop 7 rbranch;
                       "--track"; rbranch] ;;;
        log debug "Checked out local branch from %s" [rbranch]
    | None =>
        log warning
            "Cloned %s but could not find a branch with commits" [d]
    end
  else ret tt.

(* ------------------------------------------------------------------- *)
(** *** [configure_origins] *)

(** [set(cfgds.config.get(r + '.url', None)
         for r in cfgds.config.sections() if r.startswith('remote.'))] *)
Definition known_remote_urls (cfgds : Dataset) (w : World)
  : list (option string) :=
  map (fun r => config_get w cfgds (r ++ ".url"))
      (filter (PyStr.startswith "remote.") (config_sections w cfgds)).

Definition is_PathRI (r : RI) : bool :=
  match r with PathRI _ => true | _ => false end.

(** The recursion of the source has no bound; [fuel] bounds the depth of
    the model, and a run that needs more ends in [OutOfFuel]. *)
Fixpoint configure_origins (fuel : nat) (cfgds probeds : Dataset)
  (label : option nat) : G unit :=
  match fuel with
  | 0 => out_of_fuel
  | S fuel' =>
      let label := match label with None => 1 | Some l => l end in
      origin_url <- observe (fun w => config_get w probeds "remote.origin.url") ;;
      match origin_url with
      | None => ret tt
      | Some origin_url =>
          if negb (PyStr.truthy origin_url) then ret tt else
          inherit <- observe (fun w =>
            config_obtain w cfgds "datalad.install.inherit-local-origin" true) ;;
          if negb inherit then ret tt else
          if negb (is_PathRI (RI_of origin_url)) then ret tt else
          (if negb (String.eqb cfgds probeds) then
             known <- observe (known_remote_urls cfgds) ;;
             if negb (existsb (opt_str_eqb (Some origin_url)) known) then
               do_siblings_configure cfgds ("origin-" ++ str_of_nat label)
                                     (Some origin_url) None true
             else ret tt
           else ret tt) ;;;
          configure_origins fuel' cfgds (Path_join probeds origin_url)
                            (Some (label + 1))
      end
  end.

(* ------------------------------------------------------------------- *)
(** *** [postclonecfg_annexdataset] *)

(** [repo.config.get('remote.%s.annex-config-uuid' % r) or
     repo.config.get('remote.%s.annex-uuid' % r)] *)
Definition remote_uuid (d : Dataset) (w : World) (r : string)
  : option string :=
  match config_get w d ("remote." ++ r ++ ".annex-config-uuid") with
  | Some u => if PyStr.truthy u then Some u
              else config_get w d ("remote." ++ r ++ ".annex-uuid")
  | None => config_get w d ("remote." ++ r ++ ".annex-uuid")
  end.

(** The loop over [repo.get_special_remotes().items()]; [srs_t] and
    [srs_f] are [srs[True]] and [srs[False]]. *)
Fixpoint special_remotes_loop (d : Dataset)
  (items : list (string * special_remote)) (srs_t srs_f : list string)
  : G (list string * list string) :=
  match items with
  | [] => ret (srs_t, srs_f)
  | (uuid, config) :: rest =>
      match sr_name config with
      | None =>
          log warning
            "Ignoring special remote %s because it does not have a name. Known information: %s"
            [uuid] ;;;
          special_remotes_loop d rest srs_t srs_f
      | Some name =>
          match (match sr_autoenable config with
                 | None => Some false
                 | Some v => assure_bool v
                 end) with
          | None =>
              log warning
                "Failed to process 'autoenable' value %r for sibling %s in dataset %s as bool."
                [name; d] ;;;
              special_remotes_loop d rest srs_t srs_f
          | Some autoenable =>
              if PyStr.truthy uuid then
                remote_uuids <- observe (fun w =>
                  map (remote_uuid d w) (get_remotes w d)) ;;
                if negb (existsb (opt_str_eqb (Some uuid)) remote_uuids) then
                  if autoenable
                  then special_remotes_loop d rest (srs_t ++ [name])%list srs_f
                  else special_remotes_loop d rest srs_t (srs_f ++ [name])%list
                else special_remotes_loop d rest srs_t srs_f
              else special_remotes_loop d rest srs_t srs_f
          end
      end
  end.

Definition is_shared (reckless : option string) : bool :=
  match reckless with
  | Some r => PyStr.truthy r && PyStr.startswith "shared-" r
  | None => false
  end.

Definition is_mode (reckless : option string) (mode : string) : bool :=
  opt_str_eqb reckless (Some mode).

(** The symlinking of the annex directory in the 'ephemeral' branch,
    entered when [check_symlink_capability] holds. *)
Definition ephemeral_symlink (d : Dataset) : G unit :=
  annex_dir <- observe (fun w => Path_join (dot_git w d) "annex") ;;
  origin_annex_url <- observe (fun w => config_get w d "remote.origin.url") ;;
  origin_git_path <-
    (if truthy_opt origin_annex_url then
       let url := match origin_annex_url with Some u => u | None => EmptyString end in
       match localpath url with
       | Some p =>
           ret (Some (if negb (String.eqb (Path_name p) ".git")
                      then Path_join p ".git" else p))
       | None =>
           log warning
             "reckless=ephemeral mode: origin doesn't seem local: %s; no symlinks being used"
             [url] ;;;
           ret None
       end
     else ret None) ;;
  match origin_git_path with
  | Some origin_git_path =>
      link <- observe (fun w => is_symlink w annex_dir) ;;
      (if negb link
       then act (EvRmtree annex_dir false) (fun w => rmtree w annex_dir false)
       else act (EvUnlink annex_dir) (fun w => unlink w annex_dir)) ;;;
      act (EvSymlink annex_dir (Path_join origin_git_path "annex"))
          (fun w => symlink_to w annex_dir (Path_join origin_git_path "annex"))
  | None => ret tt
  end.

(** The [if]/[elif] over [reckless] that follows the initialization. *)
Definition reckless_setup (d : Dataset) (reckless : option string)
  : G unit :=
  if is_mode reckless "auto" || is_shared reckless then
    act (EvAnnexCommand d "untrust" ["here"])
        (fun w => _run_annex_command w d "untrust" ["here"])
  else if is_mode reckless "ephemeral" then
    do_config_set d "remote.origin.annex-ignore" "true" ;;;
    act (EvSetRemoteDead d "here") (fun w => set_remote_dead w d "here") ;;;
    can_link <- observe (fun w =>
      check_symlink_capability w (Path_join (dot_git w d) "dl_link_test")
                               (Path_join (dot_git w d) "dl_target_test")) ;;
    if can_link then ephemeral_symlink d
    else log warning
             "reckless=ephemeral mode: Unable to create symlinks on this file system."
             []
  else ret tt.

(** From storing the reckless mode to the walk over the origins. *)
Definition annex_report (fuel : nat) (d : Dataset)
  (reckless : option string) : G unit :=
  match reckless with
  | Some r => when (PyStr.truthy r) (do_config_set d "datalad.clone.reckless" r)
  | None => ret tt
  end ;;;
  items <- observe (fun w => get_special_remotes w d) ;;
  srs <- special_remotes_loop d items [] [] ;;
  when (match fst srs with [] => false | _ => true end)
       (log debug
            "configuration for %s %s added because of autoenable, but no UUIDs for them yet known for dataset %s"
            [PyStr.join ", " (fst srs); d]) ;;;
  when (match snd srs with [] => false | _ => true end)
       (log info
            "access to %s %s not auto-enabled, enable with: datalad siblings -d '%s' enable -s %s"
            [PyStr.join ", " (snd srs); d;
             match snd srs with [x] => x | _ => "SIBLING" end]) ;;;
  configure_origins fuel d d None.

Definition postclonecfg_annexdataset (fuel : nat) (d : Dataset)
  (reckless description : option string) : G unit :=
  annex <- observe (fun w => knows_annex w d) ;;
  if negb annex then ret tt else
  when (is_mode reckless "auto")
       (log debug
            "Instruct annex to hardlink content in %s from local sources, if possible (reckless)"
            [d] ;;;
        do_config_set d "annex.hardlink" "true") ;;;
  log debug "Initializing annex repo at %s" [d] ;;;
  act (EvAnnexRepo d) (fun w => AnnexRepo w d) ;;;
  initialized <- observe (fun w => is_initialized w d) ;;
  when (negb initialized || truthy_opt description)
       (act (EvAnnexInit d description) (fun w => _init w d description)) ;;;
  reckless_setup d reckless ;;;
  annex_report fuel d reckless.

End Engine.

Section Clone.

Context {N : Network} {H : Helpers} {World : Type} {C : Collaborators World}.

#[local] Abbreviation G := (M World).

(* ------------------------------------------------------------------- *)
(** *** [postclonecfg_ria] *)

Definition is_ora (t : option string) : bool := opt_str_eqb t (Some "ora").

(** [[s for s in ds.siblings('query') if s.get('annex-externaltype') == 'ora']] *)
Definition query_ora_remotes (d : Dataset) (w : World) : list sibling :=
  filter (fun s => is_ora (sib_annex_externaltype s)) (siblings_query w d).

(** Fetching the configuration file of the store, by the scheme of the
    URL that was cloned from. *)
Definition ria_config_content (p : props) : G (option string) :=
  let url := giturl p in
  let scheme := before_first ":"%char url in
  if String.eqb scheme "http" then
    let location := url ++ (if negb (PyStr.endswith "/" url) then "/" else EmptyString)
                        ++ "config" in
    r <- call (fun w => (w, requests_get w location))
              (fun _ => EvReadConfig "http" location) ;;
    match r with
    | Some text => ret (Some text)
    | None =>
        log debug "Failed to get config file from source: %s" [] ;;;
        ret None
    end
  else if String.eqb scheme "ssh" then
    let cfg_path := Path_join (URL_path url) "config" in
    r <- call (fun w => (w, ssh_read_file w url cfg_path))
              (fun _ => EvReadConfig "ssh" cfg_path) ;;
    match r with
    | Some text => ret (Some text)
    | None =>
        log debug "Failed to get config file from source: %s" [] ;;;
        ret None
    end
  else if String.eqb scheme "file" then
    let cfg_path := Path_join (URL_localpath url) "config" in
    r <- call (fun w => (w, read_local_file w cfg_path))
              (fun _ => EvReadConfig "file" cfg_path) ;;
    match r with
    | Some text => ret (Some text)
    | None =>
        log debug "Failed to get config file from source: %s" [] ;;;
        ret None
    end
  else
    log debug
        "Unknown URL-Scheme in %s. Can handle SSH, HTTP or FILE scheme URLs."
        [source p] ;;;
    ret None.

(** The body of the [if org_uuid:] block: enable the special remote and
    query the ORA siblings again; [ora_remotes] is handed back. *)
Definition ria_enable (d : Dataset) (p : props) (org_uuid : string)
  (ora_remotes : list sibling) : G (list sibling) :=
  srs <- observe (fun w => get_special_remotes w d) ;;
  match find (fun kv => String.eqb (fst kv) org_uuid) srs with
  | Some (_, sr) =>
      let new_url := before_first "#"%char (source p) in
      match sr_name sr with
      | None => raise (KeyError "name")
      | Some name =>
          failure <- call (fun w => enable_remote w d name ["url=" ++ new_url])
                          (EvEnableRemote d name ["url=" ++ new_url]) ;;
          match failure with
          | None =>
              log info "Reconfigured %s for %s" [name; new_url] ;;;
              observe (query_ora_remotes d)
          | Some e =>
              log debug "Failed to reconfigure ORA special remote: %s"
                  [exc_str e] ;;;
              ret ora_remotes
          end
      end
  | None =>
      log debug "Unknown ORA special remote uuid at '%s': %s"
          ["origin"; org_uuid] ;;;
      ret ora_remotes
  end.

Definition postclonecfg_ria (d : Dataset) (p : props) : G unit :=
  do_config_set d "remote.origin.annex-ignore" "true" ;;;
  do_config_set d "datalad.get.subdataset-source-candidate-200origin"
                (before_first "#"%char (source p) ++ "#{id}") ;;;
  ora_remotes <- observe (query_ora_remotes d) ;;
  known_ora <- observe (fun w =>
    if is_AnnexRepo w d
    then existsb (fun kv => is_ora (sr_externaltype (snd kv)))
                 (get_special_remotes w d)
    else false) ;;
  ora_remotes <-
    (match ora_remotes with
     | [] =>
         if known_ora then
           log debug
               "Found no autoenabled ORA special remote. Trying to look it up in source config ..."
               [] ;;;
           config_content <- ria_config_content p ;;
           org_uuid <-
             (if truthy_opt config_content then
                let content := match config_content with
                               | Some c => c | None => EmptyString end in
                r <- observe (fun w =>
                       git_config_get w content "datalad.ora-remote.uuid") ;;
                match r with
                | Some stdout => ret (Some (PyStr.strip stdout))
                | None =>
                    log debug
                        "Found no UUID for ORA special remote at '%s' (%s)"
                        ["origin"] ;;;
                    ret None
                end
              else ret None) ;;
           match org_uuid with
           | Some u => if PyStr.truthy u then ria_enable d p u ora_remotes
                       else ret ora_remotes
           | None => ret ora_remotes
           end
         else ret ora_remotes
     | _ :: _ => ret ora_remotes
     end) ;;
  match ora_remotes with
  | [] => ret tt
  | [r] => do_siblings_configure d "origin" None (Some (sib_name r)) false
  | _ =>
      log warning
          "Found multiple ORA remotes. Couldn't decide which publishing to 'origin' should depend on: %s."
          [PyStr.join ", " (map sib_name ora_remotes)]
  end.

End Clone.

Section CloneDataset.

Context {N : Network} {H : Helpers} {World : Type} {C : Collaborators World}.

#[local] Abbreviation G := (M World).

(* ------------------------------------------------------------------- *)
(** *** [clone_dataset] *)

(** [result_props] when the caller gave none *)
Definition default_result_props (destds : Dataset) : result_props :=
  mkRP "install" None None destds None.

(** ['could not create work tree' in e_stderr.lower()] *)
Definition worktree_failure (e_stderr : string) : bool :=
  PyStr.contains "could not create work tree" (PyStr.lower e_stderr).

(** The message of the error record for such a failure.  The source
    matches anything, then [fatal: ], then a group of anything up to
    the end, against [e_stderr] with the
    flags MULTILINE and DOTALL: with DOTALL both wildcards run over line
    ends, so the greedy first one stops at the last [fatal: ] and the
    group is the rest of the text.  The message is [group(1).strip()],
    or ['stderr: ' + e_stderr] when nothing matches. *)
Definition worktree_message (e_stderr : string) : message_t :=
  match PyStr.after_last "fatal: " e_stderr with
  | Some g => Msg (PyStr.strip g)
  | None => Msg ("stderr: " ++ e_stderr)
  end.

(** How the [for cand in candidate_sources] loop is left. *)
Inductive loop_result : Type :=
| Aborted                       (* the [return] inside the loop *)
| Finished (error_msgs : OrderedDict.t CommandError)
           (cand : option props)      (* the loop variable, if bound *)
           (winner : option props).   (* set by the [break] *)

(** [clone_opts]: the branch to clone, when the candidate has a version *)
Definition clone_branch (cand : props) : option string :=
  if truthy_opt (version cand) then version cand else None.

Fixpoint attempt_loop (destds : Dataset) (dest_path_existed : bool)
  (rp : result_props) (cands : list props)
  (error_msgs : OrderedDict.t CommandError) (last : option props)
  : G loop_result :=
  match cands with
  | [] => ret (Finished error_msgs last None)
  | cand :: rest =>
      log_progress "Attempting to clone from %s to %s" [giturl cand; destds] ;;;
      failure <- call (fun w => GitRepo_clone w destds (giturl cand)
                                              (clone_branch cand))
                      (EvClone destds (giturl cand) (clone_branch cand)) ;;
      match failure with
      | Some e =>
          let e_stderr := ce_stderr e in
          let error_msgs := OrderedDict.set error_msgs (giturl cand) e in
          log debug "Failed to clone from URL: %s (%s)"
              [giturl cand; exc_str e] ;;;
          there <- observe (fun w => path_exists w destds) ;;
          when there
               (log debug "Wiping out unsuccessful clone attempt at: %s"
                    [destds] ;;;
                act (EvRmtree destds dest_path_existed)
                    (fun w => rmtree w destds dest_path_existed)) ;;;
          if worktree_failure e_stderr then
            log_progress "Completed clone attempts for %s" [destds] ;;;
            yield (get_status_dict error (Some (worktree_message e_stderr)) rp) ;;;
            ret Aborted
          else
            attempt_loop destds dest_path_existed rp rest error_msgs
                         (Some cand)
      | None => ret (Finished error_msgs (Some cand) (Some cand))
      end
  end.

Definition no_output (e : CommandError) : bool :=
  negb (PyStr.truthy (ce_stdout e)) && negb (PyStr.truthy (ce_stderr e)).

(** The message of the error record after the loop, when error messages
    were collected. *)
Definition failed_message (error_msgs : OrderedDict.t CommandError)
  : message_t :=
  if forallb no_output (OrderedDict.values error_msgs) then
    MsgFmt "Failed to clone from all attempted sources: %s"
           [ArgList (OrderedDict.keys error_msgs)]
  else
    MsgFmt ("Failed to clone from any candidate source URL. "
            ++ "Encountered errors per each url were:" ++ PyStr.lf ++ "- %s")
           [ArgStr (PyStr.join (PyStr.lf ++ "- ")
                      (map (fun ue => fst ue ++ PyStr.lf ++ "  "
                                          ++ exc_str (snd ue))
                           error_msgs))].

Definition awkward_message (destds : Dataset) (cand : props) : message_t :=
  MsgFmt ("Awkward error -- we failed to clone properly. "
          ++ "Although no errors were encountered, target "
          ++ "dataset at %s seems to be not fully installed. "
          ++ "The 'succesful' source was: %s")
         [ArgTuple [destds; giturl cand]].

(** The steps from the re-init for shared access to the final record. *)
Definition finish_clone (fuel : nat) (destds : Dataset)
  (reckless description : option string) (rp : result_props) : G unit :=
  match reckless with
  | Some r =>
      when (PyStr.truthy r && PyStr.startswith "shared-" r)
           (log debug "Reinit %s to enable shared access permissions"
                [destds] ;;;
            do_call_git destds ["init"; "--shared=" ++ PyStr.drop 7 r])
  | None => ret tt
  end ;;;
  postclonecfg_annexdataset fuel destds reckless description ;;;
  match rp_source rp with
  | None => raise (KeyError "source")
  | Some src =>
      when (match type src with type_ria => true | _ => false end)
           (postclonecfg_ria destds src) ;;;
      yield (get_status_dict ok None rp)
  end.

(** [result_props['source'] = cand] *)
Definition set_source (rp : result_props) (cand : props) : result_props :=
  mkRP (action rp) (refds rp) (source_url rp) (ds rp) (Some cand).

(** What follows the loop. *)
Definition after_loop (fuel : nat) (destds : Dataset)
  (reckless description : option string) (rp : result_props)
  (error_msgs : OrderedDict.t CommandError) (cand winner : option props)
  : G unit :=
  let rp := match winner with
            | Some c => set_source rp c
            | None => rp
            end in
  log_progress "Completed clone attempts for %s" [destds] ;;;
  installed <- observe (fun w => is_installed w destds) ;;
  if negb installed then
    match error_msgs with
    | _ :: _ =>
        yield (get_status_dict error (Some (failed_message error_msgs)) rp)
    | [] =>
        match cand with
        | Some c =>
            yield (get_status_dict error (Some (awkward_message destds c)) rp)
        | None => raise (NameError "cand")
        end
    end
  else
    match cand with
    | None => raise (NameError "cand")
    | Some c =>
        when (negb (truthy_opt (version c))) (postclone_check_head destds) ;;;
        finish_clone fuel destds reckless description rp
    end.

(** The check of a destination that exists and is not empty. *)
Definition existing_destination (destds : Dataset)
  (rp : result_props) (candidate_sources : list props) : G unit :=
  installed <- observe (fun w => is_installed w destds) ;;
  found <-
    (if installed then
       track <- observe (_get_tracking_source destds) ;;
       let track_url := snd track in
       let track_path := Path_str track_url in
       ret (find (fun cand =>
                    already_cloned_from track_url track_path (giturl cand))
                 candidate_sources)
     else ret None) ;;
  match found with
  | Some cand =>
      yield (get_status_dict notneeded
               (Some (MsgFmt "dataset %s was already cloned from '%s'"
                             [ArgDataset destds; ArgStr (giturl cand)]))
               rp)
  | None =>
      yield (get_status_dict error
               (Some (Msg "target path already exists and not empty, refuse to clone into target path"))
               rp)
  end.

Definition clone_dataset (fuel : nat) (srcs : list string)
  (destds : Dataset) (reckless description : option string)
  (result_props : option result_props) : G unit :=
  let rp := match result_props with
            | Some rp => rp
            | None => default_result_props destds
            end in
  match decode_all srcs with
  | Err e => raise e
  | Ok decoded =>
      let candidate_sources := expand_candidates decoded in
      dest_path_existed <- observe (fun w => path_exists w destds) ;;
      nonempty <- observe (fun w =>
                    dest_path_existed && path_nonempty w destds) ;;
      if nonempty then existing_destination destds rp candidate_sources
      else
        log_progress "Cloning dataset to %s" [destds] ;;;
        r <- attempt_loop destds dest_path_existed rp candidate_sources [] None ;;
        match r with
        | Aborted => ret tt
        | Finished error_msgs cand winner =>
            after_loop fuel destds reckless description rp error_msgs
                       cand winner
        end
  end.

(** What a candidate is attempted with. *)
Definition attempt_of (cand : props) : string * option string :=
  (giturl cand, clone_branch cand).

(** The events between a failed transfer and the next step: the debug
    line and, when the destination is there, its removal. *)
Definition cleanup_events (destds : Dataset) (dest_path_existed : bool)
  (cand : props) (e : CommandError) (there : bool) : list event :=
  EvLog debug "Failed to clone from URL: %s (%s)" [giturl cand; exc_str e]
  :: (if there
      then [EvLog debug "Wiping out unsuccessful clone attempt at: %s"
                  [destds];
            EvRmtree destds dest_path_existed]
      else []).

(** Assumptions on the collaborators that some of the statements below
    are made under. *)

(** a transfer that succeeds leaves an installed dataset *)
Definition clone_installs : Prop :=
  forall (w w' : World) (p url : string) (br : option string),
    GitRepo_clone w p url br = (w', None) -> is_installed w' p = true.

(** there is no installed dataset at a path that does not exist, nor at
    one that [rmtree] was just run on *)
Definition wiped_not_installed : Prop :=
  (forall (w : World) (p : string),
      path_exists w p = false -> is_installed w p = false)
  /\ (forall (w : World) (p : string) (children_only : bool),
         is_installed (rmtree w p children_only) p = false).

End CloneDataset.

(* ===================================================================== *)
(** ** A small concrete world, to run the functions on *)
(* ===================================================================== *)

Module Sim.

(** URLs of the form [scheme://host/path#fragment]; anything without
    [://] is a local path. *)
Definition parse_url (s : string) : URL_fields :=
  let sch := before_first ":"%char s in
  let rest := PyStr.drop (String.length sch + 3) s in
  let nofrag := before_first "#"%char rest in
  let frag := match PyStr.split_first "#"%char rest with
              | Some (_, f) => f
              | None => EmptyString
              end in
  let host := before_first "/"%char nofrag in
  mkURL sch EmptyString EmptyString host EmptyString
        (PyStr.drop (String.length host) nofrag) EmptyString frag.

Definition unparse_url (u : URL_fields) : string :=
  scheme u ++ "://" ++ hostname u
  ++ (if PyStr.truthy (path u) && negb (PyStr.startswith "/" (path u))
      then "/" else EmptyString)
  ++ path u
  ++ (if PyStr.truthy (fragment u) then "#" ++ fragment u else EmptyString).

Definition join_path (p q : string) : string :=
  if PyStr.startswith "/" q then q else p ++ "/" ++ q.

#[export] Instance network : Network := {
  rewrite_url := fun s => s;
  RI_of := fun s =>
    if PyStr.contains "://" s then URL (parse_url s)
    else if PyStr.startswith "///" s then DataLadRI EmptyString (PyStr.drop 3 s)
    else PathRI s;
  as_git_url := fun _ p => "http://datasets.datalad.org/" ++ p;
  URL_str := unparse_url;
  urlunquote := fun s => s;
  Path_last_part := fun s => Some (last_str (PyStr.split "/"%char s));
  Path_str := fun s => Some s;
  get_local_file_url := fun s => "file://" ++ s;
  expanduser := fun s => s;
  localpath := fun s =>
    if PyStr.startswith "file://" s then Some (PyStr.drop 7 s)
    else if PyStr.contains "://" s then None
    else Some s;
  Path_name := fun s => last_str (PyStr.split "/"%char s);
  Path_join := join_path;
  _get_flexible_source_candidates := fun s => [s]
}.

#[export] Instance helpers : Helpers := {
  exc_str := fun e => ce_msg e;
  assure_bool := fun s =>
    if String.eqb s "true" then Some true
    else if String.eqb s "false" then Some false
    else None;
  URL_path := fun s => path (parse_url s);
  URL_localpath := fun s => PyStr.drop 7 s
}.

(** The state of the simulated collaborators.  Only one destination is
    tracked on the file system side; configuration is kept per dataset. *)
Record world : Type := mkWorld {
  dest : string;
  present : bool;                   (* the destination exists *)
  nonempty : bool;
  installed : bool;
  tracking : option string;         (* remote of the tracking branch *)
  head_commit : bool;               (* HEAD points to a commit *)
  remote_branches : list string;    (* as listed by for-each-ref *)
  clone_failure : string -> option CommandError;  (* by URL *)
  failure_leaves_files : bool;
  cfg : list (Dataset * string * string);
  sections : list (Dataset * string);
  annex_traces : bool;
  annex_initialized : bool;
  symlinks_ok : bool;
  links : list (string * string);
  dead : list string;
  special_remotes : list (string * special_remote);
  siblings : list sibling;
  files : list (string * string)
}.

Definition lookup {V} (k : string) (l : list (string * V)) : option V :=
  match find (fun kv => String.eqb (fst kv) k) l with
  | Some (_, v) => Some v
  | None => None
  end.

Definition cfg_lookup (w : world) (d : Dataset) (k : string) : option string :=
  match find (fun e => String.eqb (fst (fst e)) d && String.eqb (snd (fst e)) k)
             (cfg w) with
  | Some (_, v) => Some v
  | None => None
  end.

Definition set_fs (w : world) (p n i : bool) : world :=
  mkWorld (dest w) p n i (tracking w) (head_commit w) (remote_branches w)
          (clone_failure w) (failure_leaves_files w) (cfg w) (sections w)
          (annex_traces w) (annex_initialized w) (symlinks_ok w) (links w)
          (dead w) (special_remotes w) (siblings w) (files w).

Definition set_cfg (w : world) (d : Dataset) (k v : string) : world :=
  mkWorld (dest w) (present w) (nonempty w) (installed w) (tracking w)
          (head_commit w) (remote_branches w) (clone_failure w)
          (failure_leaves_files w) ((d, k, v) :: cfg w) (sections w)
          (annex_traces w) (annex_initialized w) (symlinks_ok w) (links w)
          (dead w) (special_remotes w) (siblings w) (files w).

Definition add_section (w : world) (d : Dataset) (s : string) : world :=
  mkWorld (dest w) (present w) (nonempty w) (installed w) (tracking w)
          (head_commit w) (remote_branches w) (clone_failure w)
          (failure_leaves_files w) (cfg w) ((d, s) :: sections w)
          (annex_traces w) (annex_initialized w) (symlinks_ok w) (links w)
          (dead w) (special_remotes w) (siblings w) (files w).

Definition set_head (w : world) (b : bool) : world :=
  mkWorld (dest w) (present w) (nonempty w) (installed w) (tracking w)
          b (remote_branches w) (clone_failure w)
          (failure_leaves_files w) (cfg w) (sections w)
          (annex_traces w) (annex_initialized w) (symlinks_ok w) (links w)
          (dead w) (special_remotes w) (siblings w) (files w).

Definition set_annex_initialized (w : world) : world :=
  mkWorld (dest w) (present w) (nonempty w) (installed w) (tracking w)
          (head_commit w) (remote_branches w) (clone_failure w)
          (failure_leaves_files w) (cfg w) (sections w)
          (annex_traces w) true (symlinks_ok w) (links w)
          (dead w) (special_remotes w) (siblings w) (files w).

Definition set_links (w : world) (l : list (string * string)) : world :=
  mkWorld (dest w) (present w) (nonempty w) (installed w) (tracking w)
          (head_commit w) (remote_branches w) (clone_failure w)
          (failure_leaves_files w) (cfg w) (sections w)
          (annex_traces w) (annex_initialized w) (symlinks_ok w) l
          (dead w) (special_remotes w) (siblings w) (files w).

Definition add_dead (w : world) (n : string) : world :=
  mkWorld (dest w) (present w) (nonempty w) (installed w) (tracking w)
          (head_commit w) (remote_branches w) (clone_failure w)
          (failure_leaves_files w) (cfg w) (sections w)
          (annex_traces w) (annex_initialized w) (symlinks_ok w) (links w)
          (n :: dead w) (special_remotes w) (siblings w) (files w).

(** Errors of [git clone], as [GitRepo.clone] raises them. *)
Definition worktree_error : CommandError :=
  mkCommandError "CommandError: 'git clone' failed with exitcode 128"
                 EmptyString
                 "fatal: could not create work tree dir '/dst': Permission denied".

Definition silent_error : CommandError :=
  mkCommandError "CommandError: 'git clone' failed with exitcode 128"
                 EmptyString EmptyString.

Definition not_found_error : CommandError :=
  mkCommandError "CommandError: 'git clone' failed with exitcode 128"
                 EmptyString
                 "fatal: repository '/a' does not exist".

Definition sibling_record (d : Dataset) : status_dict :=
  mkSD ok None (mkRP "configure-sibling" None None d None).

#[export] Instance collaborators : Collaborators world := {
  path_exists := fun w p => String.eqb p (dest w) && present w;
  path_nonempty := fun w p => String.eqb p (dest w) && nonempty w;
  rmtree := fun w p children_only =>
    if String.eqb p (dest w) then set_fs w children_only false false else w;
  is_symlink := fun w p => existsb (fun l => String.eqb (fst l) p) (links w);
  unlink := fun w p =>
    set_links w (filter (fun l => negb (String.eqb (fst l) p)) (links w));
  symlink_to := fun w l t => set_links w ((l, t) :: links w);
  check_symlink_capability := fun w _ _ => symlinks_ok w;
  read_local_file := fun w p => lookup p (files w);
  is_installed := fun w d =>
    String.eqb d (dest w) && present w && installed w;
  dot_git := fun _ d => d ++ "/.git";
  is_AnnexRepo := fun w _ => annex_initialized w;
  get_tracking_branch := fun w _ _ => tracking w;
  get_remote_url := fun w d n =>
    match cfg_lookup w d ("remote." ++ n ++ ".url") with
    | Some u => u
    | None => EmptyString
    end;
  get_remotes := fun w d =>
    map (fun s => PyStr.drop 7 (snd s))
        (filter (fun s => String.eqb (fst s) d
                          && PyStr.startswith "remote." (snd s))
                (sections w));
  GitRepo_clone := fun w p url _ =>
    if negb (String.eqb p (dest w)) then (w, Some silent_error) else
    match clone_failure w url with
    | Some e =>
        (if failure_leaves_files w then set_fs w true true false else w,
         Some e)
    | None =>
        (add_section
           (set_cfg (set_fs w true true true) p "remote.origin.url" url)
           p "remote.origin",
         None)
    end;
  commit_exists := fun w _ _ => head_commit w;
  for_each_ref_ := fun w _ _ _ _ => remote_branches w;
  call_git := fun w _ args =>
    match args with
    | "checkout" :: _ => set_head w true
    | _ => w
    end;
  config_get := cfg_lookup;
  config_set := set_cfg;
  config_obtain := fun w d k default =>
    match cfg_lookup w d k with
    | Some v => if String.eqb v "false" then false
                else if String.eqb v "true" then true else default
    | None => default
    end;
  config_sections := fun w d =>
    map snd (filter (fun s => String.eqb (fst s) d) (sections w));
  knows_annex := fun w _ => annex_traces w;
  AnnexRepo := fun w _ => w;
  is_initialized := fun w _ => annex_initialized w;
  _init := fun w _ _ => set_annex_initialized w;
  _run_annex_command := fun w _ _ _ => w;
  set_remote_dead := fun w _ n => add_dead w n;
  get_special_remotes := fun w _ => special_remotes w;
  enable_remote := fun w _ _ _ => (w, None);
  siblings_query := fun w _ => siblings w;
  siblings_configure := fun w d name url _ _ =>
    (match url with
     | Some u => add_section (set_cfg w d ("remote." ++ name ++ ".url") u)
                             d ("remote." ++ name)
     | None => w
     end,
     [sibling_record d]);
  requests_get := fun w url => lookup url (files w);
  ssh_read_file := fun w _ p => lookup p (files w);
  git_config_get := fun _ content _ => Some content
}.

(** A destination that does not exist yet, and a source without annex. *)
Definition fresh (d : string) : world :=
  mkWorld d false false false None true [] (fun _ => None) true [] []
          false false true [] [] [] [] [].

Definition with_clone_failure (w : world)
  (f : string -> option CommandError) : world :=
  mkWorld (dest w) (present w) (nonempty w) (installed w) (tracking w)
          (head_commit w) (remote_branches w) f
          (failure_leaves_files w) (cfg w) (sections w)
          (annex_traces w) (annex_initialized w) (symlinks_ok w) (links w)
          (dead w) (special_remotes w) (siblings w) (files w).

Definition with_tracking (w : world) (t : option string) : world :=
  mkWorld (dest w) (present w) (nonempty w) (installed w) t
          (head_commit w) (remote_branches w) (clone_failure w)
          (failure_leaves_files w) (cfg w) (sections w)
          (annex_traces w) (annex_initialized w) (symlinks_ok w) (links w)
          (dead w) (special_remotes w) (siblings w) (files w).


Definition with_annex (w : world) (symlinks : bool) : world :=
  mkWorld (dest w) (present w) (nonempty w) (installed w) (tracking w)
          (head_commit w) (remote_branches w) (clone_failure w)
          (failure_leaves_files w) (cfg w) (sections w)
          true (annex_initialized w) symlinks (links w)
          (dead w) (special_remotes w) (siblings w) (files w).

(** the URLs that fail, each with its error; every other URL clones *)
Definition failing (w : world) (l : list (string * CommandError)) : world :=
  with_clone_failure w (fun url => lookup url l).

(** A destination that is a clone of [url] already. *)
Definition cloned (d url : string) : world :=
  set_cfg (add_section (with_tracking (set_fs (fresh d) true true true)
                                      (Some "origin"))
                       d "remote.origin")
          d "remote.origin.url" url.

(** The specification of the RIA example of the command. *)
Definition ria_spec : string :=
  "ria+http://store.datalad.org#76b6ca66-36b1-11ea-a2e6-f0d5bf7b5561@v1".

(** A chain of local origins with relative URLs: the clone comes from
    [../a], that from [sub/b], that again from a [../a], a different
    dataset with the same relative URL, which comes from [/z]. *)
Definition chain : world :=
  set_cfg
    (set_cfg
       (set_cfg (cloned "/p/clone" "../a")
                "/p/clone/../a" "remote.origin.url" "sub/b")
       "/p/clone/../a/sub/b" "remote.origin.url" "../a")
    "/p/clone/../a/sub/b/../a" "remote.origin.url" "/z".

(** The chain after [sub/b] was set up as remote 'origin-2' of the
    clone. *)
Definition chain_with_origin2 : world :=
  fst (siblings_configure chain "/p/clone" "origin-2" (Some "sub/b") None
                          true).


(** A clone of [/src], which has an annex, on a file system with or
    without symbolic links. *)
Definition annexed (symlinks : bool) : world :=
  with_annex (cloned "/dst" "/src") symlinks.

Definition bad_ria_spec : string :=
  "ria+http://store.datalad.org#not-a-dataset-id".

Definition long_ria_spec : string :=
  "ria+http://store.datalad.org#76b6ca66-36b1-11ea-a2e6-f0d5bf7b5561-extra@v2".

Definition upper_ria_spec : string :=
  "ria+http://store.datalad.org#76B6CA66-36b1-11ea-a2e6-f0d5bf7b5561".

(** Decoded local paths. *)
Definition local_props (p name : string) : props :=
  mkProps p None type_giturl p name.

Definition ria_props : props :=
  mkProps ria_spec (Some "v1") type_ria
          "http://store.datalad.org/76b/6ca66-36b1-11ea-a2e6-f0d5bf7b5561"
          "76b6ca66-36b1-11ea-a2e6-f0d5bf7b5561".

End Sim.

(* ===================================================================== *)
(** ** Tests on the events of a trace *)
(* ===================================================================== *)

(** Every event of the trace passes the test. *)
Definition all_events (q : event -> bool) (t : list event) : Prop :=
  forallb q t = true.

(** An event that removes nothing, or that removes [p] with the flag
    [children_only]. *)
Definition wipes_only (p : string) (children_only : bool) (e : event) : bool :=
  match e with
  | EvRmtree p' c => String.eqb p' p && Bool.eqb c children_only
  | _ => true
  end.

Definition not_rmtree (e : event) : bool :=
  match e with EvRmtree _ _ => false | _ => true end.

Definition not_call_git (e : event) : bool :=
  match e with EvCallGit _ _ => false | _ => true end.

(** An event that leaves the annex and the configuration alone: a log
    line, a record, or the set-up of a sibling. *)
Definition report_only (e : event) : bool :=
  match e with
  | EvLog _ _ _ | EvYield _ | EvSiblingsConfigure _ _ _ _ _ => true
  | _ => false
  end.

Definition log_only (e : event) : bool :=
  match e with EvLog _ _ _ => true | _ => false end.

(** An event other than the start or the initialization of the annex. *)
Definition not_annex_init (e : event) : bool :=
  match e with
  | EvAnnexRepo _ | EvAnnexInit _ _ => false
  | _ => true
  end.

(** An event other than the removal of a tree or of a link, or the
    making of a link. *)
Definition not_file_change (e : event) : bool :=
  match e with
  | EvRmtree _ _ | EvUnlink _ | EvSymlink _ _ => false
  | _ => true
  end.

(** [if path.endswith('.git'): path = path[:-4]] *)
Definition strip_git_suffix (p : string) : string :=
  if PyStr.endswith ".git" p
  then PyStr.take (String.length p - 4) p
  else p.

(* ===================================================================== *)
(** ** The special remotes that the report names *)
(* ===================================================================== *)

Section Report.

Context {H : Helpers} {World : Type} {C : Collaborators World}.

(** [assure_bool(config.get('autoenable', False))]; [None] where it
    raises. *)
Definition autoenable_of (config : special_remote) : option bool :=
  match sr_autoenable config with
  | None => Some false
  | Some v => assure_bool v
  end.

(** The names that end up in [srs[autoenable]]: those of the special
    remotes, in their order, that have a name, a value of [autoenable] that
    reads as the given one, and a UUID that is not empty and not the one of
    a remote of the repository. *)
Definition unbound_special_remotes (d : Dataset) (w : World)
  (autoenable : bool) (items : list (string * special_remote))
  : list string :=
  flat_map
    (fun item =>
       match sr_name (snd item), autoenable_of (snd item) with
       | Some name, Some b =>
           if PyStr.truthy (fst item)
              && negb (existsb (opt_str_eqb (Some (fst item)))
                               (map (remote_uuid d w) (get_remotes w d)))
              && Bool.eqb b autoenable
           then [name] else []
       | _, _ => []
       end)
    items.

End Report.

(* ===================================================================== *)
(** ** The command: [Clone.__call__] *)
(* ===================================================================== *)

(** The function as it is written, without the decorators around it
    ([eval_results] and [datasetmethod], which filter and render what it
    yields). *)

(** [source] is a string or a [Dataset] instance. *)
Inductive source_arg : Type :=
| SourceStr (s : string)
| SourceDataset (d : Dataset).

(** [reckless] is [None], a boolean (kept for backward compatibility) or
    the name of a mode. *)
Inductive reckless_arg : Type :=
| RecklessNone
| RecklessTrue
| RecklessFalse
| RecklessStr (mode : string).

(** The record that is yielded before there is a destination dataset: it
    has the key ['path'] and no ['ds']. *)
Record path_record : Type := mkPR {
  pr_status : status_t;
  pr_path : string;
  pr_message : message_t;
  pr_action : string;
  pr_refds : option string;
  pr_source_url : string
}.

(** What a run of the command does: that record, or an event as
    [clone_dataset] has them. *)
Inductive cmd_event : Type :=
| CmdYieldPath (r : path_record)
| CmdEvent (e : event).

Record cmd_run (World : Type) : Type := mkCmdRun {
  cmd_trace : list cmd_event;
  cmd_final : World;
  cmd_out : outcome unit
}.

(** What the command calls besides the collaborators of [clone_dataset]. *)
Class Command (World : Type) : Type := {
  (* require_dataset(dataset, check_installed=True, purpose='cloning') *)
  require_dataset : World -> Dataset -> result Dataset;
  resolve_path : string -> option Dataset -> string;
  (* path.exists(): None when it returns, exc_str(e) when it raises
     OSError e *)
  path_error : World -> string -> option string;
  Path_parents : string -> list string;              (* path.parents *)
  (* ds.save(path, return_type='generator', on_failure='ignore') *)
  save : World -> Dataset -> string -> World * list status_dict
}.

Section TheCommand.

Context {N : Network} {H : Helpers} {World : Type} {C : Collaborators World}
        {Cmd : Command World}.

(** [ds = require_dataset(...) if dataset is not None else dataset] *)
Definition required_dataset (dataset : option Dataset) (w : World)
  : result (option Dataset) :=
  match dataset with
  | Some d =>
      match require_dataset w d with
      | Ok ds => Ok (Some ds)
      | Err e => Err e
      end
  | None => Ok None
  end.

(** The mode that is handed to [clone_dataset]: [True] stands for
    ['auto']; [None] takes the mode that the dataset to clone into has under
    [datalad.clone.reckless], if there is such a dataset.  [False] is handed
    on as it is, and is as good as [None] to every test that
    [clone_dataset] and [postclonecfg_annexdataset] make. *)
Definition effective_reckless (reckless : reckless_arg)
  (ds : option Dataset) (w : World) : option string :=
  match reckless with
  | RecklessTrue => Some "auto"
  | RecklessNone =>
      match ds with
      | Some d => config_get w d "datalad.clone.reckless"
      | None => None
      end
  | RecklessFalse => None
  | RecklessStr mode => Some mode
  end.

(** [source.path if isinstance(source, Dataset) else source] *)
Definition source_path (source : source_arg) : string :=
  match source with
  | SourceStr s => s
  | SourceDataset d => d
  end.

Definition identical_message (path : string) : string :=
  "clone `source` and destination `path` are identical [" ++ path
  ++ "]. If you are trying to add a subdataset simply use `save`".

(** The destination: the given path, or the default one of the decoded
    source, resolved; with the debug lines on the way. *)
Definition target_path (source : string) (path dataset : option string)
  : result (string * list event) :=
  match path with
  | Some p =>
      let path := resolve_path p dataset in
      Ok (path, [EvLog debug "Resolved clone target path to: '%s'" [path]])
  | None =>
      match decode_source_spec source with
      | Ok source_ =>
          let path := resolve_path (default_destpath source_) dataset in
          Ok (path,
              [EvLog debug "Determined clone target path from source" [];
               EvLog debug "Resolved clone target path to: '%s'" [path]])
      | Err e => Err e
      end
  end.

(** [ds is not None and ds.pathobj not in path.parents] *)
Definition outside_dataset (ds : option Dataset) (path : string) : bool :=
  match ds with
  | Some d => negb (str_in d (Path_parents path))
  | None => false
  end.

(** [for r in ds.save(path, ...): yield r], when there is a dataset to
    clone into. *)
Definition save_into (ds : option Dataset) (path : string) (w : World)
  : World * list status_dict :=
  match ds with
  | Some d => save w d path
  | None => (w, [])
  end.

Definition __call__ (fuel : nat) (source : source_arg)
  (path dataset description : option string) (reckless : reckless_arg)
  (w : World) : cmd_run World :=
  match required_dataset dataset w with
  | Err e => mkCmdRun [] w (Raised e)
  | Ok ds =>
      let refds_path := ds in
      let reckless := effective_reckless reckless ds w in
      let source := source_path source in
      if opt_str_eqb (Some source) path then
        mkCmdRun [] w (Raised (ValueError (identical_message source)))
      else
        match target_path source path dataset with
        | Err e => mkCmdRun [] w (Raised e)
        | Ok (path, logs) =>
            let logs := map CmdEvent logs in
            match path_error w path with
            | Some e_str =>
                mkCmdRun
                  (logs ++ [CmdYieldPath
                              (mkPR error path
                                    (MsgFmt "cannot handle target path: %s"
                                            [ArgStr e_str])
                                    "install" refds_path source)])%list
                  w (Returned tt)
            | None =>
                let destination_dataset : Dataset := path in
                let result_props :=
                  mkRP "install" refds_path (Some source)
                       destination_dataset None in
                if outside_dataset ds path then
                  mkCmdRun
                    (logs ++ [CmdEvent
                                (EvYield
                                   (get_status_dict error
                                      (Some (MsgFmt
                                               "clone target path '%s' not in specified target dataset '%s'"
                                               [ArgStr path;
                                                ArgDataset
                                                  (match ds with
                                                   | Some d => d
                                                   | None => EmptyString
                                                   end)]))
                                      result_props))])%list
                    w (Returned tt)
                else
                  let r := clone_dataset fuel [source] destination_dataset
                                         reckless description
                                         (Some result_props) w in
                  match out r with
                  | Returned _ =>
                      let saved := save_into ds path (final r) in
                      mkCmdRun
                        (logs ++ map CmdEvent (trace r)
                         ++ map (fun x => CmdEvent (EvYield x)) (snd saved))%list
                        (fst saved) (Returned tt)
                  | Raised e =>
                      mkCmdRun (logs ++ map CmdEvent (trace r))%list
                               (final r) (Raised e)
                  | OutOfFuel =>
                      mkCmdRun (logs ++ map CmdEvent (trace r))%list
                               (final r) OutOfFuel
                  end
            end
        end
  end.

(** The events of a run of the command that [clone_dataset] knows. *)
Definition cmd_events (t : list cmd_event) : list event :=
  flat_map (fun e => match e with CmdEvent e => [e] | _ => [] end) t.

End TheCommand.

(* ===================================================================== *)
(** ** The command in the concrete world *)
(* ===================================================================== *)

Module SimCommand.

Import Sim.

(** [path.parents] of an absolute path, the nearest first. *)
Definition parents (p : string) : list string :=
  let parts := PyStr.split "/"%char p in
  map (fun k =>
         let s := PyStr.join "/" (firstn k parts) in
         if PyStr.truthy s then s else "/")
      (rev (seq 1 (length parts - 1))).

(** A dataset to clone into is taken as installed when the world has
    configuration for it; a path of more than 255 characters is one the
    file system cannot handle. *)
#[export] Instance command : Command world := {
  require_dataset := fun w d =>
    if existsb (fun e => String.eqb (fst (fst e)) d) (cfg w) then Ok d
    else Err (ValueError ("No installed dataset found at '" ++ d ++ "'."));
  resolve_path := fun p ds =>
    match ds with
    | Some d => join_path d p
    | None => join_path "/cwd" p
    end;
  path_error := fun _ p =>
    if (255 <? String.length p)%nat
    then Some "[Errno 36] File name too long" else None;
  Path_parents := parents;
  save := fun w d p =>
    (set_cfg w d ("submodule." ++ p ++ ".url") p,
     [mkSD ok None (mkRP "save" None None d None)])
}.

(** A dataset at [/super] to clone into, at [/super/sub]. *)
Definition super : world :=
  set_cfg (fresh "/super/sub") "/super" "core.bare" "false".


(** The world with the given ORA siblings and special remotes. *)
Definition with_store (w : world) (srs : list (string * special_remote))
  (sibs : list sibling) : world :=
  mkWorld (dest w) (present w) (nonempty w) (installed w) (tracking w)
          (head_commit w) (remote_branches w) (clone_failure w)
          (failure_leaves_files w) (cfg w) (sections w)
          (annex_traces w) true (symlinks_ok w) (links w)
          (dead w) srs sibs (files w).

Definition ora_sibling (name : string) : sibling :=
  mkSibling name (Some "ora").

Definition ora_special_remote (name : string) : special_remote :=
  mkSR (Some name) (Some "true") (Some "ora").

(** A clone of [/p] at [/c], where [/p] names itself as its origin. *)
Definition self_origin : world :=
  set_cfg (cloned "/c" "/p") "/p" "remote.origin.url" "/p".

End SimCommand.

(* ===================================================================== *)
(** ** A world in which nothing is ever installed *)
(* ===================================================================== *)

(** Git reports every transfer as a success and no dataset is installed
    anywhere; the one special remote, of type ORA, has no sibling until it
    is enabled.  The state is whether it was enabled. *)
Module Hollow.

Definition store_remote : special_remote :=
  mkSR (Some "store-storage") (Some "true") (Some "ora").

#[export] Instance collaborators : Collaborators bool := {
  path_exists := fun _ _ => false;
  path_nonempty := fun _ _ => false;
  rmtree := fun w _ _ => w;
  is_symlink := fun _ _ => false;
  unlink := fun w _ => w;
  symlink_to := fun w _ _ => w;
  check_symlink_capability := fun _ _ _ => false;
  read_local_file := fun _ _ => None;
  is_installed := fun _ _ => false;
  dot_git := fun _ d => d ++ "/.git";
  is_AnnexRepo := fun _ _ => true;
  get_tracking_branch := fun _ _ _ => None;
  get_remote_url := fun _ _ _ => EmptyString;
  get_remotes := fun _ _ => [];
  GitRepo_clone := fun w _ _ _ => (w, None);
  commit_exists := fun _ _ _ => true;
  for_each_ref_ := fun _ _ _ _ _ => [];
  call_git := fun w _ _ => w;
  config_get := fun _ _ _ => None;
  config_set := fun w _ _ _ => w;
  config_obtain := fun _ _ _ default => default;
  config_sections := fun _ _ => [];
  knows_annex := fun _ _ => false;
  AnnexRepo := fun w _ => w;
  is_initialized := fun _ _ => true;
  _init := fun w _ _ => w;
  _run_annex_command := fun w _ _ _ => w;
  set_remote_dead := fun w _ _ => w;
  get_special_remotes := fun _ _ => [("uuid-ora", store_remote)];
  enable_remote := fun _ _ _ _ => (true, None);
  siblings_query := fun w _ =>
    if w then [mkSibling "store-storage" (Some "ora")] else [];
  siblings_configure := fun w _ _ _ _ _ => (w, []);
  requests_get := fun _ _ => Some "uuid-ora";
  ssh_read_file := fun _ _ _ => None;
  git_config_get := fun _ content _ => Some (content ++ PyStr.lf)
}.

(** A dataset in the store, by its alias, as cloned over HTTP. *)
Definition alias_props : props :=
  mkProps "ria+http://store.example.org#~study" None type_ria
          "http://store.example.org/alias/study" "study".

End Hollow.

(* ===================================================================== *)
(** ** Facts about the string primitives *)
(* ===================================================================== *)

Module PyStrFacts.
Import PyStr.

Lemma append_nil_r (s : string) : s ++ EmptyString = s.
Proof. induction s as [|c s IH]; simpl; [reflexivity | now rewrite IH]. Qed.

Lemma append_assoc (a b c : string) : (a ++ b) ++ c = a ++ (b ++ c).
Proof. induction a as [|x a IH]; simpl; [reflexivity | now rewrite IH]. Qed.

Lemma split_first_app (c : ascii) (l r : string) :
  has_char c l = false ->
  split_first c (l ++ String c r) = Some (l, r).
Proof.
  induction l as [|a l IH]; simpl; intros Hl.
  - now rewrite Ascii.eqb_refl.
  - apply orb_false_iff in Hl as [Ha Hl].
    rewrite Ha, (IH Hl). reflexivity.
Qed.

Lemma split_first_none (c : ascii) (s : string) :
  has_char c s = false -> split_first c s = None.
Proof.
  induction s as [|a s IH]; simpl; intros Hs; [reflexivity|].
  apply orb_false_iff in Hs as [Ha Hs].
  now rewrite Ha, (IH Hs).
Qed.

Lemma split_first_inv (c : ascii) (s l r : string) :
  split_first c s = Some (l, r) ->
  s = l ++ String c r /\ has_char c l = false.
Proof.
  revert l; induction s as [|a s IH]; simpl; intros l Hs; [discriminate|].
  destruct (Ascii.eqb a c) eqn:E.
  - apply Ascii.eqb_eq in E; subst a. injection Hs as <- <-. now split.
  - destruct (split_first c s) as [[l' r']|]; [|discriminate].
    injection Hs as <- <-. destruct (IH l' eq_refl) as [-> Hl].
    split; [reflexivity | simpl; now rewrite E].
Qed.

Lemma has_char_split_first (c : ascii) (s : string) :
  has_char c s = false <-> split_first c s = None.
Proof.
  split; [apply split_first_none|].
  induction s as [|a s IH]; simpl; [reflexivity|].
  destruct (Ascii.eqb a c); [discriminate|].
  destruct (split_first c s) as [[? ?]|]; [discriminate|].
  intros _. now apply IH.
Qed.

Lemma rev_acc_app (s acc : string) : rev_acc s acc = rev s ++ acc.
Proof.
  unfold rev. revert acc.
  induction s as [|c s IH]; intros acc; simpl; [reflexivity|].
  rewrite IH, (IH (String c EmptyString)), append_assoc. reflexivity.
Qed.

Lemma rev_app (a b : string) : rev (a ++ b) = rev b ++ rev a.
Proof.
  induction a as [|c a IH]; simpl.
  - now rewrite append_nil_r.
  - unfold rev; simpl. rewrite !(rev_acc_app _ (String c EmptyString)).
    fold (rev (a ++ b)). rewrite IH, append_assoc. reflexivity.
Qed.

Lemma startswith_app (p s : string) : startswith p (p ++ s) = true.
Proof.
  induction p as [|c p IH]; simpl; [reflexivity|].
  now rewrite Ascii.eqb_refl, IH.
Qed.

Lemma startswith_inv (p s : string) :
  startswith p s = true -> exists r, s = p ++ r.
Proof.
  revert s; induction p as [|c p IH]; intros s Hs; simpl in *.
  - now exists s.
  - destruct s as [|a s]; [discriminate|].
    apply andb_true_iff in Hs as [E Hs]. apply Ascii.eqb_eq in E; subst a.
    destruct (IH s Hs) as [r ->]. now exists r.
Qed.

(** [s.endswith(p)] holds exactly when [s] is some text followed by [p]. *)
Lemma endswith_app (p l : string) : endswith p (l ++ p) = true.
Proof. unfold endswith. rewrite rev_app. apply startswith_app. Qed.

Lemma take_drop (n : nat) (s : string) : take n s ++ drop n s = s.
Proof.
  revert s; induction n as [|n IH]; intros [|c s]; simpl; try reflexivity.
  now rewrite IH.
Qed.

Lemma take_app (a b : string) : take (String.length a) (a ++ b) = a.
Proof. induction a as [|c a IH]; simpl; [now destruct b | now rewrite IH]. Qed.

Lemma drop_app (a b : string) : drop (String.length a) (a ++ b) = b.
Proof. induction a as [|c a IH]; simpl; [reflexivity | exact IH]. Qed.

Lemma length_append (a b : string) :
  String.length (a ++ b) = String.length a + String.length b.
Proof. induction a as [|c a IH]; simpl; [reflexivity | now rewrite IH]. Qed.

Lemma take_app_le (n : nat) (a b : string) :
  n <= String.length a -> take n (a ++ b) = take n a.
Proof.
  revert a; induction n as [|n IH]; intros [|c a] Hn; simpl in *;
    try reflexivity; try lia.
  f_equal. apply IH. lia.
Qed.

Lemma drop_app_le (n : nat) (a b : string) :
  n <= String.length a -> drop n (a ++ b) = drop n a ++ b.
Proof.
  revert a; induction n as [|n IH]; intros [|c a] Hn; simpl in *;
    try reflexivity; try lia.
  apply IH. lia.
Qed.

End PyStrFacts.

(* ===================================================================== *)
(** ** Facts about the UUID pattern *)
(* ===================================================================== *)

Module ReFacts.
Import PyStr PyStrFacts Re.

Lemma match_class_app (p : ascii -> bool) (h rest : string) :
  all_chars p h = true ->
  match_class p (String.length h) (h ++ rest) = Some rest.
Proof.
  induction h as [|c h IH]; simpl; intros Hh; [reflexivity|].
  apply andb_true_iff in Hh as [Hc Hh]. now rewrite Hc, IH.
Qed.

Lemma match_class_group (n : nat) (h rest : string) :
  hex_group n h -> match_class hex_lower n (h ++ rest) = Some rest.
Proof. intros [<- Hh]. now apply match_class_app. Qed.

(** A match only looks at the first [width re] characters, and each of
    them is one that some atom of the pattern lets through. *)
Lemma match_class_get (p : ascii -> bool) (n : nat) (s rest : string) :
  match_class p n s = Some rest ->
  (forall i, i < n -> exists c, String.get i s = Some c /\ p c = true)
  /\ (forall i, String.get (n + i) s = String.get i rest).
Proof.
  revert s; induction n as [|n IH]; intros s Hm; simpl in Hm.
  - injection Hm as <-. split; [intros i Hi; lia | reflexivity].
  - destruct s as [|c s]; [discriminate|].
    destruct (p c) eqn:Hc; [|discriminate].
    destruct (IH s Hm) as [IH1 IH2]. split.
    + intros [|i] Hi; simpl; [now exists c | apply IH1; lia].
    + intros i. simpl. apply IH2.
Qed.

Lemma match_atom_get (a : atom) (s rest : string) :
  match_atom a s = Some rest ->
  (forall i, i < atom_width a ->
     exists c, String.get i s = Some c /\ accepts a c = true)
  /\ (forall i, String.get (atom_width a + i) s = String.get i rest).
Proof.
  destruct a as [p n|x]; simpl.
  - apply match_class_get.
  - destruct s as [|c s]; [discriminate|].
    destruct (Ascii.eqb c x) eqn:E; [|discriminate].
    intros Hm; injection Hm as <-. split.
    + intros [|i] Hi; [|lia]. simpl. now exists c.
    + reflexivity.
Qed.

Lemma re_match_get (re : list atom) (s : string) (i : nat) :
  re_match re s = true -> i < width re ->
  exists c, String.get i s = Some c
            /\ existsb (fun a => accepts a c) re = true.
Proof.
  revert s i; induction re as [|a re IH]; intros s i Hm Hi; simpl in *;
    [lia|].
  destruct (match_atom a s) as [rest|] eqn:Ha; [|discriminate].
  destruct (match_atom_get _ _ Ha) as [H1 H2].
  destruct (Nat.lt_ge_cases i (atom_width a)) as [Hlt|Hge].
  - destruct (H1 i Hlt) as [c [Hc Hacc]]. exists c. now rewrite Hacc.
  - replace i with (atom_width a + (i - atom_width a)) by lia.
    rewrite H2. destruct (IH rest (i - atom_width a) Hm) as [c [Hc Hacc]];
      [lia|].
    exists c. rewrite Hacc, orb_true_r. now split.
Qed.

Lemma re_match_app (re : list atom) (s extra : string) :
  re_match re s = true -> re_match re (s ++ extra) = true.
Proof.
  revert s; induction re as [|a re IH]; intros s Hm; simpl in *;
    [reflexivity|].
  destruct (match_atom a s) as [rest|] eqn:Ha; [|discriminate].
  assert (Hx : match_atom a (s ++ extra) = Some (rest ++ extra)).
  { destruct a as [p n|x]; simpl in *.
    - clear -Ha. revert s Ha; induction n as [|n IHn]; intros s Ha;
        simpl in *.
      + now injection Ha as <-.
      + destruct s as [|c s]; [discriminate|]. simpl.
        destruct (p c); [now apply IHn | discriminate].
    - destruct s as [|c s]; [discriminate|]. simpl.
      destruct (Ascii.eqb c x); [now injection Ha as <- | discriminate]. }
  rewrite Hx. now apply IH.
Qed.

Lemma re_match_group (n : nat) (re : list atom) (h rest : string) :
  hex_group n h ->
  re_match (Class hex_lower n :: re) (h ++ rest) = re_match re rest.
Proof.
  intros Hg. cbn [re_match match_atom].
  now rewrite (match_class_group _ Hg).
Qed.

Lemma re_match_lit (c : ascii) (re : list atom) (rest : string) :
  re_match (Lit c :: re) (String c rest) = re_match re rest.
Proof. cbn [re_match match_atom]. now rewrite Ascii.eqb_refl. Qed.

(** The 8-4-4-4-12 form matches the pattern. *)
Lemma uuid_form_matches (h1 h2 h3 h4 h5 : string) :
  hex_group 8 h1 -> hex_group 4 h2 -> hex_group 4 h3 ->
  hex_group 4 h4 -> hex_group 12 h5 ->
  re_match uuid_regex (h1 ++ "-" ++ h2 ++ "-" ++ h3 ++ "-" ++ h4 ++ "-" ++ h5)
  = true.
Proof.
  intros G1 G2 G3 G4 G5. unfold uuid_regex.
  change ("-" ++ ?x) with (String dash x).
  rewrite (re_match_group _ _ G1), re_match_lit.
  change ("-" ++ ?x) with (String dash x).
  rewrite (re_match_group _ _ G2), re_match_lit.
  change ("-" ++ ?x) with (String dash x).
  rewrite (re_match_group _ _ G3), re_match_lit.
  change ("-" ++ ?x) with (String dash x).
  rewrite (re_match_group _ _ G4), re_match_lit.
  rewrite <- (append_nil_r h5), (re_match_group _ _ G5). reflexivity.
Qed.

Lemma uuid_form_length (h1 h2 h3 h4 h5 : string) :
  hex_group 8 h1 -> hex_group 4 h2 -> hex_group 4 h3 ->
  hex_group 4 h4 -> hex_group 12 h5 ->
  String.length (h1 ++ "-" ++ h2 ++ "-" ++ h3 ++ "-" ++ h4 ++ "-" ++ h5) = 36.
Proof.
  intros [L1 _] [L2 _] [L3 _] [L4 _] [L5 _].
  rewrite !length_append. simpl. lia.
Qed.

Lemma has_char_app (c : ascii) (a b : string) :
  has_char c (a ++ b) = has_char c a || has_char c b.
Proof.
  induction a as [|x a IH]; simpl; [reflexivity|].
  now rewrite IH, orb_assoc.
Qed.

Lemma all_chars_has_char (p : ascii -> bool) (c : ascii) (s : string) :
  all_chars p s = true -> p c = false -> has_char c s = false.
Proof.
  intros Hs Hc. induction s as [|x s IH]; simpl in *; [reflexivity|].
  apply andb_true_iff in Hs as [Hx Hs]. rewrite (IH Hs), orb_false_r.
  destruct (Ascii.eqb x c) eqn:E; [|reflexivity].
  apply Ascii.eqb_eq in E; subst x. congruence.
Qed.

Lemma uuid_form_no_at (h1 h2 h3 h4 h5 : string) :
  hex_group 8 h1 -> hex_group 4 h2 -> hex_group 4 h3 ->
  hex_group 4 h4 -> hex_group 12 h5 ->
  has_char "@"%char (h1 ++ "-" ++ h2 ++ "-" ++ h3 ++ "-" ++ h4 ++ "-" ++ h5)
  = false.
Proof.
  intros [_ A1] [_ A2] [_ A3] [_ A4] [_ A5].
  rewrite !has_char_app.
  rewrite (all_chars_has_char _ _ _ A1 (eq_refl : hex_lower "@" = false)).
  rewrite (all_chars_has_char _ _ _ A2 (eq_refl : hex_lower "@" = false)).
  rewrite (all_chars_has_char _ _ _ A3 (eq_refl : hex_lower "@" = false)).
  rewrite (all_chars_has_char _ _ _ A4 (eq_refl : hex_lower "@" = false)).
  rewrite (all_chars_has_char _ _ _ A5 (eq_refl : hex_lower "@" = false)).
  reflexivity.
Qed.

(** An upper-case hexadecimal letter is let through by no atom of the
    UUID pattern. *)
Lemma upper_not_accepted (c : ascii) :
  hex_upper_letter c = true ->
  existsb (fun a => accepts a c) uuid_regex = false.
Proof.
  intros Hc.
  assert (Hhex : hex_lower c = false).
  { unfold hex_upper_letter, hex_lower in *.
    destruct (nat_of_ascii c) as [|n] eqn:E; [discriminate|].
    apply andb_true_iff in Hc as [H1 H2].
    apply Nat.leb_le in H1, H2.
    apply orb_false_iff; split; apply andb_false_iff.
    - left. apply Nat.leb_gt. lia.
    - right. apply Nat.leb_gt. lia. }
  assert (Hdash : Ascii.eqb c dash = false).
  { destruct (Ascii.eqb c dash) eqn:E; [|reflexivity].
    apply Ascii.eqb_eq in E; subst c. discriminate. }
  simpl. now rewrite Hhex, Hdash.
Qed.

Lemma upper_in_first_36_no_match (dsid : string) (i : nat) (c : ascii) :
  i < 36 -> String.get i dsid = Some c -> hex_upper_letter c = true ->
  re_match uuid_regex dsid = false.
Proof.
  intros Hi Hget Hc.
  destruct (re_match uuid_regex dsid) eqn:Hm; [|reflexivity].
  destruct (re_match_get uuid_regex dsid Hm (i := i)) as [c' [Hc' Hacc]];
    [exact Hi|].
  rewrite Hget in Hc'. injection Hc' as <-.
  rewrite (upper_not_accepted _ Hc) in Hacc. discriminate.
Qed.

End ReFacts.

(* ===================================================================== *)
(** ** The decoder: RIA specifications *)
(* ===================================================================== *)

Unset Implicit Arguments.

Section DecoderFacts.

Context {N : Network}.
Import PyStr PyStrFacts Re ReFacts.

Lemma ria_dsid_version_app (dsid : string) (ver : option string) :
  has_char at_sign dsid = false ->
  ria_dsid_version
    (dsid ++ match ver with Some v => "@" ++ v | None => EmptyString end)
  = (dsid, ver).
Proof.
  intros Hd. unfold ria_dsid_version. destruct ver as [v|].
  - change ("@" ++ v) with (String at_sign v).
    now rewrite split_first_app.
  - rewrite append_nil_r, split_first_none; auto.
Qed.

Lemma ria_dsid_before_first (frag : string) :
  fst (ria_dsid_version frag) = before_first at_sign frag.
Proof.
  unfold ria_dsid_version, before_first.
  now destruct (split_first at_sign frag) as [[? ?]|].
Qed.

Lemma ria_git_url_path (u : URL_fields) (trace : string) :
  ria_git_url u trace =
  mkURL (drop 4 (scheme u)) (username u) (password u) (hostname u) (port u)
        (path u
         ++ (if String.eqb (path u) EmptyString || endswith "/" (path u)
             then EmptyString else "/")
         ++ trace)
        (query u) EmptyString.
Proof. unfold ria_git_url. destruct (path u); reflexivity. Qed.

(** What [decode_source_spec] does with a URL whose scheme starts with
    [ria+]. *)
Lemma decode_ria (spec : string) (u : URL_fields) :
  RI_of (rewrite_url spec) = URL u ->
  startswith "ria+" (scheme u) = true ->
  decode_source_spec spec =
  match ria_trace_destpath (fst (ria_dsid_version (fragment u))) with
  | Some (trace, dest) =>
      Ok (mkProps spec (snd (ria_dsid_version (fragment u))) type_ria
                  (URL_str (ria_git_url u trace)) dest)
  | None => Err (ValueError (ria_error_msg (rewrite_url spec)))
  end.
Proof.
  intros Hri Hs. unfold decode_source_spec. rewrite Hri, Hs.
  destruct (ria_dsid_version (fragment u)) as [dsid ver]. simpl.
  now destruct (ria_trace_destpath dsid) as [[? ?]|].
Qed.

Lemma decode_ria_uuid (spec : string) (u : URL_fields) (dsid : string)
  (ver : option string) :
  RI_of (rewrite_url spec) = URL u ->
  startswith "ria+" (scheme u) = true ->
  has_char at_sign dsid = false ->
  fragment u
  = dsid ++ match ver with Some v => "@" ++ v | None => EmptyString end ->
  re_match uuid_regex dsid = true ->
  decode_source_spec spec =
  Ok (mkProps spec ver type_ria
        (URL_str
           (mkURL (drop 4 (scheme u)) (username u) (password u) (hostname u)
                  (port u)
                  (path u
                   ++ (if String.eqb (path u) EmptyString
                          || endswith "/" (path u)
                       then EmptyString else "/")
                   ++ take 3 dsid ++ "/" ++ drop 3 dsid)
                  (query u) EmptyString))
        dsid).
Proof.
  intros Hri Hs Hat Hfrag Hm.
  rewrite (decode_ria spec u Hri Hs), Hfrag, (ria_dsid_version_app dsid ver Hat).
  simpl fst; simpl snd. unfold ria_trace_destpath. rewrite Hm.
  now rewrite ria_git_url_path.
Qed.

(** C5. Decoding a [ria+] specification whose dataset ID matches the
    UUID pattern gives the trace [dsid[:3] + '/' + dsid[3:]], the dataset
    ID as default destination path and what follows the ['@'] of the
    fragment as version (none without ['@']); the fetch URL is the
    URL without fragment, with [ria+] cut off the scheme and the trace
    appended to its path, a ['/'] in between exactly when the path is
    not empty and does not end in one.  The fragment
    [76b6ca66-36b1-11ea-a2e6-f0d5bf7b5561@v1] gives trace
    [76b/6ca66-36b1-11ea-a2e6-f0d5bf7b5561], that UUID as destination
    path and version [v1]. *)
Theorem C5_ria_uuid_decoding (spec : string) (u : URL_fields) :
  RI_of (rewrite_url spec) = URL u ->
  startswith "ria+" (scheme u) = true ->
  let sep := if String.eqb (path u) EmptyString || endswith "/" (path u)
             then EmptyString else "/" in
  let fetch_url (trace : string) :=
    URL_str (mkURL (drop 4 (scheme u)) (username u) (password u)
                   (hostname u) (port u) (path u ++ sep ++ trace)
                   (query u) EmptyString) in
  (forall (dsid : string) (ver : option string),
      has_char at_sign dsid = false ->
      fragment u
      = dsid ++ match ver with Some v => "@" ++ v | None => EmptyString end ->
      re_match uuid_regex dsid = true ->
      decode_source_spec spec =
      Ok (mkProps spec ver type_ria
                  (fetch_url (take 3 dsid ++ "/" ++ drop 3 dsid)) dsid))
  /\ (fragment u = "76b6ca66-36b1-11ea-a2e6-f0d5bf7b5561@v1" ->
      decode_source_spec spec =
      Ok (mkProps spec (Some "v1") type_ria
                  (fetch_url "76b/6ca66-36b1-11ea-a2e6-f0d5bf7b5561")
                  "76b6ca66-36b1-11ea-a2e6-f0d5bf7b5561")).
Proof.
  intros Hri Hs sep fetch_url. split.
  - intros dsid ver Hat Hfrag Hm. subst sep fetch_url.
    exact (decode_ria_uuid spec u dsid ver Hri Hs Hat Hfrag Hm).
  - intros Hfrag. subst sep fetch_url.
    exact (decode_ria_uuid spec u "76b6ca66-36b1-11ea-a2e6-f0d5bf7b5561"
             (Some "v1") Hri Hs eq_refl Hfrag eq_refl).
Qed.

(** C10. The UUID test is a prefix match over lower-case hexadecimal
    digits: a dataset ID that starts with the 36 characters of the
    8-4-4-4-12 form and goes on with further characters (no ['@'] among
    them) is decoded as a UUID, and the further characters end up in the
    trace and in the default destination path; a dataset ID with an
    upper-case hexadecimal letter among its first 36 characters does not
    match and is refused, unless it starts with ['~']. *)
Theorem C10_uuid_prefix_match (spec : string) (u : URL_fields) :
  RI_of (rewrite_url spec) = URL u ->
  startswith "ria+" (scheme u) = true ->
  let sep := if String.eqb (path u) EmptyString || endswith "/" (path u)
             then EmptyString else "/" in
  let fetch_url (trace : string) :=
    URL_str (mkURL (drop 4 (scheme u)) (username u) (password u)
                   (hostname u) (port u) (path u ++ sep ++ trace)
                   (query u) EmptyString) in
  (forall (h1 h2 h3 h4 h5 extra : string) (ver : option string),
      hex_group 8 h1 -> hex_group 4 h2 -> hex_group 4 h3 ->
      hex_group 4 h4 -> hex_group 12 h5 ->
      has_char at_sign extra = false ->
      let uuid := h1 ++ "-" ++ h2 ++ "-" ++ h3 ++ "-" ++ h4 ++ "-" ++ h5 in
      fragment u
      = (uuid ++ extra)
        ++ match ver with Some v => "@" ++ v | None => EmptyString end ->
      decode_source_spec spec =
      Ok (mkProps spec ver type_ria
                  (fetch_url (take 3 uuid ++ "/" ++ drop 3 uuid ++ extra))
                  (uuid ++ extra)))
  /\ (forall (i : nat) (c : ascii),
         let dsid := before_first at_sign (fragment u) in
         i < 36 -> String.get i dsid = Some c ->
         hex_upper_letter c = true ->
         re_match uuid_regex dsid = false
         /\ (startswith "~" dsid = false ->
             decode_source_spec spec
             = Err (ValueError (ria_error_msg (rewrite_url spec))))
         /\ (startswith "~" dsid = true ->
             decode_source_spec spec
             = Ok (mkProps spec (snd (ria_dsid_version (fragment u)))
                           type_ria (fetch_url ("alias/" ++ drop 1 dsid))
                           (drop 1 dsid)))).
Proof.
  intros Hri Hs sep fetch_url. split.
  - intros h1 h2 h3 h4 h5 extra ver G1 G2 G3 G4 G5 Hex uuid Hfrag.
    pose proof (uuid_form_matches G1 G2 G3 G4 G5) as Hm.
    pose proof (uuid_form_length G1 G2 G3 G4 G5) as Hlen.
    pose proof (uuid_form_no_at G1 G2 G3 G4 G5) as Hat.
    fold uuid in Hm, Hlen, Hat.
    assert (Hat' : has_char at_sign (uuid ++ extra) = false).
    { rewrite has_char_app. unfold at_sign in *. now rewrite Hat, Hex. }
    rewrite (decode_ria_uuid spec u (uuid ++ extra) ver Hri Hs Hat' Hfrag
               (re_match_app _ _ extra Hm)).
    subst sep fetch_url. cbv beta.
    rewrite (take_app_le (n := 3) uuid extra) by lia.
    rewrite (drop_app_le (n := 3) uuid extra) by lia.
    reflexivity.
  - intros i c dsid Hi Hget Hc.
    pose proof (upper_in_first_36_no_match dsid Hi Hget Hc) as Hno.
    split; [exact Hno|].
    rewrite (decode_ria spec u Hri Hs), ria_dsid_before_first. fold dsid.
    unfold ria_trace_destpath. rewrite Hno.
    split; intros Ht; rewrite Ht; [reflexivity|].
    subst sep fetch_url. cbv beta. now rewrite ria_git_url_path.
Qed.

End DecoderFacts.

(* ===================================================================== *)
(** ** Traces of composed computations *)
(* ===================================================================== *)

Section MonadFacts.

Context {World : Type}.

Lemma yields_app (a b : list event) :
  yields (a ++ b) = (yields a ++ yields b)%list.
Proof. apply flat_map_app. Qed.

Lemma clone_attempts_app (a b : list event) :
  clone_attempts (a ++ b) = (clone_attempts a ++ clone_attempts b)%list.
Proof. apply flat_map_app. Qed.

Lemma clone_outcomes_app (a b : list event) :
  clone_outcomes (a ++ b) = (clone_outcomes a ++ clone_outcomes b)%list.
Proof. apply flat_map_app. Qed.

Lemma clone_failures_app (a b : list event) :
  clone_failures (a ++ b) = (clone_failures a ++ clone_failures b)%list.
Proof. apply flat_map_app. Qed.

Lemma registrations_app (a b : list event) :
  registrations (a ++ b) = (registrations a ++ registrations b)%list.
Proof. apply flat_map_app. Qed.

(** The trace of [m] followed by [f] starts with the trace of [m]. *)
Lemma bind_trace {A B} (m : M World A) (f : A -> M World B) (w : World) :
  trace (bind m f w) =
  (trace (m w) ++ match out (m w) with
                  | Returned a => trace (f a (final (m w)))
                  | _ => []
                  end)%list.
Proof.
  unfold bind. destruct (out (m w)); simpl; auto using app_nil_r.
Qed.


Lemma bind_run {A B} (m : M World A) (f : A -> M World B) (w : World)
  (a : A) :
  out (m w) = Returned a ->
  bind m f w =
  mkRun (trace (m w) ++ trace (f a (final (m w))))%list
        (final (f a (final (m w)))) (out (f a (final (m w)))).
Proof. unfold bind. now intros ->. Qed.

Lemma when_act_run (b : bool) (e : event) (f : World -> World) (w : World) :
  when b (act e f) w =
  mkRun (if b then [e] else []) (if b then f w else w) (Returned tt).
Proof. now destruct b. Qed.

(** A property of traces that holds of the empty trace and is kept by
    concatenation holds of a composed computation when it holds of its
    parts. *)
Section Closed.

Variable P : list event -> Prop.
Hypothesis P_nil : P [].
Hypothesis P_app : forall a b, P a -> P b -> P (a ++ b)%list.

Lemma closed_ret {A} (a : A) (w : World) : P (trace (ret a w)).
Proof. exact P_nil. Qed.

Lemma closed_raise {A} (e : exn) (w : World) :
  P (trace (raise (A := A) e w)).
Proof. exact P_nil. Qed.

Lemma closed_out_of_fuel {A} (w : World) :
  P (trace (out_of_fuel (A := A) w)).
Proof. exact P_nil. Qed.

Lemma closed_observe {A} (f : World -> A) (w : World) :
  P (trace (observe f w)).
Proof. exact P_nil. Qed.

Lemma closed_bind {A B} (m : M World A) (f : A -> M World B) :
  (forall w, P (trace (m w))) ->
  (forall a w, P (trace (f a w))) ->
  forall w, P (trace (bind m f w)).
Proof.
  intros Hm Hf w. rewrite bind_trace. apply P_app; [apply Hm|].
  destruct (out (m w)); auto.
Qed.

Lemma closed_when (b : bool) (m : M World unit) :
  (forall w, P (trace (m w))) -> forall w, P (trace (when b m w)).
Proof. intros Hm w. destruct b; [apply Hm | exact P_nil]. Qed.

Lemma closed_emit (e : event) :
  P [e] -> forall w : World, P (trace (emit e w)).
Proof. intros He w. exact He. Qed.

Lemma closed_act (e : event) (f : World -> World) :
  P [e] -> forall w, P (trace (act e f w)).
Proof. intros He w. exact He. Qed.

Lemma closed_call {A} (f : World -> World * A) (e : A -> event) :
  (forall a, P [e a]) -> forall w, P (trace (call f e w)).
Proof.
  intros He w. unfold call. destruct (f w) as [w' a]. apply He.
Qed.

Lemma closed_yield_all (rs : list status_dict) :
  (forall r, P [EvYield r]) ->
  forall w : World, P (trace (yield_all rs w)).
Proof.
  intros Hy. induction rs as [|r rs IH]; intros w; simpl.
  - exact P_nil.
  - change (P ([EvYield r] ++ trace (yield_all rs w))%list).
    apply P_app; [apply Hy | apply IH].
Qed.

End Closed.

End MonadFacts.

(** Proving such a property of a computation, part by part. *)
Ltac closed_step Pnil Papp single :=
  match goal with
  | |- forall _, _ => intro
  | |- ?P (trace (bind _ _ _)) => apply (closed_bind P Pnil Papp)
  | |- ?P (trace (when _ _ _)) => apply (closed_when P Pnil)
  | |- ?P (trace (ret _ _)) => apply Pnil
  | |- ?P (trace (raise _ _)) => apply Pnil
  | |- ?P (trace (out_of_fuel _)) => apply Pnil
  | |- ?P (trace (observe _ _)) => apply Pnil
  | |- ?P (trace (emit _ _)) => single
  | |- ?P (trace (act _ _ _)) => single
  | |- ?P (trace (call _ _ _)) => apply (closed_call P); intro; single
  | |- ?P (trace (yield_all _ _)) =>
      apply (closed_yield_all P Pnil Papp); intro; single
  | |- ?P (trace ((if ?b then _ else _) _)) => destruct b
  | |- ?P (trace (match ?x with _ => _ end _)) => destruct x
  end.

Ltac closed_tac Pnil Papp single :=
  unfold log, log_progress, do_config_set, do_call_git,
    do_siblings_configure, yield;
  repeat closed_step Pnil Papp single.

(* ===================================================================== *)
(** ** Only the attempt loop transfers anything *)
(* ===================================================================== *)

Section NoTransfer.

Context {N : Network} {H : Helpers} {World : Type} {C : Collaborators World}.

Lemma no_transfer_nil : no_transfer [].
Proof. constructor. Qed.

Lemma no_transfer_app (a b : list event) :
  no_transfer a -> no_transfer b -> no_transfer (a ++ b)%list.
Proof. intros Ha Hb. apply Forall_app. now split. Qed.

Lemma no_transfer_attempts (t : list event) :
  no_transfer t ->
  clone_attempts t = [] /\ clone_outcomes t = [] /\ clone_failures t = [].
Proof.
  unfold no_transfer. induction 1 as [|e t He Ht IH]; [now repeat split|].
  destruct IH as (IH1 & IH2 & IH3).
  destruct e; try contradiction; simpl; now repeat split.
Qed.

Ltac nt := closed_tac no_transfer_nil no_transfer_app
                      ltac:(unfold no_transfer; repeat constructor).

Lemma no_transfer_check_head (d : Dataset) (w : World) :
  no_transfer (trace (postclone_check_head d w)).
Proof. unfold postclone_check_head. nt. Qed.

Lemma no_transfer_configure_origins (fuel : nat) :
  forall (cfgds probeds : Dataset) (label : option nat) (w : World),
    no_transfer (trace (configure_origins fuel cfgds probeds label w)).
Proof.
  induction fuel as [|fuel IH]; intros cfgds probeds label w; simpl.
  - apply no_transfer_nil.
  - nt. apply IH.
Qed.

Lemma no_transfer_special_remotes (d : Dataset)
  (items : list (string * special_remote)) :
  forall (srs_t srs_f : list string) (w : World),
    no_transfer (trace (special_remotes_loop d items srs_t srs_f w)).
Proof.
  induction items as [|[uuid config] items IH]; intros srs_t srs_f w;
    simpl.
  - apply no_transfer_nil.
  - nt; apply IH.
Qed.

Lemma no_transfer_annexdataset (fuel : nat) (d : Dataset)
  (reckless description : option string) (w : World) :
  no_transfer (trace (postclonecfg_annexdataset fuel d reckless description w)).
Proof.
  unfold postclonecfg_annexdataset, reckless_setup, annex_report,
    ephemeral_symlink. nt;
    solve [apply no_transfer_special_remotes
          | apply no_transfer_configure_origins].
Qed.

Lemma no_transfer_ria (d : Dataset) (p : props) (w : World) :
  no_transfer (trace (postclonecfg_ria d p w)).
Proof.
  unfold postclonecfg_ria, ria_config_content, ria_enable. nt.
Qed.

Lemma no_transfer_finish_clone (fuel : nat) (destds : Dataset)
  (reckless description : option string) (rp : result_props) (w : World) :
  no_transfer (trace (finish_clone fuel destds reckless description rp w)).
Proof.
  unfold finish_clone. nt;
    solve [apply no_transfer_annexdataset | apply no_transfer_ria].
Qed.

Lemma no_transfer_after_loop (fuel : nat) (destds : Dataset)
  (reckless description : option string) (rp : result_props)
  (error_msgs : OrderedDict.t CommandError) (cand winner : option props)
  (w : World) :
  no_transfer (trace (after_loop fuel destds reckless description rp
                                 error_msgs cand winner w)).
Proof.
  unfold after_loop. nt;
    solve [apply no_transfer_check_head | apply no_transfer_finish_clone].
Qed.

End NoTransfer.

(* ===================================================================== *)
(** ** The attempt loop *)
(* ===================================================================== *)

Section AttemptLoop.

Context {N : Network} {H : Helpers} {World : Type} {C : Collaborators World}.

Variable destds : Dataset.
Variable dest_path_existed : bool.
Variable rp : result_props.

#[local] Abbreviation loop := (attempt_loop destds dest_path_existed rp).

#[local] Arguments cleanup_events : simpl never.

#[local] Abbreviation worktree_record e :=
  (get_status_dict error (Some (worktree_message (ce_stderr e))) rp).

(** One turn of the loop. *)
Lemma attempt_loop_cons (cand : props) (rest : list props)
  (errs : OrderedDict.t CommandError) (last : option props) (w : World) :
  loop (cand :: rest) errs last w =
  let wf := GitRepo_clone w destds (giturl cand) (clone_branch cand) in
  let progress :=
    EvProgress "Attempting to clone from %s to %s" [giturl cand; destds] in
  match snd wf with
  | None =>
      mkRun [progress; EvClone destds (giturl cand) (clone_branch cand) None]
            (fst wf) (Returned (Finished errs (Some cand) (Some cand)))
  | Some e =>
      let there := path_exists (fst wf) destds in
      let w2 := if there then rmtree (fst wf) destds dest_path_existed
                else fst wf in
      let head :=
        progress
        :: EvClone destds (giturl cand) (clone_branch cand) (Some e)
        :: cleanup_events destds dest_path_existed cand e there in
      if worktree_failure (ce_stderr e) then
        mkRun (head ++ [EvProgress "Completed clone attempts for %s" [destds];
                        EvYield (worktree_record e)])%list
              w2 (Returned Aborted)
      else
        let r' := loop rest (OrderedDict.set errs (giturl cand) e)
                       (Some cand) w2 in
        mkRun (head ++ trace r')%list (final r') (out r')
  end.
Proof.
  cbn [attempt_loop].
  unfold bind, call, log_progress, log, emit, observe, when, act, yield, ret.
  cbn [trace final out].
  destruct (GitRepo_clone w destds (giturl cand) (clone_branch cand))
    as [w1 [e|]]; cbn [fst snd trace final out]; [|reflexivity].
  unfold cleanup_events.
  destruct (path_exists w1 destds); cbn [trace final out];
    destruct (worktree_failure (ce_stderr e)); cbn [trace final out app];
    reflexivity.
Qed.

Lemma cleanup_events_quiet (cand : props) (e : CommandError) (b : bool) :
  clone_attempts (cleanup_events destds dest_path_existed cand e b) = []
  /\ clone_outcomes (cleanup_events destds dest_path_existed cand e b) = []
  /\ clone_failures (cleanup_events destds dest_path_existed cand e b) = []
  /\ yields (cleanup_events destds dest_path_existed cand e b) = [].
Proof. destruct b; now repeat split. Qed.

Lemma set_all_cons (d : OrderedDict.t CommandError) (k : string)
  (v : CommandError) (l : list (string * CommandError)) :
  OrderedDict.set_all d ((k, v) :: l)
  = OrderedDict.set_all (OrderedDict.set d k v) l.
Proof. reflexivity. Qed.

(** What the loop does, by how it is left. *)
Lemma attempt_loop_spec (cands : list props) :
  forall (errs : OrderedDict.t CommandError) (last : option props)
         (w : World),
    let r := loop cands errs last w in
    exists (k : nat) (fs : list CommandError),
      k <= length cands
      /\ clone_attempts (trace r) = map attempt_of (firstn k cands)
      /\ Forall (fun e => worktree_failure (ce_stderr e) = false) fs
      /\ ((exists e,
              out r = Returned Aborted
              /\ worktree_failure (ce_stderr e) = true
              /\ clone_outcomes (trace r) = (map Some fs ++ [Some e])%list
              /\ yields (trace r) = [worktree_record e]
              /\ exists t, trace r = (t ++ [EvYield (worktree_record e)])%list)
          \/ (exists c,
                 out r = Returned
                           (Finished (OrderedDict.set_all errs
                                        (clone_failures (trace r)))
                                     (Some c) (Some c))
                 /\ clone_outcomes (trace r) = (map Some fs ++ [None])%list
                 /\ yields (trace r) = []
                 /\ 0 < k /\ nth_error cands (k - 1) = Some c
                 /\ (clone_installs -> is_installed (final r) destds = true))
          \/ (exists cand',
                 out r = Returned
                           (Finished (OrderedDict.set_all errs
                                        (clone_failures (trace r)))
                                     cand' None)
                 /\ clone_outcomes (trace r) = map Some fs
                 /\ yields (trace r) = []
                 /\ k = length cands
                 /\ map fst (clone_failures (trace r)) = map giturl cands
                 /\ (cands = [] -> cand' = last /\ final r = w)
                 /\ (cands <> [] ->
                     (exists c, cand' = Some c)
                     /\ (wiped_not_installed ->
                         is_installed (final r) destds = false)))).
Proof.
  unfold clone_attempts, clone_outcomes, clone_failures, yields.
  induction cands as [|cand rest IH]; intros errs last w.
  - exists 0, []. cbn. repeat split; auto.
    right; right. exists last. repeat split; auto; intros; congruence.
  - rewrite attempt_loop_cons. cbv zeta.
    destruct (GitRepo_clone w destds (giturl cand) (clone_branch cand))
      as [w1 [e|]] eqn:Hclone; cbn [fst snd].
    + (* the transfer failed *)
      pose proof (cleanup_events_quiet cand e (path_exists w1 destds))
        as (Q1 & Q2 & Q3 & Q4).
      unfold clone_attempts, clone_outcomes, clone_failures, yields in Q1, Q2, Q3, Q4.
      set (w2 := if path_exists w1 destds
                 then rmtree w1 destds dest_path_existed else w1).
      assert (Hw2 : wiped_not_installed -> is_installed w2 destds = false).
      { intros [Habs Hrm]. subst w2.
        destruct (path_exists w1 destds) eqn:E; [apply Hrm | now apply Habs]. }
      destruct (worktree_failure (ce_stderr e)) eqn:Hwt; cbn [trace final out].
      * exists 1, []. repeat split; [cbn; lia | | constructor |].
        -- rewrite flat_map_app. cbn. now rewrite Q1.
        -- left. exists e. repeat split; auto.
           ++ rewrite flat_map_app. cbn. now rewrite Q2.
           ++ rewrite flat_map_app. cbn. now rewrite Q4.
           ++ eexists (_ :: _ :: (_ ++ [_]))%list. cbn.
              rewrite <- app_assoc. reflexivity.
      * destruct (IH (OrderedDict.set errs (giturl cand) e) (Some cand) w2)
          as (k & fs & Hk & Hatt & Hfs & Hcases).
        exists (S k), (e :: fs). repeat split; [cbn; lia | | now constructor |].
        -- cbn. rewrite flat_map_app, Q1, Hatt. reflexivity.
        -- assert (Hfail : forall t,
                      clone_failures
                        ((EvProgress "Attempting to clone from %s to %s"
                                     [giturl cand; destds]
                          :: EvClone destds (giturl cand) (clone_branch cand)
                                     (Some e)
                          :: cleanup_events destds dest_path_existed cand e
                               (path_exists w1 destds)) ++ t)%list
                      = (giturl cand, e) :: clone_failures t).
           { intros t. unfold clone_failures. cbn. now rewrite flat_map_app, Q3. }
           assert (Hout : forall t,
                      clone_outcomes
                        ((EvProgress "Attempting to clone from %s to %s"
                                     [giturl cand; destds]
                          :: EvClone destds (giturl cand) (clone_branch cand)
                                     (Some e)
                          :: cleanup_events destds dest_path_existed cand e
                               (path_exists w1 destds)) ++ t)%list
                      = Some e :: clone_outcomes t).
           { intros t. unfold clone_outcomes. cbn. now rewrite flat_map_app, Q2. }
           assert (Hyld : forall t,
                      yields
                        ((EvProgress "Attempting to clone from %s to %s"
                                     [giturl cand; destds]
                          :: EvClone destds (giturl cand) (clone_branch cand)
                                     (Some e)
                          :: cleanup_events destds dest_path_existed cand e
                               (path_exists w1 destds)) ++ t)%list
                      = yields t).
           { intros t. unfold yields. cbn. now rewrite flat_map_app, Q4. }
           unfold clone_failures in Hfail. unfold clone_outcomes in Hout.
           unfold yields in Hyld.
           destruct Hcases as [(e' & Ho & Hwt' & Hoc & Hy & (t & Ht))
                              |[(c & Ho & Hoc & Hy & Hk0 & Hnth & Hinst)
                               |(cand' & Ho & Hoc & Hy & Hkl & Hurls & Hnil
                                 & Hcons)]].
           ++ left. exists e'. repeat split; auto.
              all: try (rewrite Hout, Hoc; reflexivity).
              all: try (now rewrite Hyld).
              rewrite Ht. eexists (_ :: _ :: (_ ++ t))%list. cbn.
              rewrite <- app_assoc. reflexivity.
           ++ right; left. exists c. repeat split; auto; try lia.
              all: try (rewrite Hfail, set_all_cons; exact Ho).
              all: try (rewrite Hout, Hoc; reflexivity).
              all: try (now rewrite Hyld).
              destruct k as [|k]; [lia|]. cbn in *.
              now rewrite Nat.sub_0_r in *.
           ++ right; right. exists cand'.
              assert (Hc' : exists c, cand' = Some c).
              { destruct rest as [|c' rest'].
                - destruct (Hnil eq_refl) as [-> _]. now exists cand.
                - apply Hcons. discriminate. }
              assert (Hni : wiped_not_installed ->
                            is_installed
                              (final (loop rest
                                        (OrderedDict.set errs (giturl cand) e)
                                        (Some cand) w2)) destds = false).
              { intros Hlaws. destruct rest as [|c' rest'].
                - destruct (Hnil eq_refl) as [_ ->]. now apply Hw2.
                - apply Hcons; [discriminate | exact Hlaws]. }
              repeat split; auto; try discriminate.
              all: try (rewrite Hfail, set_all_cons; exact Ho).
              all: try (rewrite Hout, Hoc; reflexivity).
              all: try (now rewrite Hyld).
              all: try (cbn; lia).
              rewrite Hfail. cbn. now rewrite Hurls.
    + (* the transfer succeeded *)
      exists 1, []. repeat split; [cbn; lia | constructor |].
      right; left. exists cand. cbn. repeat split; auto.
      intros Hlaw. exact (Hlaw _ _ _ _ _ Hclone).
Qed.

End AttemptLoop.

(* ===================================================================== *)
(** ** [clone_dataset] as a whole *)
(* ===================================================================== *)

Section CloneDatasetFacts.

Context {N : Network} {H : Helpers} {World : Type} {C : Collaborators World}.

Variable fuel : nat.
Variable srcs : list string.
Variable destds : Dataset.
Variables reckless description : option string.
Variable rprops : option result_props.

#[local] Abbreviation the_rp :=
  (match rprops with
   | Some rp => rp
   | None => default_result_props destds
   end).

#[local] Abbreviation the_run :=
  (clone_dataset fuel srcs destds reckless description rprops).

(** A specification that does not decode ends the run before anything
    else happens. *)
Lemma clone_dataset_undecodable (e : exn) (w : World) :
  decode_all srcs = Err e -> the_run w = mkRun [] w (Raised e).
Proof. intros He. unfold clone_dataset. now rewrite He. Qed.

Lemma decode_all_err (spec : string) (e : exn) (l : list string) :
  In spec l -> decode_source_spec spec = Err e ->
  exists e', decode_all l = Err e'.
Proof.
  induction l as [|s l IH]; intros Hin He; [contradiction|].
  simpl. destruct (decode_source_spec s) as [p|e1] eqn:Es; [|now exists e1].
  destruct Hin as [->|Hin]; [congruence|].
  destruct (IH Hin He) as [e' ->]. now exists e'.
Qed.

(** The run when the destination exists and is not empty. *)
Lemma clone_dataset_existing (decoded : list props) (w : World) :
  decode_all srcs = Ok decoded ->
  path_exists w destds = true -> path_nonempty w destds = true ->
  the_run w = existing_destination destds the_rp (expand_candidates decoded) w.
Proof.
  intros Hd He Hn. unfold clone_dataset. rewrite Hd.
  unfold bind at 1 2, observe. cbn [out final trace]. rewrite He, Hn.
  cbn [andb app].
  destruct (existing_destination destds the_rp (expand_candidates decoded) w)
    as [t w' [a|e|]]; reflexivity.
Qed.

(** The run when the destination can be cloned into: the loop, then
    what follows it. *)
Lemma clone_dataset_usable (decoded : list props) (w : World) :
  decode_all srcs = Ok decoded ->
  path_exists w destds && path_nonempty w destds = false ->
  let r1 := attempt_loop destds (path_exists w destds) the_rp
                         (expand_candidates decoded) [] None w in
  let start := EvProgress "Cloning dataset to %s" [destds] in
  the_run w =
  match out r1 with
  | Returned Aborted => mkRun (start :: trace r1) (final r1) (Returned tt)
  | Returned (Finished error_msgs cand winner) =>
      let r2 := after_loop fuel destds reckless description the_rp
                           error_msgs cand winner (final r1) in
      mkRun (start :: trace r1 ++ trace r2)%list (final r2) (out r2)
  | Raised e => mkRun (start :: trace r1) (final r1) (Raised e)
  | OutOfFuel => mkRun (start :: trace r1) (final r1) OutOfFuel
  end.
Proof.
  intros Hd Hu r1 start. unfold clone_dataset. rewrite Hd.
  unfold bind at 1 2, observe. cbn [out final trace]. rewrite Hu.
  cbn [app].
  unfold bind at 1, log_progress, emit. cbn [out final trace app].
  unfold bind. subst r1 start. cbv beta zeta. cbn [out final trace app].
  generalize (attempt_loop destds (path_exists w destds) the_rp
                           (expand_candidates decoded) [] None w).
  intros [t1 w1 [[|errs cand winner]|e|]]; cbn [trace final out app];
    try reflexivity.
  unfold ret. cbn [trace final out]. now rewrite app_nil_r.
Qed.

Lemma existing_destination_run (cands : list props) (w : World) :
  let track_url := snd (_get_tracking_source destds w) in
  existing_destination destds the_rp cands w =
  match (if is_installed w destds
         then find (fun cand => already_cloned_from track_url
                                  (Path_str track_url) (giturl cand)) cands
         else None) with
  | Some cand =>
      mkRun [EvYield (get_status_dict notneeded
                        (Some (MsgFmt "dataset %s was already cloned from '%s'"
                                      [ArgDataset destds; ArgStr (giturl cand)]))
                        the_rp)]
            w (Returned tt)
  | None =>
      mkRun [EvYield (get_status_dict error
                        (Some (Msg "target path already exists and not empty, refuse to clone into target path"))
                        the_rp)]
            w (Returned tt)
  end.
Proof.
  intros track_url. unfold existing_destination.
  unfold bind, observe, ret, yield, emit. cbn [out final trace].
  destruct (is_installed w destds); cbn [out final trace app].
  - fold track_url.
    destruct (find _ cands); reflexivity.
  - reflexivity.
Qed.

Lemma already_cloned_from_iff (track_url src : string) :
  already_cloned_from track_url (Path_str track_url) src = true <->
  (track_url = src
   \/ get_local_file_url track_url = src
   \/ Path_str track_url = Some (expanduser src)).
Proof.
  unfold already_cloned_from. rewrite !orb_true_iff, !String.eqb_eq.
  assert (Ho : opt_str_eqb (Path_str track_url) (Some (expanduser src)) = true
               <-> Path_str track_url = Some (expanduser src)).
  { destruct (Path_str track_url) as [p|]; simpl.
    - rewrite String.eqb_eq. split; congruence.
    - split; discriminate. }
  rewrite Ho. tauto.
Qed.

(** C1. A destination that exists and is not empty is never cloned
    into.  When it is an installed dataset whose tracked URL agrees with
    the fetch URL of a candidate (as it is, as [file://] URL, or as a path
    with the candidate's [~] expanded), the run yields one 'notneeded'
    record and nothing else happens; otherwise it yields one 'error'
    record ('target path already exists and not empty ...') and nothing
    else happens. *)
Theorem C1_existing_destination (decoded : list props) (w : World) :
  decode_all srcs = Ok decoded ->
  path_exists w destds = true ->
  path_nonempty w destds = true ->
  let cands := expand_candidates decoded in
  let track_url := snd (_get_tracking_source destds w) in
  let matches (c : props) :=
    track_url = giturl c
    \/ get_local_file_url track_url = giturl c
    \/ Path_str track_url = Some (expanduser (giturl c)) in
  let r := the_run w in
  out r = Returned tt /\ final r = w /\ clone_attempts (trace r) = []
  /\ (is_installed w destds = true ->
      (exists c, In c cands /\ matches c) ->
      exists c, In c cands /\ matches c
                /\ trace r =
                   [EvYield (get_status_dict notneeded
                               (Some (MsgFmt
                                        "dataset %s was already cloned from '%s'"
                                        [ArgDataset destds; ArgStr (giturl c)]))
                               the_rp)])
  /\ (is_installed w destds = false
      \/ (forall c, In c cands -> ~ matches c) ->
      trace r =
      [EvYield (get_status_dict error
                  (Some (Msg "target path already exists and not empty, refuse to clone into target path"))
                  the_rp)]).
Proof.
  intros Hd He Hn cands track_url matches r.
  subst r. rewrite (clone_dataset_existing decoded w Hd He Hn).
  rewrite existing_destination_run. fold cands track_url.
  set (test := fun cand => already_cloned_from track_url (Path_str track_url)
                             (giturl cand)).
  assert (Htest : forall c, test c = true <-> matches c).
  { intros c. apply already_cloned_from_iff. }
  destruct (is_installed w destds) eqn:Hinst.
  - destruct (find test cands) as [c|] eqn:Hfind; cbn [out final trace].
    + apply find_some in Hfind as [Hin Hc].
      repeat split; auto.
      * intros _ _. exists c. repeat split; auto. now apply Htest.
      * intros [Hf|Hnone]; [discriminate|].
        exfalso. apply (Hnone c Hin). now apply Htest.
    + repeat split; auto.
      intros _ (c & Hin & Hc). exfalso.
      apply Htest in Hc. pose proof (find_none _ _ Hfind c Hin). congruence.
  - cbn [out final trace]. repeat split; auto. discriminate.
Qed.

(** C9. Decoding a [ria+] specification fails, with the [ValueError]
    that the specification calls InvalidSourceSpec, exactly when the
    dataset ID of its fragment neither matches the UUID pattern nor starts
    with ['~'].  A run of [clone_dataset] over specifications of which one
    fails like this ends with the exception before anything is attempted:
    its trace is empty. *)
Theorem C9_invalid_ria_spec (spec : string) (u : URL_fields) :
  RI_of (rewrite_url spec) = URL u ->
  PyStr.startswith "ria+" (scheme u) = true ->
  let dsid := before_first at_sign (fragment u) in
  ((exists e, decode_source_spec spec = Err e)
   <-> (Re.re_match Re.uuid_regex dsid = false
        /\ PyStr.startswith "~" dsid = false))
  /\ (forall e, decode_source_spec spec = Err e ->
                e = ValueError (ria_error_msg (rewrite_url spec)))
  /\ ((exists e, decode_source_spec spec = Err e) ->
      In spec srcs ->
      forall w, exists e',
          the_run w = mkRun [] w (Raised e')
          /\ clone_attempts (trace (the_run w)) = []).
Proof.
  intros Hri Hs dsid.
  pose proof (decode_ria spec u Hri Hs) as Hdec.
  rewrite ria_dsid_before_first in Hdec. fold dsid in Hdec.
  unfold ria_trace_destpath in Hdec.
  split; [split | split].
  - intros [e He]. rewrite Hdec in He.
    destruct (Re.re_match Re.uuid_regex dsid); [discriminate|].
    now destruct (PyStr.startswith "~" dsid).
  - intros [Hm Ht]. rewrite Hdec, Hm, Ht. eauto.
  - intros e He. rewrite Hdec in He.
    destruct (Re.re_match Re.uuid_regex dsid); [discriminate|].
    destruct (PyStr.startswith "~" dsid); [discriminate|]. congruence.
  - intros [e He] Hin w.
    destruct (decode_all_err spec e srcs Hin He) as [e' He'].
    exists e'. now rewrite (clone_dataset_undecodable e' w He').
Qed.

End CloneDatasetFacts.

(* ===================================================================== *)
(** ** After the loop *)
(* ===================================================================== *)

Section AfterLoop.

Context {N : Network} {H : Helpers} {World : Type} {C : Collaborators World}.

(** What [postclone_check_head] does, by the state of the repository. *)
Lemma postclone_check_head_run (d : Dataset) (w : World) :
  postclone_check_head d w =
  if commit_exists w d "HEAD" then mkRun [] w (Returned tt)
  else
    match find (fun b => negb (skipped_branch b))
               (for_each_ref_ w d "refname:strip=2" "-committerdate"
                              "refs/remotes/origin") with
    | Some rbranch =>
        mkRun [EvCallGit d ["checkout"; "-b"; PyStr.drop 7 rbranch;
                            "--track"; rbranch];
               EvLog debug "Checked out local branch from %s" [rbranch]]
              (call_git w d ["checkout"; "-b"; PyStr.drop 7 rbranch;
                             "--track"; rbranch])
              (Returned tt)
    | None =>
        mkRun [EvLog warning
                     "Cloned %s but could not find a branch with commits" [d]]
              w (Returned tt)
    end.
Proof.
  unfold postclone_check_head, bind, observe, do_call_git, act, log, emit, ret.
  cbn [out final trace].
  destruct (commit_exists w d "HEAD"); cbn [negb out final trace app];
    [reflexivity|].
  destruct (find _ _); reflexivity.
Qed.

Lemma postclone_check_head_returns (d : Dataset) (w : World) :
  out (postclone_check_head d w) = Returned tt.
Proof.
  rewrite postclone_check_head_run.
  destruct (commit_exists w d "HEAD"); [reflexivity|].
  destruct (find _ _); reflexivity.
Qed.

Variable fuel : nat.
Variable destds : Dataset.
Variables reckless description : option string.

(** After the loop, with a destination that is not installed and errors
    collected: one error record. *)
Lemma after_loop_failed (rp : result_props)
  (error_msgs : OrderedDict.t CommandError) (cand winner : option props)
  (w : World) :
  is_installed w destds = false ->
  error_msgs <> [] ->
  after_loop fuel destds reckless description rp error_msgs cand winner w =
  mkRun [EvProgress "Completed clone attempts for %s" [destds];
         EvYield (get_status_dict error (Some (failed_message error_msgs))
                    (match winner with
                     | Some c => set_source rp c
                     | None => rp
                     end))]
        w (Returned tt).
Proof.
  intros Hinst Herr. unfold after_loop, bind, log_progress, emit, observe.
  cbn [out final trace]. rewrite Hinst. cbn [negb].
  destruct error_msgs as [|x l]; [congruence|]. reflexivity.
Qed.

(** After the loop, with an installed destination: the repair of HEAD
    when the candidate has no version, then the remaining steps. *)
Lemma after_loop_installed (rp : result_props)
  (error_msgs : OrderedDict.t CommandError) (c : props)
  (winner : option props) (w : World) :
  is_installed w destds = true ->
  let rp' := match winner with
             | Some c => set_source rp c
             | None => rp
             end in
  let r1 := when (negb (truthy_opt (version c)))
                 (postclone_check_head destds) w in
  let r2 := finish_clone fuel destds reckless description rp' (final r1) in
  after_loop fuel destds reckless description rp error_msgs (Some c) winner w =
  mkRun (EvProgress "Completed clone attempts for %s" [destds]
         :: trace r1 ++ trace r2)%list
        (final r2) (out r2).
Proof.
  intros Hinst rp' r1 r2. unfold after_loop.
  unfold bind at 1 2, log_progress, emit, observe.
  cbn [out final trace]. rewrite Hinst. cbn [negb app].
  unfold bind. fold rp'. fold r1.
  assert (Hr1 : out r1 = Returned tt).
  { subst r1. unfold when.
    destruct (negb (truthy_opt (version c)));
      [apply postclone_check_head_returns | reflexivity]. }
  rewrite Hr1. reflexivity.
Qed.



(** In the mode 'ephemeral' nothing comes before
    [postclonecfg_annexdataset] in the remaining steps. *)
Lemma finish_clone_ephemeral (rp : result_props) (w : World) :
  exists t,
    trace (finish_clone fuel destds (Some "ephemeral") description rp w)
    = (trace (postclonecfg_annexdataset fuel destds (Some "ephemeral")
                                        description w) ++ t)%list.
Proof.
  unfold finish_clone.
  change (PyStr.truthy "ephemeral" && PyStr.startswith "shared-" "ephemeral")
    with false.
  erewrite bind_run by reflexivity. cbn [when ret trace final out app].
  rewrite bind_trace. eexists. reflexivity.
Qed.

End AfterLoop.

(* ===================================================================== *)
(** ** Lists of outcomes *)
(* ===================================================================== *)

Section Outcomes.

Lemma attempts_outcomes_length (t : list event) :
  length (clone_attempts t) = length (clone_outcomes t).
Proof.
  induction t as [|e t IH]; [reflexivity|].
  destruct e; simpl; auto.
Qed.

Lemma outcome_split {A} (pre post l : list A) (x y : A) :
  (pre ++ x :: post = l ++ [y])%list ->
  (x = y /\ post = [] /\ pre = l) \/ In x l.
Proof.
  revert l; induction pre as [|p pre IH]; intros l Heq.
  - destruct l as [|a l]; simpl in Heq.
    + injection Heq as -> ->. now left.
    + injection Heq as -> _. right. now left.
  - destruct l as [|a l]; simpl in Heq.
    + injection Heq as _ Heq. now destruct pre.
    + injection Heq as -> Heq.
      destruct (IH l Heq) as [(-> & -> & ->)|Hin]; [now left|].
      right. now right.
Qed.



Lemma in_map_Some {A} (x : option A) (l : list A) :
  In x (map Some l) -> exists a, x = Some a /\ In a l.
Proof.
  intros Hin. apply in_map_iff in Hin as (a & <- & Ha). now exists a.
Qed.

End Outcomes.

(* ===================================================================== *)
(** ** The attempt engine *)
(* ===================================================================== *)

Section AttemptEngine.

Context {N : Network} {H : Helpers} {World : Type} {C : Collaborators World}.

Variable fuel : nat.
Variable srcs : list string.
Variable destds : Dataset.
Variables reckless description : option string.
Variable rprops : option result_props.

#[local] Abbreviation the_rp :=
  (match rprops with
   | Some rp => rp
   | None => default_result_props destds
   end).

#[local] Abbreviation the_run :=
  (clone_dataset fuel srcs destds reckless description rprops).

(** What the loop contributes to a run into a usable destination. *)
Lemma clone_dataset_loop (decoded : list props) (w : World) :
  decode_all srcs = Ok decoded ->
  path_exists w destds && path_nonempty w destds = false ->
  let r1 := attempt_loop destds (path_exists w destds) the_rp
                         (expand_candidates decoded) [] None w in
  clone_attempts (trace (the_run w)) = clone_attempts (trace r1)
  /\ clone_outcomes (trace (the_run w)) = clone_outcomes (trace r1)
  /\ clone_failures (trace (the_run w)) = clone_failures (trace r1).
Proof.
  intros Hd Hu r1. rewrite (clone_dataset_usable fuel srcs destds reckless
                              description rprops decoded w Hd Hu).
  cbv zeta. fold r1.
  destruct (out r1) as [[|errs cand winner]|e|]; cbn [trace];
    try (now repeat split).
  pose proof (no_transfer_attempts _
                (no_transfer_after_loop fuel destds reckless description
                   the_rp errs cand winner (final r1))) as (Q1 & Q2 & Q3).
  change (EvProgress "Cloning dataset to %s" [destds]
          :: trace r1 ++ ?t)%list
    with ([EvProgress "Cloning dataset to %s" [destds]] ++ trace r1 ++ t)%list.
  rewrite !clone_attempts_app, !clone_outcomes_app, !clone_failures_app.
  rewrite Q1, Q2, Q3, !app_nil_r. now repeat split.
Qed.

Lemma clone_dataset_existing_quiet (decoded : list props) (w : World) :
  decode_all srcs = Ok decoded ->
  path_exists w destds && path_nonempty w destds = true ->
  clone_outcomes (trace (the_run w)) = [].
Proof.
  intros Hd Hu. apply andb_true_iff in Hu as [He Hn].
  rewrite (clone_dataset_existing fuel srcs destds reckless description
             rprops decoded w Hd He Hn), existing_destination_run.
  destruct (if is_installed w destds then _ else _); reflexivity.
Qed.

(** C2. A transfer that fails with 'could not create work tree' in
    its standard error (in any case of letters) is the last one of the
    run: no candidate after it is attempted, the run yields one record, an
    'error' with the diagnostic taken from the standard error, as its last
    event, and returns. *)
Theorem C2_worktree_failure_is_fatal (decoded : list props) (w : World)
  (pre post : list (option CommandError)) (e : CommandError) :
  decode_all srcs = Ok decoded ->
  clone_outcomes (trace (the_run w)) = (pre ++ Some e :: post)%list ->
  worktree_failure (ce_stderr e) = true ->
  let record :=
    get_status_dict error (Some (worktree_message (ce_stderr e))) the_rp in
  post = []
  /\ clone_attempts (trace (the_run w))
     = map attempt_of (firstn (S (length pre)) (expand_candidates decoded))
  /\ S (length pre) <= length (expand_candidates decoded)
  /\ yields (trace (the_run w)) = [record]
  /\ (exists t, trace (the_run w) = (t ++ [EvYield record])%list)
  /\ out (the_run w) = Returned tt.
Proof.
  intros Hd Hsplit Hwt record.
  destruct (path_exists w destds && path_nonempty w destds) eqn:Hu.
  { rewrite (clone_dataset_existing_quiet decoded w Hd Hu) in Hsplit.
    now destruct pre. }
  destruct (clone_dataset_loop decoded w Hd Hu) as (Ha & Ho & _).
  rewrite Ho in Hsplit. symmetry in Hsplit. rewrite Ha.
  rewrite (clone_dataset_usable fuel srcs destds reckless description
             rprops decoded w Hd Hu). cbv zeta.
  destruct (attempt_loop_spec destds (path_exists w destds) the_rp
              (expand_candidates decoded) [] None w)
    as (k & fs & Hk & Hatt & Hfs & Hcases).
  cbv zeta in Hcases.
  pose proof (attempts_outcomes_length
                (trace (attempt_loop destds (path_exists w destds) the_rp
                          (expand_candidates decoded) [] None w))) as Hlen.
  rewrite Hatt, length_map, length_firstn, Nat.min_l in Hlen by exact Hk.
  assert (Hnot : ~ In (Some e) (map Some fs)).
  { intros Hin. apply in_map_Some in Hin as (a & Ha' & Hin).
    injection Ha' as <-. rewrite Forall_forall in Hfs.
    specialize (Hfs e Hin). congruence. }
  destruct Hcases as [(e' & Hout & Hwt' & Hoc & Hy & (t & Ht))
                     |[(c & Hout & Hoc & _)
                      |(cand' & Hout & Hoc & _)]].
  - rewrite Hoc in Hsplit, Hlen.
    destruct (outcome_split _ _ _ _ _ Hsplit) as [(Hx & -> & ->)|Hin];
      [|contradiction].
    injection Hx as <-. rewrite Hout. cbn [trace out].
    rewrite length_app, length_map in Hlen. cbn in Hlen.
    rewrite length_map.
    assert (Hk' : k = S (length fs)) by lia. clear Hlen. subst k.
    repeat split; auto.
    rewrite Ht. now exists (EvProgress "Cloning dataset to %s" [destds] :: t).
  - rewrite Hoc in Hsplit.
    destruct (outcome_split _ _ _ _ _ Hsplit) as [(Hx & _)|Hin];
      [discriminate | contradiction].
  - rewrite Hoc in Hsplit. exfalso. apply Hnot. rewrite <- Hsplit.
    apply in_elt.
Qed.


End AttemptEngine.

(* ===================================================================== *)
(** ** The error accumulator *)
(* ===================================================================== *)

Module OrderedDictFacts.
Import OrderedDict.

Lemma keys_set {V} (d : t V) (k : string) (v : V) (u : string) :
  In u (keys (set d k v)) <-> In u (keys d) \/ u = k.
Proof.
  induction d as [|[k' v'] d IH]; simpl.
  - intuition congruence.
  - destruct (String.eqb k' k) eqn:E; simpl.
    + apply String.eqb_eq in E; subst k'. intuition congruence.
    + unfold keys in IH. rewrite IH. tauto.
Qed.

Lemma keys_set_all {V} (l : list (string * V)) :
  forall (d : t V) (u : string),
    In u (keys (set_all d l)) <-> In u (keys d) \/ In u (map fst l).
Proof.
  induction l as [|[k v] l IH]; intros d u; simpl.
  - tauto.
  - unfold set_all in *. simpl. rewrite IH, keys_set. intuition congruence.
Qed.

Lemma NoDup_keys_set {V} (d : t V) (k : string) (v : V) :
  NoDup (keys d) -> NoDup (keys (set d k v)).
Proof.
  induction d as [|[k' v'] d IH]; simpl; intros Hnd.
  - constructor; [tauto | constructor].
  - inversion Hnd as [|? ? Hnotin Hnd']; subst.
    destruct (String.eqb k' k) eqn:E; simpl.
    + now constructor.
    + constructor; [|now apply IH].
      intros Hin. apply (keys_set d k v k') in Hin as [Hin| ->];
        [contradiction|]. now rewrite String.eqb_refl in E.
Qed.

Lemma NoDup_keys_set_all {V} (l : list (string * V)) :
  forall d : t V, NoDup (keys d) -> NoDup (keys (set_all d l)).
Proof.
  induction l as [|[k v] l IH]; intros d Hnd; [exact Hnd|].
  unfold set_all in *. simpl. apply IH. now apply NoDup_keys_set.
Qed.

Lemma set_fresh {V} (d : t V) (k : string) (v : V) :
  ~ In k (keys d) -> set d k v = (d ++ [(k, v)])%list.
Proof.
  induction d as [|[k' v'] d IH]; simpl; intros Hk; [reflexivity|].
  destruct (String.eqb k' k) eqn:E.
  - apply String.eqb_eq in E. tauto.
  - rewrite IH; tauto.
Qed.

(** With pairwise different keys nothing is overwritten. *)
Lemma set_all_fresh {V} (l : list (string * V)) :
  forall d : t V,
    NoDup (keys d ++ map fst l) -> set_all d l = (d ++ l)%list.
Proof.
  induction l as [|[k v] l IH]; intros d Hnd.
  - now rewrite app_nil_r.
  - unfold set_all in *. simpl.
    assert (Hk : ~ In k (keys d)).
    { intros Hin. apply NoDup_remove_2 in Hnd. apply Hnd.
      apply in_or_app. now left. }
    rewrite (set_fresh d k v Hk), IH.
    + now rewrite <- app_assoc.
    + unfold keys in *. rewrite map_app. simpl.
      rewrite <- app_assoc. exact Hnd.
Qed.

Lemma set_not_empty {V} (d : t V) (k : string) (v : V) : set d k v <> [].
Proof.
  destruct d as [|[k' v'] d]; simpl; [discriminate|].
  destruct (String.eqb k' k); discriminate.
Qed.

Lemma set_all_not_empty {V} (l : list (string * V)) :
  forall d : t V, d <> [] \/ l <> [] -> set_all d l <> [].
Proof.
  induction l as [|[k v] l IH]; intros d Hne.
  - destruct Hne as [Hne|Hne]; [exact Hne | congruence].
  - unfold set_all in *. simpl. apply IH. left. apply set_not_empty.
Qed.

End OrderedDictFacts.

(* ===================================================================== *)
(** ** When every candidate fails *)
(* ===================================================================== *)

Section Exhausted.

Context {N : Network} {H : Helpers} {World : Type} {C : Collaborators World}.

Variable fuel : nat.
Variable srcs : list string.
Variable destds : Dataset.
Variables reckless description : option string.
Variable rprops : option result_props.

#[local] Abbreviation the_rp :=
  (match rprops with
   | Some rp => rp
   | None => default_result_props destds
   end).

#[local] Abbreviation the_run :=
  (clone_dataset fuel srcs destds reckless description rprops).

(** C4, as the code has it. When there is at least one candidate and
    every transfer fails with an error that is not a 'could not create
    work tree' one, the run yields one record, an 'error', and returns.
    The errors are kept by URL, the last one for each URL, in the order
    the URLs were first attempted in.  When none of the kept errors has
    standard output or standard error, the message is the list of these
    URLs; otherwise it is one text with a block per URL, the URL and under
    it the rendering of its error.  (A destination that is absent or was
    just removed is taken not to be an installed dataset.) *)
Theorem C4_all_candidates_fail (decoded : list props) (w : World) :
  decode_all srcs = Ok decoded ->
  path_exists w destds && path_nonempty w destds = false ->
  expand_candidates decoded <> [] ->
  wiped_not_installed ->
  (forall o, In o (clone_outcomes (trace (the_run w))) ->
             exists e, o = Some e /\ worktree_failure (ce_stderr e) = false) ->
  let urls := map giturl (expand_candidates decoded) in
  let failures := clone_failures (trace (the_run w)) in
  let errs := OrderedDict.set_all [] failures in
  map fst failures = urls
  /\ out (the_run w) = Returned tt
  /\ yields (trace (the_run w))
     = [get_status_dict error (Some (failed_message errs)) the_rp]
  /\ (forall u, In u (OrderedDict.keys errs) <-> In u urls)
  /\ NoDup (OrderedDict.keys errs)
  /\ (NoDup urls -> errs = failures)
  /\ (forallb no_output (OrderedDict.values errs) = true ->
      failed_message errs
      = MsgFmt "Failed to clone from all attempted sources: %s"
               [ArgList (OrderedDict.keys errs)])
  /\ (forallb no_output (OrderedDict.values errs) = false ->
      failed_message errs
      = MsgFmt ("Failed to clone from any candidate source URL. "
                ++ "Encountered errors per each url were:"
                ++ PyStr.lf ++ "- %s")
               [ArgStr (PyStr.join (PyStr.lf ++ "- ")
                          (map (fun ue => fst ue ++ PyStr.lf ++ "  "
                                              ++ exc_str (snd ue))
                               errs))]).
Proof.
  intros Hd Hu Hne Hlaws Hall urls failures errs.
  destruct (clone_dataset_loop fuel srcs destds reckless description rprops
              decoded w Hd Hu) as (_ & Ho & Hf).
  subst errs failures urls. rewrite Hf. rewrite Ho in Hall.
  rewrite (clone_dataset_usable fuel srcs destds reckless description
             rprops decoded w Hd Hu). cbv zeta.
  destruct (attempt_loop_spec destds (path_exists w destds) the_rp
              (expand_candidates decoded) [] None w)
    as (k & fs & Hk & Hatt & Hfs & Hcases).
  cbv zeta in Hcases.
  set (r1 := attempt_loop destds (path_exists w destds) the_rp
                          (expand_candidates decoded) [] None w) in *.
  destruct Hcases as [(e' & Hout & Hwt' & Hoc & _)
                     |[(c & Hout & Hoc & _)
                      |(cand' & Hout & Hoc & Hy & Hkl & Hurls & _ & Hcons)]].
  - exfalso. destruct (Hall (Some e')) as (e & He & Hnw).
    + rewrite Hoc. apply in_or_app. right. now left.
    + injection He as <-. congruence.
  - exfalso. destruct (Hall None) as (e & He & _); [|discriminate].
    rewrite Hoc. apply in_or_app. right. now left.
  - destruct (Hcons Hne) as [[c ->] Hinst]. specialize (Hinst Hlaws).
    set (errs := OrderedDict.set_all [] (clone_failures (trace r1))) in *.
    assert (Herrs : errs <> []).
    { subst errs. apply OrderedDictFacts.set_all_not_empty. right.
      intros E. rewrite E in Hurls. simpl in Hurls. symmetry in Hurls.
      apply map_eq_nil in Hurls. contradiction. }
    rewrite Hout. cbn [trace out].
    rewrite (after_loop_failed fuel destds reckless description the_rp
               errs (Some c) None (final r1) Hinst Herrs).
    cbn [trace out].
    split; [exact Hurls|]. split; [reflexivity|]. split.
    { change (EvProgress "Cloning dataset to %s" [destds] :: ?a ++ ?b)%list
        with ([EvProgress "Cloning dataset to %s" [destds]] ++ a ++ b)%list.
      rewrite !yields_app, Hy. reflexivity. }
    split.
    { intros u. subst errs. rewrite OrderedDictFacts.keys_set_all.
      rewrite Hurls. simpl. tauto. }
    split.
    { subst errs. apply OrderedDictFacts.NoDup_keys_set_all. constructor. }
    split.
    { intros Hnd. subst errs.
      apply (OrderedDictFacts.set_all_fresh _ []). simpl.
      now rewrite Hurls. }
    unfold failed_message. split; intros ->; reflexivity.
Qed.

End Exhausted.

(* ===================================================================== *)
(** ** The repair of an unborn HEAD *)
(* ===================================================================== *)

Section UnbornHead.

Context {N : Network} {H : Helpers} {World : Type} {C : Collaborators World}.

Variable fuel : nat.
Variable srcs : list string.
Variable destds : Dataset.
Variables reckless description : option string.
Variable rprops : option result_props.

#[local] Abbreviation the_rp :=
  (match rprops with
   | Some rp => rp
   | None => default_result_props destds
   end).

#[local] Abbreviation the_run :=
  (clone_dataset fuel srcs destds reckless description rprops).



End UnbornHead.

(* ===================================================================== *)
(** ** Reckless mode 'ephemeral' *)
(* ===================================================================== *)

Section Ephemeral.

Context {N : Network} {H : Helpers} {World : Type} {C : Collaborators World}.

Lemma no_symlink_nil : no_symlink [].
Proof. constructor. Qed.

Lemma no_symlink_app (a b : list event) :
  no_symlink a -> no_symlink b -> no_symlink (a ++ b)%list.
Proof. intros Ha Hb. apply Forall_app. now split. Qed.

Ltac ns := closed_tac no_symlink_nil no_symlink_app
                      ltac:(unfold no_symlink; repeat constructor).

Lemma no_symlink_configure_origins (fuel : nat) :
  forall (cfgds probeds : Dataset) (label : option nat) (w : World),
    no_symlink (trace (configure_origins fuel cfgds probeds label w)).
Proof.
  induction fuel as [|fuel IH]; intros cfgds probeds label w; simpl.
  - apply no_symlink_nil.
  - ns. apply IH.
Qed.

Lemma no_symlink_special_remotes (d : Dataset)
  (items : list (string * special_remote)) :
  forall (srs_t srs_f : list string) (w : World),
    no_symlink (trace (special_remotes_loop d items srs_t srs_f w)).
Proof.
  induction items as [|[uuid config] items IH]; intros srs_t srs_f w;
    simpl.
  - apply no_symlink_nil.
  - ns; apply IH.
Qed.

Lemma no_symlink_annex_report (fuel : nat) (d : Dataset)
  (reckless : option string) (w : World) :
  no_symlink (trace (annex_report fuel d reckless w)).
Proof.
  unfold annex_report. ns;
    solve [apply no_symlink_special_remotes
          | apply no_symlink_configure_origins].
Qed.

(** The symlinking, by what the origin is. *)
Lemma ephemeral_symlink_run (d : Dataset) (w : World) :
  ephemeral_symlink d w =
  let annex_dir := Path_join (dot_git w d) "annex" in
  match config_get w d "remote.origin.url" with
  | Some url =>
      if PyStr.truthy url then
        match localpath url with
        | Some p =>
            let origin_git := if negb (String.eqb (Path_name p) ".git")
                              then Path_join p ".git" else p in
            let target := Path_join origin_git "annex" in
            if is_symlink w annex_dir then
              mkRun [EvUnlink annex_dir; EvSymlink annex_dir target]
                    (symlink_to (unlink w annex_dir) annex_dir target)
                    (Returned tt)
            else
              mkRun [EvRmtree annex_dir false; EvSymlink annex_dir target]
                    (symlink_to (rmtree w annex_dir false) annex_dir target)
                    (Returned tt)
        | None =>
            mkRun [EvLog warning
                         "reckless=ephemeral mode: origin doesn't seem local: %s; no symlinks being used"
                         [url]]
                  w (Returned tt)
        end
      else mkRun [] w (Returned tt)
  | None => mkRun [] w (Returned tt)
  end.
Proof.
  unfold ephemeral_symlink, bind, observe, act, log, emit, ret.
  cbn [out final trace].
  destruct (config_get w d "remote.origin.url") as [url|];
    cbn [truthy_opt out final trace app]; [|reflexivity].
  destruct (PyStr.truthy url); cbn [out final trace app]; [|reflexivity].
  destruct (localpath url) as [p|]; cbn [out final trace app];
    [|reflexivity].
  destruct (is_symlink w (Path_join (dot_git w d) "annex"));
    reflexivity.
Qed.

(** What the mode 'ephemeral' sets up. *)
Lemma reckless_setup_ephemeral (d : Dataset) (w : World) :
  reckless_setup d (Some "ephemeral") w =
  let w3 := set_remote_dead
              (config_set w d "remote.origin.annex-ignore" "true") d "here" in
  let marked := [EvConfigSet d "remote.origin.annex-ignore" "true";
                 EvSetRemoteDead d "here"] in
  if check_symlink_capability w3 (Path_join (dot_git w3 d) "dl_link_test")
                              (Path_join (dot_git w3 d) "dl_target_test")
  then
    let rs := ephemeral_symlink d w3 in
    mkRun (marked ++ trace rs)%list (final rs) (out rs)
  else
    mkRun (marked
           ++ [EvLog warning
                     "reckless=ephemeral mode: Unable to create symlinks on this file system."
                     []])%list
          w3 (Returned tt).
Proof.
  unfold reckless_setup.
  change (is_mode (Some "ephemeral") "auto" || is_shared (Some "ephemeral"))
    with false.
  change (is_mode (Some "ephemeral") "ephemeral") with true.
  cbv iota.
  unfold bind, do_config_set, act, observe, log, emit.
  cbn [out final trace app].
  destruct (check_symlink_capability _ _ _); [|reflexivity].
  rewrite ephemeral_symlink_run. cbv zeta.
  destruct (config_get _ d "remote.origin.url") as [url|]; [|reflexivity].
  destruct (PyStr.truthy url); [|reflexivity].
  destruct (localpath url) as [p|]; [|reflexivity].
  destruct (is_symlink _ _); reflexivity.
Qed.

Lemma reckless_setup_ephemeral_returns (d : Dataset) (w : World) :
  out (reckless_setup d (Some "ephemeral") w) = Returned tt.
Proof.
  rewrite reckless_setup_ephemeral. cbv zeta.
  destruct (check_symlink_capability _ _ _); [|reflexivity].
  rewrite ephemeral_symlink_run. cbv zeta. cbn [out].
  destruct (config_get _ d "remote.origin.url") as [url|]; [|reflexivity].
  destruct (PyStr.truthy url); [|reflexivity].
  destruct (localpath url) as [p|]; [|reflexivity].
  destruct (is_symlink _ _); reflexivity.
Qed.

(** [postclonecfg_annexdataset] in the mode 'ephemeral', where the
    source has an annex. *)
Lemma postclonecfg_annexdataset_ephemeral (fuel : nat) (d : Dataset)
  (description : option string) (w : World) :
  knows_annex w d = true ->
  let w1 := AnnexRepo w d in
  let init := negb (is_initialized w1 d) || truthy_opt description in
  let w2 := if init then _init w1 d description else w1 in
  let rs := reckless_setup d (Some "ephemeral") w2 in
  let rr := annex_report fuel d (Some "ephemeral") (final rs) in
  postclonecfg_annexdataset fuel d (Some "ephemeral") description w =
  mkRun (EvLog debug "Initializing annex repo at %s" [d]
         :: EvAnnexRepo d
         :: (if init then [EvAnnexInit d description] else [])
         ++ trace rs ++ trace rr)%list
        (final rr) (out rr).
Proof.
  intros Hannex w1 init w2 rs rr. unfold postclonecfg_annexdataset.
  erewrite bind_run by reflexivity.
  cbn [observe trace final out app]. rewrite Hannex. cbn [negb].
  change (is_mode (Some "ephemeral") "auto") with false.
  erewrite bind_run by reflexivity. cbn [when ret trace final out app].
  erewrite bind_run by reflexivity. cbn [log emit trace final out app].
  erewrite bind_run by reflexivity. cbn [act trace final out app].
  erewrite bind_run by reflexivity. cbn [observe trace final out app].
  fold w1. fold init.
  erewrite bind_run by (rewrite when_act_run; reflexivity).
  rewrite when_act_run. cbn [trace final out]. fold w2.
  erewrite bind_run by apply reckless_setup_ephemeral_returns.
  fold rs. fold rr. reflexivity.
Qed.

(** C8. Where the source has an annex and the mode is 'ephemeral',
    [remote.origin.annex-ignore] is set to [true] and 'here' is marked
    dead, whatever the file system can do.  When it can make symbolic
    links and the URL of origin is a local path, the annex directory is
    removed (unlinked, when it is a link already) and made a link to the
    [annex] directory under the [.git] of origin.  When it cannot make
    symbolic links, a warning is logged and no link is made at all. *)
Theorem C8_ephemeral_clone (fuel : nat) (d : Dataset)
  (description : option string) (w : World) :
  knows_annex w d = true ->
  let w1 := AnnexRepo w d in
  let w2 := if negb (is_initialized w1 d) || truthy_opt description
            then _init w1 d description else w1 in
  let w3 := set_remote_dead
              (config_set w2 d "remote.origin.annex-ignore" "true")
              d "here" in
  let annex_dir := Path_join (dot_git w3 d) "annex" in
  let can_link :=
    check_symlink_capability w3 (Path_join (dot_git w3 d) "dl_link_test")
                             (Path_join (dot_git w3 d) "dl_target_test") in
  let r := postclonecfg_annexdataset fuel d (Some "ephemeral") description w in
  exists pre post,
    trace r = (pre ++ EvConfigSet d "remote.origin.annex-ignore" "true"
                   :: EvSetRemoteDead d "here" :: post)%list
    /\ no_symlink pre
    /\ (can_link = true ->
        forall url p,
          config_get w3 d "remote.origin.url" = Some url ->
          url <> EmptyString ->
          localpath url = Some p ->
          let origin_git := if String.eqb (Path_name p) ".git"
                            then p else Path_join p ".git" in
          exists post',
            post = ((if is_symlink w3 annex_dir
                     then EvUnlink annex_dir
                     else EvRmtree annex_dir false)
                    :: EvSymlink annex_dir (Path_join origin_git "annex")
                    :: post')%list
            /\ no_symlink post')
    /\ (can_link = false ->
        exists post',
          post = (EvLog warning
                        "reckless=ephemeral mode: Unable to create symlinks on this file system."
                        []
                  :: post')%list
          /\ no_symlink post').
Proof.
  intros Hannex w1 w2 w3 annex_dir can_link r. subst r.
  rewrite (postclonecfg_annexdataset_ephemeral fuel d description w Hannex).
  cbv zeta. fold w1. fold w2.
  pose proof (reckless_setup_ephemeral d w2) as Hrs. cbv zeta in Hrs.
  fold w3 in Hrs. fold can_link in Hrs.
  set (rs := reckless_setup d (Some "ephemeral") w2) in *.
  set (rr := annex_report fuel d (Some "ephemeral") (final rs)).
  assert (Hrr : no_symlink (trace rr)) by apply no_symlink_annex_report.
  clearbody rr. cbn [trace].
  set (pre := EvLog debug "Initializing annex repo at %s" [d]
              :: EvAnnexRepo d
              :: (if negb (is_initialized w1 d) || truthy_opt description
                  then [EvAnnexInit d description] else [])).
  assert (Hpre : no_symlink pre).
  { subst pre. unfold no_symlink.
    destruct (negb (is_initialized w1 d) || truthy_opt description);
      repeat constructor. }
  assert (Hshape : forall X Y : list event,
             (EvLog debug "Initializing annex repo at %s" [d]
              :: EvAnnexRepo d
              :: (if negb (is_initialized w1 d) || truthy_opt description
                  then [EvAnnexInit d description] else [])
              ++ ([EvConfigSet d "remote.origin.annex-ignore" "true";
                   EvSetRemoteDead d "here"] ++ X) ++ Y)%list
             = (pre ++ EvConfigSet d "remote.origin.annex-ignore" "true"
                    :: EvSetRemoteDead d "here" :: X ++ Y)%list).
  { intros X Y. subst pre. reflexivity. }
  exists pre.
  destruct can_link eqn:Hcan.
  - exists (trace (ephemeral_symlink d w3) ++ trace rr)%list.
    split; [|split; [exact Hpre | split; [|discriminate]]].
    + rewrite Hrs. cbn [trace]. apply Hshape.
    + intros _ url p Hurl Hne Hp. exists (trace rr).
      split; [|exact Hrr].
      rewrite ephemeral_symlink_run. cbv zeta. fold annex_dir.
      rewrite Hurl, Hp.
      destruct url as [|a url]; [congruence|]. cbn [PyStr.truthy].
      destruct (String.eqb (Path_name p) ".git"); cbn [negb];
        destruct (is_symlink w3 annex_dir); reflexivity.
  - exists (EvLog warning
                  "reckless=ephemeral mode: Unable to create symlinks on this file system."
                  []
            :: trace rr).
    split; [|split; [exact Hpre | split; [discriminate|]]].
    + rewrite Hrs. cbn [trace]. apply Hshape.
    + intros _. exists (trace rr). now split.
Qed.

End Ephemeral.

(* ===================================================================== *)
(** ** The walk over the origins *)
(* ===================================================================== *)

Section OriginWalk.

Context {N : Network} {H : Helpers} {World : Type} {C : Collaborators World}.

Lemma yield_all_run (rs : list status_dict) (w : World) :
  yield_all rs w = mkRun (map EvYield rs) w (Returned tt).
Proof.
  induction rs as [|r rs IH]; [reflexivity|].
  cbn [yield_all]. erewrite bind_run by reflexivity.
  cbn [yield emit trace final out]. rewrite IH. reflexivity.
Qed.

Lemma do_siblings_configure_run (d : Dataset) (name : string)
  (url publish_depends : option string) (fetch : bool) (w : World) :
  do_siblings_configure d name url publish_depends fetch w =
  mkRun (EvSiblingsConfigure d name url publish_depends fetch
         :: map EvYield
              (snd (siblings_configure w d name url publish_depends fetch)))
        (fst (siblings_configure w d name url publish_depends fetch))
        (Returned tt).
Proof.
  unfold do_siblings_configure, bind, call.
  destruct (siblings_configure w d name url publish_depends fetch)
    as [w' rs].
  cbn [out final trace fst snd]. rewrite yield_all_run. reflexivity.
Qed.

Lemma registrations_yields (rs : list status_dict) :
  registrations (map EvYield rs) = [].
Proof. induction rs as [|r rs IH]; [reflexivity | exact IH]. Qed.

(** One level of the walk. *)
Lemma configure_origins_step (fuel : nat) (cfgds probeds : Dataset)
  (label : option nat) (w : World) :
  configure_origins (S fuel) cfgds probeds label w =
  let depth := match label with None => 1 | Some l => l end in
  match config_get w probeds "remote.origin.url" with
  | None => mkRun [] w (Returned tt)
  | Some url =>
      if negb (PyStr.truthy url)
         || negb (config_obtain w cfgds
                                "datalad.install.inherit-local-origin" true)
         || negb (is_PathRI (RI_of url))
      then mkRun [] w (Returned tt)
      else
        let register :=
          negb (String.eqb cfgds probeds)
          && negb (existsb (opt_str_eqb (Some url))
                           (known_remote_urls cfgds w)) in
        let name := "origin-" ++ str_of_nat depth in
        let reg := siblings_configure w cfgds name (Some url) None true in
        let r' := configure_origins fuel cfgds (Path_join probeds url)
                                    (Some (depth + 1))
                                    (if register then fst reg else w) in
        mkRun ((if register
                then EvSiblingsConfigure cfgds name (Some url) None true
                     :: map EvYield (snd reg)
                else []) ++ trace r')%list
              (final r') (out r')
  end.
Proof.
  cbn [configure_origins]. erewrite bind_run by reflexivity.
  cbn [observe trace final out app].
  destruct (config_get w probeds "remote.origin.url") as [url|];
    [|reflexivity].
  destruct (PyStr.truthy url); cbn [negb orb]; [|reflexivity].
  erewrite bind_run by reflexivity. cbn [observe trace final out app].
  destruct (config_obtain w cfgds "datalad.install.inherit-local-origin" true);
    cbn [negb orb]; [|reflexivity].
  destruct (is_PathRI (RI_of url)); cbn [negb]; [|reflexivity].
  destruct (String.eqb cfgds probeds); cbn [negb andb].
  - erewrite bind_run by reflexivity. reflexivity.
  - erewrite (bind_run (bind _ _)).
    2:{ erewrite bind_run by reflexivity. cbn [observe trace final out app].
        destruct (existsb _ _); cbn [negb];
          [reflexivity | now rewrite do_siblings_configure_run]. }
    erewrite bind_run by reflexivity. cbn [observe trace final out app].
    destruct (existsb _ _); cbn [negb];
      [reflexivity | now rewrite do_siblings_configure_run].
Qed.

(** A walk that ends within its budget is the same with a larger one. *)
Lemma configure_origins_more_fuel (n : nat) :
  forall (cfgds probeds : Dataset) (label : option nat) (w : World),
    out (configure_origins n cfgds probeds label w) <> OutOfFuel ->
    forall m, n <= m ->
              configure_origins m cfgds probeds label w
              = configure_origins n cfgds probeds label w.
Proof.
  induction n as [|n IH]; intros cfgds probeds label w Hout m Hm.
  - now contradiction Hout.
  - destruct m as [|m]; [lia|].
    rewrite (configure_origins_step n) in Hout.
    rewrite (configure_origins_step n), (configure_origins_step m).
    cbv zeta in *.
    destruct (config_get w probeds "remote.origin.url") as [url|];
      [|reflexivity].
    destruct (negb (PyStr.truthy url) || _ || _); [reflexivity|].
    cbn [out] in Hout. rewrite (IH _ _ _ _ Hout m) by lia. reflexivity.
Qed.

(** The remotes that a walk sets up carry the depth at which their
    dataset was found, and are fetched. *)
Lemma registrations_by_depth (fuel : nat) :
  forall (cfgds probeds : Dataset) (l : nat) (w : World),
    Forall (fun reg => exists k url,
                l <= k /\ reg = ("origin-" ++ str_of_nat k, url, true))
           (registrations
              (trace (configure_origins fuel cfgds probeds (Some l) w))).
Proof.
  induction fuel as [|fuel IH]; intros cfgds probeds l w.
  - constructor.
  - rewrite configure_origins_step. cbv zeta.
    destruct (config_get w probeds "remote.origin.url") as [url|];
      [|constructor].
    destruct (negb (PyStr.truthy url) || _ || _); [constructor|].
    cbn [trace]. rewrite registrations_app. apply Forall_app. split.
    + destruct (negb (String.eqb cfgds probeds) && _); [|constructor].
      cbn. rewrite registrations_yields. constructor; [|constructor].
      exists l, url. now split.
    + eapply Forall_impl; [|apply IH].
      intros reg (k & u & Hk & ->). exists k, u. split; [lia | reflexivity].
Qed.

(** C7, as the code has it. The walk ends at a dataset exactly when
    it has no (or an empty) URL for 'origin', when
    [datalad.install.inherit-local-origin] is off for the target, or when
    that URL is not a local path.  Otherwise it goes on with the dataset
    at that path, one level deeper; before that, unless the probed dataset
    is the target itself or the URL is one of a remote of the target
    already, the URL is set up as remote 'origin-<depth>' of the target
    and fetched.  A URL that is known already does not end the walk.
    Started on a fresh clone, every remote set up is 'origin-<d>' for a
    depth [d] of 2 or more.  A walk that ends within a budget of levels is
    the same for every larger budget. *)
Theorem C7_origin_walk (fuel : nat) (cfgds probeds : Dataset)
  (label : option nat) (w : World) :
  let depth := match label with None => 1 | Some l => l end in
  let inherit :=
    config_obtain w cfgds "datalad.install.inherit-local-origin" true in
  let r := configure_origins (S fuel) cfgds probeds label w in
  ((config_get w probeds "remote.origin.url" = None
    \/ config_get w probeds "remote.origin.url" = Some EmptyString
    \/ inherit = false
    \/ (exists url, config_get w probeds "remote.origin.url" = Some url
                    /\ is_PathRI (RI_of url) = false)) ->
   r = mkRun [] w (Returned tt))
  /\ (forall url,
         config_get w probeds "remote.origin.url" = Some url ->
         url <> EmptyString -> inherit = true ->
         is_PathRI (RI_of url) = true ->
         let known := existsb (opt_str_eqb (Some url))
                              (known_remote_urls cfgds w) in
         let register := negb (String.eqb cfgds probeds) && negb known in
         let name := "origin-" ++ str_of_nat depth in
         let reg := siblings_configure w cfgds name (Some url) None true in
         let r' := configure_origins fuel cfgds (Path_join probeds url)
                                     (Some (depth + 1))
                                     (if register then fst reg else w) in
         trace r
         = ((if register
             then EvSiblingsConfigure cfgds name (Some url) None true
                  :: map EvYield (snd reg)
             else []) ++ trace r')%list
         /\ final r = final r' /\ out r = out r')
  /\ (label = None -> cfgds = probeds ->
      Forall (fun reg => exists k url,
                  2 <= k /\ reg = ("origin-" ++ str_of_nat k, url, true))
             (registrations (trace r)))
  /\ (out r <> OutOfFuel ->
      forall m, S fuel <= m ->
                configure_origins m cfgds probeds label w = r).
Proof.
  intros depth inherit r. subst r.
  split; [|split; [|split]];
    [| | | apply configure_origins_more_fuel];
    rewrite configure_origins_step; cbv zeta; fold depth; fold inherit.
  - intros [Hn|[He|[Hi|(url & Hu & Hp)]]].
    + now rewrite Hn.
    + now rewrite He.
    + destruct (config_get w probeds "remote.origin.url") as [url|];
        [|reflexivity].
      rewrite Hi. cbn [negb]. now rewrite orb_true_r.
    + rewrite Hu, Hp. cbn [negb]. now rewrite orb_true_r.
  - intros url Hu Hne Hi Hp. rewrite Hu, Hi, Hp.
    destruct url as [|a url]; [congruence|]. cbn [PyStr.truthy negb orb].
    cbv zeta. cbn [trace final out]. now repeat split.
  - intros -> ->. subst depth.
    destruct (config_get w probeds "remote.origin.url") as [url|];
      [|constructor].
    destruct (negb (PyStr.truthy url) || _ || _); [constructor|].
    rewrite String.eqb_refl. cbn [negb andb trace app].
    apply registrations_by_depth.
Qed.

End OriginWalk.

(* ===================================================================== *)
(** ** Runs in the concrete world *)
(* ===================================================================== *)

Section SimFacts.

Import Sim.


Lemma sim_wiped_not_installed : wiped_not_installed (C := collaborators).
Proof.
  split.
  - intros w p Hp. cbn in *. now rewrite Hp.
  - intros w p b. cbn.
    destruct (String.eqb p (dest w)) eqn:E; cbn; [|now rewrite E].
    now rewrite andb_false_r.
Qed.

End SimFacts.

Section Runs.

Import Sim.

(** C1 at a destination that is a clone of the source already. *)
Lemma C1_witness :
  decode_all ["/src"] = Ok [local_props "/src" "src"]
  /\ path_exists (cloned "/dst" "/src") "/dst" = true
  /\ path_nonempty (cloned "/dst" "/src") "/dst" = true
  /\ trace (clone_dataset 1 ["/src"] "/dst" None None None
                          (cloned "/dst" "/src"))
     = [EvYield (get_status_dict notneeded
                   (Some (MsgFmt "dataset %s was already cloned from '%s'"
                                 [ArgDataset "/dst"; ArgStr "/src"]))
                   (default_result_props "/dst"))].
Proof.
  split; [reflexivity|]. split; [reflexivity|]. split; [reflexivity|].
  pose proof (C1_existing_destination 1 ["/src"] "/dst" None None None
                [local_props "/src" "src"] (cloned "/dst" "/src")
                eq_refl eq_refl eq_refl) as Hc.
  cbv zeta in Hc. destruct Hc as (_ & _ & _ & Hyes & _).
  destruct (Hyes eq_refl) as (c & Hin & _ & Ht).
  - exists (local_props "/src" "src"). split; [now left | now left].
  - destruct Hin as [<-|[]]. exact Ht.
Defined.

(** C2 where the first of two candidates fails on the work tree. *)
Lemma C2_witness :
  decode_all ["/a"; "/b"] = Ok [local_props "/a" "a"; local_props "/b" "b"]
  /\ clone_outcomes
       (trace (clone_dataset 1 ["/a"; "/b"] "/dst" None None None
                 (failing (fresh "/dst") [("/a", worktree_error)])))
     = ([] ++ Some worktree_error :: [])%list
  /\ worktree_failure (ce_stderr worktree_error) = true
  /\ yields
       (trace (clone_dataset 1 ["/a"; "/b"] "/dst" None None None
                 (failing (fresh "/dst") [("/a", worktree_error)])))
     = [get_status_dict error
          (Some (Msg "could not create work tree dir '/dst': Permission denied"))
          (default_result_props "/dst")]
  /\ clone_attempts
       (trace (clone_dataset 1 ["/a"; "/b"] "/dst" None None None
                 (failing (fresh "/dst") [("/a", worktree_error)])))
     = [("/a", None)].
Proof.
  split; [reflexivity|]. split; [reflexivity|]. split; [reflexivity|].
  pose proof (C2_worktree_failure_is_fatal 1 ["/a"; "/b"] "/dst" None None
                None [local_props "/a" "a"; local_props "/b" "b"]
                (failing (fresh "/dst") [("/a", worktree_error)])
                [] [] worktree_error eq_refl eq_refl eq_refl) as Hc.
  cbv zeta in Hc. destruct Hc as (_ & Hatt & _ & Hy & _ & _).
  split; [exact Hy | exact Hatt].
Defined.


(** C4 where both candidates fail without any output. *)
Lemma C4_witness :
  decode_all ["/a"; "/b"] = Ok [local_props "/a" "a"; local_props "/b" "b"]
  /\ path_exists (failing (fresh "/dst")
                          [("/a", silent_error); ("/b", silent_error)]) "/dst"
     && path_nonempty (failing (fresh "/dst")
                               [("/a", silent_error); ("/b", silent_error)])
                      "/dst"
     = false
  /\ expand_candidates [local_props "/a" "a"; local_props "/b" "b"] <> []
  /\ wiped_not_installed (C := collaborators)
  /\ (forall o,
         In o (clone_outcomes
                 (trace (clone_dataset 1 ["/a"; "/b"] "/dst" None None None
                           (failing (fresh "/dst")
                              [("/a", silent_error); ("/b", silent_error)])))) ->
         exists e, o = Some e /\ worktree_failure (ce_stderr e) = false)
  /\ yields
       (trace (clone_dataset 1 ["/a"; "/b"] "/dst" None None None
                 (failing (fresh "/dst")
                    [("/a", silent_error); ("/b", silent_error)])))
     = [get_status_dict error
          (Some (MsgFmt "Failed to clone from all attempted sources: %s"
                        [ArgList ["/a"; "/b"]]))
          (default_result_props "/dst")].
Proof.
  assert (Hall : forall o,
             In o (clone_outcomes
                     (trace (clone_dataset 1 ["/a"; "/b"] "/dst" None None
                               None
                               (failing (fresh "/dst")
                                  [("/a", silent_error);
                                   ("/b", silent_error)])))) ->
             exists e, o = Some e /\ worktree_failure (ce_stderr e) = false).
  { assert (E : clone_outcomes
                  (trace (clone_dataset 1 ["/a"; "/b"] "/dst" None None None
                            (failing (fresh "/dst")
                               [("/a", silent_error); ("/b", silent_error)])))
                = [Some silent_error; Some silent_error])
      by (vm_compute; reflexivity).
    intros o Hin. rewrite E in Hin.
    destruct Hin as [<-|[<-|[]]]; exists silent_error;
      (split; [reflexivity | vm_compute; reflexivity]). }
  assert (Hd : decode_all ["/a"; "/b"]
               = Ok [local_props "/a" "a"; local_props "/b" "b"])
    by (vm_compute; reflexivity).
  assert (Hu : path_exists (failing (fresh "/dst")
                              [("/a", silent_error); ("/b", silent_error)])
                           "/dst"
               && path_nonempty (failing (fresh "/dst")
                                   [("/a", silent_error);
                                    ("/b", silent_error)]) "/dst"
               = false) by (vm_compute; reflexivity).
  assert (Hne : expand_candidates
                  [local_props "/a" "a"; local_props "/b" "b"] <> [])
    by (vm_compute; discriminate).
  split; [exact Hd|]. split; [exact Hu|]. split; [exact Hne|].
  split; [exact sim_wiped_not_installed|]. split; [exact Hall|].
  pose proof (C4_all_candidates_fail 1 ["/a"; "/b"] "/dst" None None None
                [local_props "/a" "a"; local_props "/b" "b"]
                (failing (fresh "/dst")
                   [("/a", silent_error); ("/b", silent_error)])
                Hd Hu Hne sim_wiped_not_installed Hall) as Hc.
  cbv zeta in Hc. destruct Hc as (_ & _ & Hy & _).
  vm_compute in Hy. vm_compute. exact Hy.
Defined.

(** C4 without the condition on the work tree fails where the only
    candidate fails on the work tree: the failure carries output, and the
    message of the one record is the diagnostic alone, not the URL with its
    error. *)
Lemma C4_counterexample :
  clone_outcomes
    (trace (clone_dataset 1 ["/a"] "/dst" None None None
              (failing (fresh "/dst") [("/a", worktree_error)])))
  = [Some worktree_error]
  /\ no_output worktree_error = false
  /\ yields
       (trace (clone_dataset 1 ["/a"] "/dst" None None None
                 (failing (fresh "/dst") [("/a", worktree_error)])))
     = [get_status_dict error
          (Some (Msg "could not create work tree dir '/dst': Permission denied"))
          (default_result_props "/dst")]
  /\ Some (Msg "could not create work tree dir '/dst': Permission denied")
     <> Some (failed_message [("/a", worktree_error)]).
Proof.
  split; [reflexivity|]. split; [reflexivity|]. split; [reflexivity|].
  discriminate.
Qed.

(** C5 at the RIA example of the command. *)
Lemma C5_witness :
  RI_of (rewrite_url ria_spec) = URL (parse_url ria_spec)
  /\ PyStr.startswith "ria+" (scheme (parse_url ria_spec)) = true
  /\ fragment (parse_url ria_spec) = "76b6ca66-36b1-11ea-a2e6-f0d5bf7b5561@v1"
  /\ decode_source_spec ria_spec = Ok ria_props.
Proof.
  split; [reflexivity|]. split; [reflexivity|]. split; [reflexivity|].
  exact (proj2 (C5_ria_uuid_decoding ria_spec (parse_url ria_spec)
                  eq_refl eq_refl) eq_refl).
Defined.



(** C7 on the chain of origins, from the clone. *)
Lemma C7_witness :
  Forall (fun reg => exists k url,
              2 <= k /\ reg = ("origin-" ++ str_of_nat k, url, true))
         (registrations
            (trace (configure_origins 6 "/p/clone" "/p/clone" None chain))).
Proof.
  exact (proj1 (proj2 (proj2 (C7_origin_walk 5 "/p/clone" "/p/clone" None
                                            chain)))
               eq_refl eq_refl).
Defined.

(** C7 with a known URL as an end of the walk fails on the chain: at
    the third dataset the URL of origin is one that the clone has a remote
    for already, and the walk does not end there: the next dataset is
    probed and set up as 'origin-4'. *)
Lemma C7_counterexample :
  config_get chain_with_origin2 "/p/clone/../a/sub/b" "remote.origin.url"
  = Some "../a"
  /\ existsb (opt_str_eqb (Some "../a"))
             (known_remote_urls "/p/clone" chain_with_origin2) = true
  /\ registrations
       (trace (configure_origins 3 "/p/clone" "/p/clone/../a/sub/b" (Some 3)
                                 chain_with_origin2))
     = [("origin-4", "/z", true)]
  /\ registrations
       (trace (configure_origins 6 "/p/clone" "/p/clone" None chain))
     = [("origin-2", "sub/b", true); ("origin-4", "/z", true)].
Proof. repeat split; vm_compute; reflexivity. Qed.

(** C8 on a file system with symbolic links. *)
Lemma C8_witness :
  knows_annex (annexed true) "/dst" = true
  /\ In (EvSetRemoteDead "/dst" "here")
        (trace (postclonecfg_annexdataset 3 "/dst" (Some "ephemeral") None
                                          (annexed true)))
  /\ In (EvSymlink "/dst/.git/annex" "/src/.git/annex")
        (trace (postclonecfg_annexdataset 3 "/dst" (Some "ephemeral") None
                                          (annexed true))).
Proof.
  assert (Hk : knows_annex (annexed true) "/dst" = true)
    by (vm_compute; reflexivity).
  split; [exact Hk|].
  pose proof (C8_ephemeral_clone 3 "/dst" None (annexed true) Hk) as Hc.
  cbv zeta in Hc. destruct Hc as (pre & post & Htr & _ & Hlink & _).
  match type of Hlink with
  | ?a = true -> _ =>
      assert (Hcan : a = true) by (vm_compute; reflexivity);
      specialize (Hlink Hcan "/src" "/src")
  end.
  match type of Hlink with
  | ?a = ?b -> _ =>
      assert (Hurl : a = b) by (vm_compute; reflexivity);
      specialize (Hlink Hurl)
  end.
  destruct Hlink as (post' & Hpost & _);
    [discriminate | vm_compute; reflexivity |].
  rewrite Htr, Hpost. split.
  - apply in_or_app. right. right. now left.
  - apply in_or_app. right. right. right. right. left.
    vm_compute. reflexivity.
Defined.

(** C9 at a fragment that is neither a UUID nor an alias. *)
Lemma C9_witness :
  RI_of (rewrite_url bad_ria_spec) = URL (parse_url bad_ria_spec)
  /\ PyStr.startswith "ria+" (scheme (parse_url bad_ria_spec)) = true
  /\ decode_source_spec bad_ria_spec
     = Err (ValueError (ria_error_msg bad_ria_spec))
  /\ exists e,
      clone_dataset 1 ["/src"; bad_ria_spec] "/dst" None None None
                    (fresh "/dst")
      = mkRun [] (fresh "/dst") (Raised e).
Proof.
  assert (Hri : RI_of (rewrite_url bad_ria_spec)
                = URL (parse_url bad_ria_spec)) by (vm_compute; reflexivity).
  assert (Hs : PyStr.startswith "ria+" (scheme (parse_url bad_ria_spec))
               = true) by (vm_compute; reflexivity).
  split; [exact Hri|]. split; [exact Hs|].
  pose proof (C9_invalid_ria_spec 1 ["/src"; bad_ria_spec] "/dst" None None
                None bad_ria_spec (parse_url bad_ria_spec) Hri Hs) as Hc.
  cbv zeta in Hc. destruct Hc as (Hiff & Hval & Hrun).
  assert (Hbad : exists e, decode_source_spec bad_ria_spec = Err e).
  { apply Hiff. split; vm_compute; reflexivity. }
  split.
  - destruct Hbad as [e He]. rewrite He. f_equal. now apply Hval.
  - destruct (Hrun Hbad (or_intror (or_introl eq_refl)) (fresh "/dst"))
      as (e' & He' & _).
    now exists e'.
Defined.

(** C10 at a UUID with further characters behind it, and at one
    written in upper case. *)
Lemma C10_witness :
  RI_of (rewrite_url long_ria_spec) = URL (parse_url long_ria_spec)
  /\ PyStr.startswith "ria+" (scheme (parse_url long_ria_spec)) = true
  /\ decode_source_spec long_ria_spec
     = Ok (mkProps long_ria_spec (Some "v2") type_ria
                   "http://store.datalad.org/76b/6ca66-36b1-11ea-a2e6-f0d5bf7b5561-extra"
                   "76b6ca66-36b1-11ea-a2e6-f0d5bf7b5561-extra")
  /\ decode_source_spec upper_ria_spec
     = Err (ValueError (ria_error_msg upper_ria_spec)).
Proof.
  assert (Hri : RI_of (rewrite_url long_ria_spec)
                = URL (parse_url long_ria_spec)) by (vm_compute; reflexivity).
  assert (Hs : PyStr.startswith "ria+" (scheme (parse_url long_ria_spec))
               = true) by (vm_compute; reflexivity).
  assert (Hri' : RI_of (rewrite_url upper_ria_spec)
                 = URL (parse_url upper_ria_spec))
    by (vm_compute; reflexivity).
  assert (Hs' : PyStr.startswith "ria+" (scheme (parse_url upper_ria_spec))
                = true) by (vm_compute; reflexivity).
  split; [exact Hri|]. split; [exact Hs|]. split.
  - pose proof (proj1 (C10_uuid_prefix_match long_ria_spec
                         (parse_url long_ria_spec) Hri Hs)
                  "76b6ca66" "36b1" "11ea" "a2e6" "f0d5bf7b5561" "-extra"
                  (Some "v2")) as Hc.
    cbv zeta in Hc. rewrite Hc.
    + vm_compute. reflexivity.
    + split; reflexivity.
    + split; reflexivity.
    + split; reflexivity.
    + split; reflexivity.
    + split; reflexivity.
    + reflexivity.
    + vm_compute. reflexivity.
  - pose proof (proj2 (C10_uuid_prefix_match upper_ria_spec
                         (parse_url upper_ria_spec) Hri' Hs')
                  2 "B"%char) as Hc.
    cbv zeta in Hc. destruct Hc as (_ & Herr & _).
    + lia.
    + vm_compute. reflexivity.
    + reflexivity.
    + apply Herr. vm_compute. reflexivity.
Defined.

(** Two candidates that fail, the second one with output: the one record
    pairs each URL with its error. *)
Example clone_failure_with_output :
  yields
    (trace (clone_dataset 1 ["/a"; "/b"] "/dst" None None None
              (failing (fresh "/dst")
                 [("/a", silent_error); ("/b", not_found_error)])))
  = [get_status_dict error
       (Some (failed_message
                [("/a", silent_error); ("/b", not_found_error)]))
       (default_result_props "/dst")]
  /\ forallb no_output [silent_error; not_found_error] = false.
Proof. split; vm_compute; reflexivity. Qed.

End Runs.

(* ===================================================================== *)
(** ** More on the decoding of a source *)
(* ===================================================================== *)

Section SplitFacts.

Import PyStr PyStrFacts.

Lemma split_not_nil (c : ascii) (s : string) : split c s <> [].
Proof.
  induction s as [|a s IH]; simpl; [discriminate|].
  destruct (split c s) as [|hd tl]; [discriminate|].
  destruct (Ascii.eqb a c); discriminate.
Qed.

Lemma split_no_sep (c : ascii) (s : string) :
  has_char c s = false -> split c s = [s].
Proof.
  induction s as [|a s IH]; simpl; intros Hs; [reflexivity|].
  apply orb_false_iff in Hs as [Ha Hs]. now rewrite (IH Hs), Ha.
Qed.

(** Splitting a text at a separator that is known to be there. *)
Lemma split_app (c : ascii) (a b : string) :
  split c (a ++ String c b) = (split c a ++ split c b)%list.
Proof.
  induction a as [|x a IH]; simpl.
  - rewrite Ascii.eqb_refl.
    destruct (split c b) as [|hd tl] eqn:E; [|reflexivity].
    now destruct (split_not_nil c b).
  - rewrite IH.
    destruct (split c a) as [|hd tl] eqn:E;
      [now destruct (split_not_nil c a)|].
    simpl. now destruct (Ascii.eqb x c).
Qed.

Lemma last_app_single {A} (l : list A) (x d : A) : last (l ++ [x]) d = x.
Proof. apply last_last. Qed.

Lemma last_str_split (c : ascii) (dir name : string) :
  has_char c name = false ->
  last_str (split c (dir ++ String c name)) = name.
Proof.
  intros Hn. unfold last_str. rewrite split_app, (split_no_sep c name Hn).
  apply last_last.
Qed.

Lemma last2_str_split (c : ascii) (dir name : string) :
  has_char c name = false ->
  last2_str (split c (dir ++ String c name)) = last_str (split c dir).
Proof.
  intros Hn. unfold last2_str, last_str.
  rewrite split_app, (split_no_sep c name Hn), removelast_last.
  reflexivity.
Qed.

Lemma has_char_app_r (c : ascii) (a b : string) :
  has_char c (a ++ String c b) = true.
Proof.
  induction a as [|x a IH]; simpl.
  - now rewrite Ascii.eqb_refl.
  - rewrite IH. apply orb_true_r.
Qed.

Lemma strip_git_suffix_app (base : string) :
  strip_git_suffix (base ++ ".git") = base.
Proof.
  unfold strip_git_suffix. rewrite endswith_app, length_append.
  simpl String.length. rewrite Nat.add_sub. apply take_app.
Qed.

End SplitFacts.

Section DecoderMore.

Context {N : Network}.
Import PyStr PyStrFacts Re ReFacts.

(** [_get_installationpath_from_url] on what [RI] takes for a URL. *)
Lemma installationpath_url (url : string) (u : URL_fields) :
  RI_of url = URL u ->
  _get_installationpath_from_url url =
  let p := rstrip_char slash (path u) in
  let p := if truthy p then urlunquote p else hostname u in
  if has_char slash p then
    let parts := split slash p in
    if String.eqb (last_str parts) ".git"
    then Ok (strip_git_suffix (last2_str parts))
    else Ok (strip_git_suffix (last_str parts))
  else Ok (strip_git_suffix p).
Proof.
  intros Hri. unfold _get_installationpath_from_url. rewrite Hri.
  cbv zeta. destruct (truthy (rstrip_char slash (path u))); reflexivity.
Qed.

(** X1. The installation path of a URL is the last component of its
    path, unquoted and without trailing slashes; a [.git] at the end of
    that component is cut off, once.  Where the last component is
    [.git] itself, the component before it is taken; where the path is
    empty, the host name. *)
Theorem installation_path_of_url (url : string) (u : URL_fields) :
  RI_of url = URL u ->
  let stripped := rstrip_char slash (path u) in
  (stripped = EmptyString ->
   has_char slash (hostname u) = false ->
   _get_installationpath_from_url url = Ok (strip_git_suffix (hostname u)))
  /\ (forall dir name : string,
         stripped <> EmptyString ->
         urlunquote stripped = dir ++ "/" ++ name ->
         has_char slash name = false ->
         name <> ".git" ->
         _get_installationpath_from_url url = Ok (strip_git_suffix name))
  /\ (forall dir parent : string,
         stripped <> EmptyString ->
         urlunquote stripped = dir ++ "/" ++ parent ++ "/.git" ->
         has_char slash parent = false ->
         _get_installationpath_from_url url = Ok (strip_git_suffix parent))
  /\ (forall base : string, strip_git_suffix (base ++ ".git") = base).
Proof.
  intros Hri stripped. rewrite (installationpath_url url u Hri). cbv zeta.
  fold stripped. repeat split.
  - intros -> Hh. cbn [truthy]. now rewrite Hh.
  - intros dir name Hne Hq Hn Hgit.
    destruct stripped as [|a s] eqn:E; [congruence|]. cbn [truthy].
    rewrite Hq. change ("/" ++ name) with (String slash name).
    rewrite has_char_app_r, (last_str_split slash dir name Hn).
    destruct (String.eqb_spec name ".git"); [contradiction | reflexivity].
  - intros dir parent Hne Hq Hp.
    destruct stripped as [|a s] eqn:E; [congruence|]. cbn [truthy].
    rewrite Hq.
    replace (dir ++ "/" ++ parent ++ "/.git")
      with ((dir ++ String slash parent) ++ String slash ".git")
      by (rewrite append_assoc; reflexivity).
    rewrite has_char_app_r, (last_str_split slash _ ".git" eq_refl).
    rewrite String.eqb_refl.
    rewrite (last2_str_split slash _ ".git" eq_refl).
    now rewrite (last_str_split slash dir parent Hp).
  - apply strip_git_suffix_app.
Qed.

(** What is decoded keeps the specification as it was given. *)
Lemma decode_source_spec_source (orig : string) (p : props) :
  decode_source_spec orig = Ok p -> source p = orig.
Proof.
  unfold decode_source_spec.
  destruct (RI_of (rewrite_url orig)) as [r q|u|q|s|s].
  2:{ destruct (startswith "ria+" (scheme u)).
      - destruct (ria_dsid_version (fragment u)) as [dsid ver].
        destruct (ria_trace_destpath dsid) as [[tr dest]|]; [|discriminate].
        now intros [= <-].
      - destruct (_get_installationpath_from_url _); [|discriminate].
        now intros [= <-]. }
  all: destruct (_get_installationpath_from_url _); [|discriminate];
    now intros [= <-].
Qed.

(** X2. Whatever the specification, what is decoded from it keeps it
    under ['source'] as it was given, not as the configuration rewrites it.
    The type is 'ria' exactly for a URL whose scheme starts with [ria+];
    only then there can be a version, and otherwise the default destination
    path is the installation path of the fetch URL.  With the type 'giturl'
    the fetch URL is the rewritten specification, verbatim. *)
Theorem decode_source_spec_kinds (orig : string) (p : props) :
  decode_source_spec orig = Ok p ->
  source p = orig
  /\ (type p = type_ria <->
      exists u, RI_of (rewrite_url orig) = URL u
                /\ startswith "ria+" (scheme u) = true)
  /\ (type p <> type_ria ->
      version p = None
      /\ _get_installationpath_from_url (giturl p) = Ok (default_destpath p))
  /\ (type p = type_giturl -> giturl p = rewrite_url orig)
  /\ (type p = type_dataladri <->
      exists r q, RI_of (rewrite_url orig) = DataLadRI r q
                  /\ giturl p = as_git_url r q).
Proof.
  unfold decode_source_spec.
  destruct (RI_of (rewrite_url orig)) as [r q|u|q|s|s] eqn:Hri.
  - destruct (_get_installationpath_from_url (as_git_url r q)) as [d|e] eqn:E;
      [|discriminate].
    intros [= <-]. cbn [source type version giturl default_destpath].
    repeat split; try discriminate; try congruence.
    + intros (u & Hu & _). discriminate.
    + now exists r, q.
  - destruct (startswith "ria+" (scheme u)) eqn:Hs.
    + destruct (ria_dsid_version (fragment u)) as [dsid ver].
      destruct (ria_trace_destpath dsid) as [[tr dest]|]; [|discriminate].
      intros [= <-]. cbn [source type version giturl default_destpath].
      repeat split; try discriminate; try congruence.
      * now exists u.
      * intros (r & q & Hrq & _). discriminate.
    + destruct (_get_installationpath_from_url (rewrite_url orig)) as [d|e]
        eqn:E; [|discriminate].
      intros [= <-]. cbn [source type version giturl default_destpath].
      repeat split; try discriminate; try congruence.
      * intros (u' & [= <-] & Hu'). congruence.
      * intros (r & q & Hrq & _). discriminate.
  - destruct (_get_installationpath_from_url (rewrite_url orig)) as [d|e]
      eqn:E; [|discriminate].
    intros [= <-]. cbn [source type version giturl default_destpath].
    repeat split; try discriminate; try congruence.
    + intros (u' & Hu' & _). discriminate.
    + intros (r & q' & Hrq & _). discriminate.
  - destruct (_get_installationpath_from_url (rewrite_url orig)) as [d|e]
      eqn:E; [|discriminate].
    intros [= <-]. cbn [source type version giturl default_destpath].
    repeat split; try discriminate; try congruence.
    + intros (u' & Hu' & _). discriminate.
    + intros (r & q' & Hrq & _). discriminate.
  - destruct (_get_installationpath_from_url (rewrite_url orig)) as [d|e]
      eqn:E; [|discriminate].
    intros [= <-]. cbn [source type version giturl default_destpath].
    repeat split; try discriminate; try congruence.
    + intros (u' & Hu' & _). discriminate.
    + intros (r & q' & Hrq & _). discriminate.
Qed.

(** X3. A [ria+] URL whose fragment is [~] and a name, with or without
    a version after an ['@'], is decoded as an alias: the fetch URL is the
    URL without fragment, with [ria+] cut off the scheme and [alias/] and
    the name appended to its path, and the name is the default destination
    path.  Without a name, that path is empty. *)
Theorem decode_ria_alias (spec : string) (u : URL_fields) (name : string)
  (ver : option string) :
  RI_of (rewrite_url spec) = URL u ->
  startswith "ria+" (scheme u) = true ->
  has_char at_sign name = false ->
  fragment u
  = "~" ++ name ++ match ver with Some v => "@" ++ v | None => EmptyString end ->
  let sep := if String.eqb (path u) EmptyString || endswith "/" (path u)
             then EmptyString else "/" in
  decode_source_spec spec =
  Ok (mkProps spec ver type_ria
              (URL_str (mkURL (drop 4 (scheme u)) (username u) (password u)
                              (hostname u) (port u)
                              (path u ++ sep ++ "alias/" ++ name)
                              (query u) EmptyString))
              name).
Proof.
  intros Hri Hs Hat Hfrag sep.
  rewrite (decode_ria spec u Hri Hs), Hfrag.
  change ("~" ++ name ++ match ver with
                         | Some v => "@" ++ v
                         | None => EmptyString
                         end)
    with (("~" ++ name) ++ match ver with
                           | Some v => "@" ++ v
                           | None => EmptyString
                           end).
  rewrite (ria_dsid_version_app ("~" ++ name) ver) by exact Hat.
  cbn [fst snd]. unfold ria_trace_destpath.
  change (re_match uuid_regex ("~" ++ name)) with false.
  cbn [startswith Ascii.eqb Bool.eqb andb drop append].
  now rewrite ria_git_url_path.
Qed.

(** X4. What [clone_dataset] decodes is one record for each of the
    specifications it was given, in their order.  Every candidate that it
    would try comes from one of them: it has the specification under
    ['source'], the version, type and default destination path decoded from
    it, and as fetch URL one of the variants of the decoded one. *)
Theorem candidates_come_from_specs (srcs : list string)
  (decoded : list props) :
  decode_all srcs = Ok decoded ->
  map source decoded = srcs
  /\ Forall2 (fun s p => decode_source_spec s = Ok p) srcs decoded
  /\ Forall (fun c =>
               exists s p,
                 In s srcs
                 /\ decode_source_spec s = Ok p
                 /\ source c = s
                 /\ c = with_giturl p (giturl c)
                 /\ In (giturl c)
                       (_get_flexible_source_candidates (giturl p)))
            (expand_candidates decoded).
Proof.
  revert decoded. induction srcs as [|s srcs IH]; intros decoded Hd.
  - injection Hd as <-. repeat split; constructor.
  - simpl in Hd.
    destruct (decode_source_spec s) as [p|e] eqn:Hs; [|discriminate].
    destruct (decode_all srcs) as [ps|e]; [|discriminate].
    injection Hd as <-. destruct (IH ps eq_refl) as (Hm & Hf2 & Hall).
    split; [|split].
    + cbn [map]. now rewrite Hm, (decode_source_spec_source s p Hs).
    + now constructor.
    + unfold expand_candidates. cbn [flat_map].
      apply Forall_app. split.
      * apply Forall_forall. intros c Hc.
        apply in_map_iff in Hc as (g & <- & Hg).
        exists s, p. cbn [source giturl with_giturl].
        split; [now left|]. split; [exact Hs|].
        split; [apply (decode_source_spec_source s p Hs)|]. now split.
      * eapply Forall_impl; [|exact Hall].
        intros c (s' & p' & Hin & Hp' & Hsrc & Hc & Hg).
        exists s', p'. repeat split; auto. now right.
Qed.

End DecoderMore.

(* ===================================================================== *)
(** ** Tests that every event of a run passes *)
(* ===================================================================== *)

Section AllEvents.

Lemma all_events_nil (q : event -> bool) : all_events q [].
Proof. reflexivity. Qed.

Lemma all_events_app (q : event -> bool) (a b : list event) :
  all_events q a -> all_events q b -> all_events q (a ++ b)%list.
Proof.
  unfold all_events. intros Ha Hb. now rewrite forallb_app, Ha, Hb.
Qed.

Lemma all_events_cons (q : event -> bool) (e : event) (t : list event) :
  q e = true -> all_events q t -> all_events q (e :: t).
Proof. unfold all_events. intros He Ht. cbn. now rewrite He, Ht. Qed.

Lemma all_events_weaken (q q' : event -> bool) (t : list event) :
  (forall e, q e = true -> q' e = true) ->
  all_events q t -> all_events q' t.
Proof.
  unfold all_events. intros Hq Ht. apply forallb_forall. intros e He.
  apply Hq. revert e He. now apply forallb_forall.
Qed.

Lemma all_events_yields (q : event -> bool) (rs : list status_dict) :
  (forall r, q (EvYield r) = true) -> all_events q (map EvYield rs).
Proof.
  intros Hq. induction rs as [|r rs IH]; [reflexivity|].
  now apply all_events_cons.
Qed.

Lemma not_call_git_git_calls (t : list event) :
  all_events not_call_git t -> git_calls t = [].
Proof.
  unfold all_events. induction t as [|e t IH]; [reflexivity|].
  cbn. intros Ht. apply andb_true_iff in Ht as [He Ht].
  destruct e; try discriminate; cbn; auto.
Qed.

Lemma git_calls_app (a b : list event) :
  git_calls (a ++ b) = (git_calls a ++ git_calls b)%list.
Proof. apply flat_map_app. Qed.

End AllEvents.

Ltac all_ev q :=
  closed_tac (all_events_nil q) (all_events_app q) ltac:(reflexivity).

Section QuietParts.

Context {N : Network} {H : Helpers} {World : Type} {C : Collaborators World}.

Variable q : event -> bool.
Hypothesis q_log : forall lvl msg args, q (EvLog lvl msg args) = true.
Hypothesis q_yield : forall r, q (EvYield r) = true.
Hypothesis q_sib :
  forall d name url dep fetch,
    q (EvSiblingsConfigure d name url dep fetch) = true.

Ltac q_single :=
  unfold all_events, emit, act; cbn [trace forallb];
  rewrite ?q_log, ?q_yield, ?q_sib; reflexivity.

Ltac q_tac := closed_tac (all_events_nil q) (all_events_app q) q_single.

(** The walk over the origins only sets up siblings and yields what that
    gives. *)
Lemma all_events_configure_origins (fuel : nat) :
  forall (cfgds probeds : Dataset) (label : option nat) (w : World),
    all_events q (trace (configure_origins fuel cfgds probeds label w)).
Proof.
  induction fuel as [|fuel IH]; intros cfgds probeds label w; simpl.
  - apply all_events_nil.
  - q_tac. apply IH.
Qed.

(** The loop over the special remotes only logs. *)
Lemma all_events_special_remotes (d : Dataset)
  (items : list (string * special_remote)) :
  forall (srs_t srs_f : list string) (w : World),
    all_events q (trace (special_remotes_loop d items srs_t srs_f w)).
Proof.
  induction items as [|[uuid config] items IH]; intros srs_t srs_f w; simpl.
  - apply all_events_nil.
  - q_tac; apply IH.
Qed.

End QuietParts.

(* ===================================================================== *)
(** ** More on [clone_dataset] *)
(* ===================================================================== *)

Section RemovalFacts.

Context {N : Network} {H : Helpers} {World : Type} {C : Collaborators World}.

Lemma is_mode_other (reckless : option string) (mode : string) :
  reckless <> Some mode -> is_mode reckless mode = false.
Proof.
  intros Hr. destruct reckless as [r|]; [|reflexivity]. cbn.
  destruct (String.eqb_spec r mode); [congruence | reflexivity].
Qed.

Lemma not_rmtree_check_head (d : Dataset) (w : World) :
  all_events not_rmtree (trace (postclone_check_head d w)).
Proof. unfold postclone_check_head. all_ev not_rmtree. Qed.

Lemma not_rmtree_annexdataset (fuel : nat) (d : Dataset)
  (reckless description : option string) (w : World) :
  reckless <> Some "ephemeral" ->
  all_events not_rmtree
             (trace (postclonecfg_annexdataset fuel d reckless description w)).
Proof.
  intros Hr. unfold postclonecfg_annexdataset, reckless_setup, annex_report.
  rewrite (is_mode_other reckless "ephemeral" Hr).
  all_ev not_rmtree;
    solve [apply all_events_special_remotes; reflexivity
          | apply all_events_configure_origins; reflexivity].
Qed.

Lemma not_rmtree_ria (d : Dataset) (p : props) (w : World) :
  all_events not_rmtree (trace (postclonecfg_ria d p w)).
Proof.
  unfold postclonecfg_ria, ria_config_content, ria_enable.
  all_ev not_rmtree.
Qed.

Lemma not_rmtree_after_loop (fuel : nat) (destds : Dataset)
  (reckless description : option string) (rp : result_props)
  (error_msgs : OrderedDict.t CommandError) (cand winner : option props)
  (w : World) :
  reckless <> Some "ephemeral" ->
  all_events not_rmtree
             (trace (after_loop fuel destds reckless description rp
                                error_msgs cand winner w)).
Proof.
  intros Hr. unfold after_loop, finish_clone.
  all_ev not_rmtree;
    solve [apply not_rmtree_check_head
          | apply not_rmtree_annexdataset; exact Hr
          | apply not_rmtree_ria].
Qed.

(** What the loop removes is the destination, and only what is in it
    when the destination was there before. *)
Lemma wipes_only_attempt_loop (destds : Dataset) (existed : bool)
  (rp : result_props) (cands : list props) :
  forall (errs : OrderedDict.t CommandError) (last : option props)
         (w : World),
    all_events (wipes_only destds existed)
               (trace (attempt_loop destds existed rp cands errs last w)).
Proof.
  assert (Hw : wipes_only destds existed (EvRmtree destds existed) = true).
  { cbn. rewrite String.eqb_refl. now destruct existed. }
  induction cands as [|cand rest IH]; intros errs last w.
  - reflexivity.
  - rewrite attempt_loop_cons. cbv zeta.
    destruct (GitRepo_clone w destds (giturl cand) (clone_branch cand))
      as [w1 [e|]]; cbn [fst snd]; [|reflexivity].
    assert (Hc : all_events (wipes_only destds existed)
                   (cleanup_events destds existed cand e
                                   (path_exists w1 destds))).
    { unfold cleanup_events.
      destruct (path_exists w1 destds); [|reflexivity].
      repeat (apply all_events_cons; [first [exact Hw | reflexivity]|]).
      reflexivity. }
    destruct (worktree_failure (ce_stderr e)); cbn [trace].
    + apply all_events_app; [|reflexivity].
      apply all_events_cons; [reflexivity|].
      apply all_events_cons; [reflexivity | exact Hc].
    + apply all_events_app; [|apply IH].
      apply all_events_cons; [reflexivity|].
      apply all_events_cons; [reflexivity | exact Hc].
Qed.

End RemovalFacts.

Section CloneDatasetMore.

Context {N : Network} {H : Helpers} {World : Type} {C : Collaborators World}.

Variable fuel : nat.
Variable srcs : list string.
Variable destds : Dataset.
Variables reckless description : option string.
Variable rprops : option result_props.

#[local] Abbreviation the_rp :=
  (match rprops with
   | Some rp => rp
   | None => default_result_props destds
   end).

#[local] Abbreviation the_run :=
  (clone_dataset fuel srcs destds reckless description rprops).

(** X5. Without any candidate to try (no specification at all, or none
    with a variant of its fetch URL), a run into a destination that is
    absent or empty does not yield any record: it logs the start and the
    end of the attempts and fails on the loop variable, which was never
    bound.  The world is as before. *)
Theorem clone_dataset_no_candidates (decoded : list props) (w : World) :
  decode_all srcs = Ok decoded ->
  expand_candidates decoded = [] ->
  path_exists w destds && path_nonempty w destds = false ->
  the_run w
  = mkRun [EvProgress "Cloning dataset to %s" [destds];
           EvProgress "Completed clone attempts for %s" [destds]]
          w (Raised (NameError "cand")).
Proof.
  intros Hd He Hu.
  rewrite (clone_dataset_usable fuel srcs destds reckless description rprops
             decoded w Hd Hu).
  cbv zeta. rewrite He. cbn [attempt_loop ret out trace final app].
  unfold after_loop, bind, log_progress, emit, observe, raise.
  cbn [out trace final app].
  destruct (is_installed w destds); reflexivity.
Qed.

(** X6. Outside the mode 'ephemeral', all that a run ever removes is the
    destination; and where the destination was there before the run, only
    what is in it: every removal is one of the destination with
    [children_only] as [dest_path.exists()] was at the start. *)
Theorem clone_dataset_removes_only_destination (w : World) :
  reckless <> Some "ephemeral" ->
  all_events (wipes_only destds (path_exists w destds)) (trace (the_run w)).
Proof.
  intros Hr.
  destruct (decode_all srcs) as [decoded|e] eqn:Hd.
  2:{ now rewrite (clone_dataset_undecodable fuel srcs destds reckless
                     description rprops e w Hd). }
  destruct (path_exists w destds && path_nonempty w destds) eqn:Hu.
  - apply andb_true_iff in Hu as [He Hn].
    rewrite (clone_dataset_existing fuel srcs destds reckless description
               rprops decoded w Hd He Hn), existing_destination_run.
    destruct (if is_installed w destds then _ else _); reflexivity.
  - rewrite (clone_dataset_usable fuel srcs destds reckless description
               rprops decoded w Hd Hu). cbv zeta.
    pose proof (wipes_only_attempt_loop destds (path_exists w destds) the_rp
                  (expand_candidates decoded) [] None w) as Hloop.
    destruct (out (attempt_loop destds (path_exists w destds) the_rp
                                (expand_candidates decoded) [] None w))
      as [[|errs cand winner]|e|]; cbn [trace];
      try (apply all_events_cons; [reflexivity | exact Hloop]).
    apply all_events_cons; [reflexivity|].
    apply all_events_app; [exact Hloop|].
    eapply all_events_weaken;
      [|apply not_rmtree_after_loop; exact Hr].
    intros [] He; try reflexivity; discriminate.
Qed.

(** X7. When the first candidate is reported as cloned and yet there
    is no installed dataset at the destination, the run yields one record,
    the 'Awkward error' with the destination and the fetch URL; the record
    has the candidate under 'source'.  Nothing is done after the transfer:
    no repair of HEAD, no annex, no configuration. *)
Theorem clone_dataset_awkward (decoded rest : list props) (c : props)
  (w w1 : World) :
  decode_all srcs = Ok decoded ->
  path_exists w destds && path_nonempty w destds = false ->
  expand_candidates decoded = c :: rest ->
  GitRepo_clone w destds (giturl c) (clone_branch c) = (w1, None) ->
  is_installed w1 destds = false ->
  the_run w
  = mkRun [EvProgress "Cloning dataset to %s" [destds];
           EvProgress "Attempting to clone from %s to %s" [giturl c; destds];
           EvClone destds (giturl c) (clone_branch c) None;
           EvProgress "Completed clone attempts for %s" [destds];
           EvYield (get_status_dict error
                      (Some (awkward_message destds c))
                      (set_source the_rp c))]
          w1 (Returned tt).
Proof.
  intros Hd Hu He Hc Hi.
  rewrite (clone_dataset_usable fuel srcs destds reckless description rprops
             decoded w Hd Hu).
  cbv zeta. rewrite He, attempt_loop_cons. cbv zeta. rewrite Hc.
  cbn [fst snd out trace final app].
  unfold after_loop, bind, log_progress, emit, observe, yield.
  cbn [out trace final app]. rewrite Hi. reflexivity.
Qed.

(** The remaining steps where there is no annex and the source is not a
    RIA store, outside the modes [shared-...]. *)
Lemma finish_clone_plain_run (rp : result_props) (src : props) (w : World) :
  knows_annex w destds = false ->
  is_shared reckless = false ->
  rp_source rp = Some src ->
  type src <> type_ria ->
  finish_clone fuel destds reckless description rp w
  = mkRun [EvYield (get_status_dict ok None rp)] w (Returned tt).
Proof.
  intros Ha Hs Hsrc Hty. unfold finish_clone.
  assert (Hannex : postclonecfg_annexdataset fuel destds reckless description w
                   = mkRun [] w (Returned tt)).
  { unfold postclonecfg_annexdataset. unfold bind at 1.
    cbn [observe out trace final]. now rewrite Ha. }
  destruct reckless as [r|];
    [cbn [is_shared] in Hs; rewrite Hs; cbn [when]|];
    unfold bind; cbn [ret out trace final app]; rewrite Hannex;
    cbn [out trace final app]; rewrite Hsrc;
    destruct (type src); try contradiction; reflexivity.
Qed.

(** X8. A source without annex that is not a RIA store, cloned at the
    first attempt with HEAD at a commit (or with a version asked for):
    the run is the transfer and the 'ok' record, between the progress
    lines, and nothing else.  Outside the modes [shared-...] the reckless
    mode has no effect at all on such a clone, and is not stored either. *)
Theorem clone_dataset_plain_git (decoded rest : list props) (c : props)
  (w w1 : World) :
  decode_all srcs = Ok decoded ->
  path_exists w destds && path_nonempty w destds = false ->
  expand_candidates decoded = c :: rest ->
  GitRepo_clone w destds (giturl c) (clone_branch c) = (w1, None) ->
  is_installed w1 destds = true ->
  truthy_opt (version c) || commit_exists w1 destds "HEAD" = true ->
  knows_annex w1 destds = false ->
  type c <> type_ria ->
  is_shared reckless = false ->
  the_run w
  = mkRun [EvProgress "Cloning dataset to %s" [destds];
           EvProgress "Attempting to clone from %s to %s" [giturl c; destds];
           EvClone destds (giturl c) (clone_branch c) None;
           EvProgress "Completed clone attempts for %s" [destds];
           EvYield (get_status_dict ok None (set_source the_rp c))]
          w1 (Returned tt).
Proof.
  intros Hd Hu He Hc Hi Hhead Ha Hty Hs.
  assert (Hr1 : when (negb (truthy_opt (version c)))
                     (postclone_check_head destds) w1
                = mkRun [] w1 (Returned tt)).
  { destruct (truthy_opt (version c)); [reflexivity|].
    cbn [negb when]. cbn [orb] in Hhead.
    now rewrite postclone_check_head_run, Hhead. }
  assert (Hal : after_loop fuel destds reckless description the_rp
                           [] (Some c) (Some c) w1
                = mkRun [EvProgress "Completed clone attempts for %s" [destds];
                         EvYield (get_status_dict ok None
                                    (set_source the_rp c))]
                        w1 (Returned tt)).
  { etransitivity;
      [exact (after_loop_installed fuel destds reckless description the_rp
                [] c (Some c) w1 Hi)|].
    cbv zeta. rewrite Hr1. cbn [trace final app].
    now rewrite (finish_clone_plain_run (set_source the_rp c) c w1 Ha Hs
                   eq_refl Hty). }
  rewrite (clone_dataset_usable fuel srcs destds reckless description rprops
             decoded w Hd Hu).
  cbv zeta. rewrite He, attempt_loop_cons. cbv zeta. rewrite Hc.
  cbn [fst snd out trace final app].
  now rewrite Hal.
Qed.

End CloneDatasetMore.

(* ===================================================================== *)
(** ** More on the set-up of the annex *)
(* ===================================================================== *)

Section AnnexMore.

Context {N : Network} {H : Helpers} {World : Type} {C : Collaborators World}.

Lemma reckless_setup_returns (d : Dataset) (reckless : option string)
  (w : World) :
  out (reckless_setup d reckless w) = Returned tt.
Proof.
  unfold reckless_setup.
  destruct (is_mode reckless "auto" || is_shared reckless); [reflexivity|].
  destruct (is_mode reckless "ephemeral") eqn:E; [|reflexivity].
  assert (Hr : reckless = Some "ephemeral").
  { destruct reckless as [r|]; [|discriminate].
    cbn in E. apply String.eqb_eq in E. now subst. }
  pose proof (reckless_setup_ephemeral_returns d w) as Hret.
  unfold reckless_setup in Hret. subst reckless. exact Hret.
Qed.

Lemma shared_is_not_auto (r : string) :
  PyStr.startswith "shared-" r = true ->
  String.eqb r "auto" = false /\ PyStr.truthy r = true.
Proof.
  destruct r as [|a r]; [discriminate|]. cbn [PyStr.startswith].
  intros Hs. apply andb_true_iff in Hs as [Ha _].
  apply Ascii.eqb_eq in Ha. subst a. now split.
Qed.

(** [postclonecfg_annexdataset] where the source has an annex. *)
Lemma postclonecfg_annexdataset_run (fuel : nat) (d : Dataset)
  (reckless description : option string) (w : World) :
  knows_annex w d = true ->
  let auto := is_mode reckless "auto" in
  let w0 := if auto then config_set w d "annex.hardlink" "true" else w in
  let w1 := AnnexRepo w0 d in
  let init := negb (is_initialized w1 d) || truthy_opt description in
  let w2 := if init then _init w1 d description else w1 in
  let rs := reckless_setup d reckless w2 in
  let rr := annex_report fuel d reckless (final rs) in
  postclonecfg_annexdataset fuel d reckless description w =
  mkRun ((if auto
          then [EvLog debug
                      "Instruct annex to hardlink content in %s from local sources, if possible (reckless)"
                      [d];
                EvConfigSet d "annex.hardlink" "true"]
          else [])
         ++ EvLog debug "Initializing annex repo at %s" [d]
         :: EvAnnexRepo d
         :: (if init then [EvAnnexInit d description] else [])
         ++ trace rs ++ trace rr)%list
        (final rr) (out rr).
Proof.
  intros Hannex auto w0 w1 init w2 rs rr. unfold postclonecfg_annexdataset.
  erewrite bind_run by reflexivity.
  cbn [observe trace final out app]. rewrite Hannex. cbn [negb].
  fold auto.
  assert (Hwhen :
            when auto
                 (bind (log debug
                          "Instruct annex to hardlink content in %s from local sources, if possible (reckless)"
                          [d])
                       (fun _ => do_config_set d "annex.hardlink" "true")) w
            = mkRun (if auto
                     then [EvLog debug
                                 "Instruct annex to hardlink content in %s from local sources, if possible (reckless)"
                                 [d];
                           EvConfigSet d "annex.hardlink" "true"]
                     else [])
                    w0 (Returned tt)).
  { subst w0. now destruct auto. }
  erewrite bind_run by (rewrite Hwhen; reflexivity).
  rewrite Hwhen. cbn [trace final out].
  erewrite bind_run by reflexivity. cbn [log emit trace final out app].
  erewrite bind_run by reflexivity. cbn [act trace final out app].
  erewrite bind_run by reflexivity. cbn [observe trace final out app].
  fold w1. fold init.
  erewrite bind_run by (rewrite when_act_run; reflexivity).
  rewrite when_act_run. cbn [trace final out]. fold w2.
  erewrite bind_run by apply reckless_setup_returns.
  fold rs. fold rr. reflexivity.
Qed.

(** The remaining steps of [postclonecfg_annexdataset] only log, set up
    siblings and yield records, but for the reckless mode that is stored
    first. *)
Lemma annex_report_run (fuel : nat) (d : Dataset)
  (reckless : option string) (w : World) :
  let stored := truthy_opt reckless in
  let r := match reckless with Some r => r | None => EmptyString end in
  exists post,
    trace (annex_report fuel d reckless w)
    = ((if stored then [EvConfigSet d "datalad.clone.reckless" r] else [])
       ++ post)%list
    /\ all_events report_only post.
Proof.
  intros stored r. unfold annex_report. rewrite bind_trace.
  assert (Hfirst :
            match reckless with
            | Some r0 =>
                when (PyStr.truthy r0)
                     (do_config_set d "datalad.clone.reckless" r0)
            | None => ret tt
            end w
            = mkRun (if stored
                     then [EvConfigSet d "datalad.clone.reckless" r] else [])
                    (if stored
                     then config_set w d "datalad.clone.reckless" r else w)
                    (Returned tt)).
  { subst stored r. destruct reckless as [r0|]; [|reflexivity].
    cbn [truthy_opt]. now destruct (PyStr.truthy r0). }
  rewrite Hfirst. cbn [trace final out]. eexists. split; [reflexivity|].
  all_ev report_only;
    solve [apply all_events_special_remotes; reflexivity
          | apply all_events_configure_origins; reflexivity].
Qed.

(** X9. In the modes 'auto' and [shared-...], where the source has an
    annex: the annex is told to hardlink before it is set up (mode 'auto'
    only); it is set up, and initialized when it was not or when there is a
    description; then 'here' is untrusted and the mode is stored under
    [datalad.clone.reckless].  What follows only logs, sets up siblings
    and yields records. *)
Theorem annexdataset_untrusted_modes (fuel : nat) (d : Dataset) (r : string)
  (description : option string) (w : World) :
  knows_annex w d = true ->
  r = "auto" \/ PyStr.startswith "shared-" r = true ->
  let auto := String.eqb r "auto" in
  let w0 := if auto then config_set w d "annex.hardlink" "true" else w in
  let w1 := AnnexRepo w0 d in
  let init := negb (is_initialized w1 d) || truthy_opt description in
  exists post,
    trace (postclonecfg_annexdataset fuel d (Some r) description w)
    = ((if auto
        then [EvLog debug
                    "Instruct annex to hardlink content in %s from local sources, if possible (reckless)"
                    [d];
              EvConfigSet d "annex.hardlink" "true"]
        else [])
       ++ [EvLog debug "Initializing annex repo at %s" [d]; EvAnnexRepo d]
       ++ (if init then [EvAnnexInit d description] else [])
       ++ [EvAnnexCommand d "untrust" ["here"];
           EvConfigSet d "datalad.clone.reckless" r]
       ++ post)%list
    /\ all_events report_only post.
Proof.
  intros Hannex Hmode auto w0 w1 init.
  rewrite (postclonecfg_annexdataset_run fuel d (Some r) description w Hannex).
  cbv zeta. cbn [trace is_mode opt_str_eqb]. fold auto. fold w0. fold w1.
  fold init.
  set (w2 := if init then _init w1 d description else w1).
  assert (Htruthy : PyStr.truthy r = true).
  { destruct Hmode as [->|Hs]; [reflexivity|].
    apply (shared_is_not_auto r Hs). }
  assert (Hsetup : reckless_setup d (Some r) w2
                   = mkRun [EvAnnexCommand d "untrust" ["here"]]
                           (_run_annex_command w2 d "untrust" ["here"])
                           (Returned tt)).
  { unfold reckless_setup. cbn [is_mode opt_str_eqb is_shared].
    rewrite Htruthy. cbn [andb].
    destruct Hmode as [->|Hs]; [reflexivity|].
    rewrite Hs, orb_true_r. reflexivity. }
  rewrite Hsetup. cbn [trace final].
  destruct (annex_report_run fuel d (Some r)
              (_run_annex_command w2 d "untrust" ["here"]))
    as (post & Hpost & Hq).
  cbn [truthy_opt] in Hpost. rewrite Htruthy in Hpost.
  exists post. split; [|exact Hq].
  rewrite Hpost. destruct auto; destruct init; reflexivity.
Qed.

(** X10. Without traces of an annex, [postclonecfg_annexdataset] does
    nothing at all.  With them, the annex is set up once, and initialized
    right after that, once, exactly when it is not initialized by then or
    a description was given that is not empty; nothing else in the run
    sets up or initializes an annex. *)
Theorem annexdataset_init_condition (fuel : nat) (d : Dataset)
  (reckless description : option string) (w : World) :
  let r := postclonecfg_annexdataset fuel d reckless description w in
  (knows_annex w d = false -> r = mkRun [] w (Returned tt))
  /\ (knows_annex w d = true ->
      let w0 := if is_mode reckless "auto"
                then config_set w d "annex.hardlink" "true" else w in
      let w1 := AnnexRepo w0 d in
      let init := negb (is_initialized w1 d) || truthy_opt description in
      exists pre post,
        trace r = (pre ++ EvAnnexRepo d
                       :: (if init then [EvAnnexInit d description] else [])
                       ++ post)%list
        /\ all_events not_annex_init pre
        /\ all_events not_annex_init post).
Proof.
  intros r. subst r. split.
  - intros Ha. unfold postclonecfg_annexdataset. unfold bind at 1.
    cbn [observe out trace final]. now rewrite Ha.
  - intros Ha w0 w1 init.
    rewrite (postclonecfg_annexdataset_run fuel d reckless description w Ha).
    cbv zeta. cbn [trace]. fold w0. fold w1. fold init.
    set (w2 := if init then _init w1 d description else w1).
    exists ((if is_mode reckless "auto"
             then [EvLog debug
                         "Instruct annex to hardlink content in %s from local sources, if possible (reckless)"
                         [d];
                   EvConfigSet d "annex.hardlink" "true"]
             else [])
            ++ [EvLog debug "Initializing annex repo at %s" [d]])%list.
    exists (trace (reckless_setup d reckless w2)
            ++ trace (annex_report fuel d reckless
                        (final (reckless_setup d reckless w2))))%list.
    split; [|split].
    + rewrite <- app_assoc. reflexivity.
    + now destruct (is_mode reckless "auto").
    + apply all_events_app.
      * unfold reckless_setup, ephemeral_symlink. all_ev not_annex_init.
      * unfold annex_report. all_ev not_annex_init;
          solve [apply all_events_special_remotes; reflexivity
                | apply all_events_configure_origins; reflexivity].
Qed.

Lemma unbound_special_remotes_cons (d : Dataset) (w : World) (b : bool)
  (uuid : string) (config : special_remote)
  (items : list (string * special_remote)) :
  unbound_special_remotes d w b ((uuid, config) :: items)
  = (match sr_name config, autoenable_of config with
     | Some name, Some b' =>
         if PyStr.truthy uuid
            && negb (existsb (opt_str_eqb (Some uuid))
                             (map (remote_uuid d w) (get_remotes w d)))
            && Bool.eqb b' b
         then [name] else []
     | _, _ => []
     end ++ unbound_special_remotes d w b items)%list.
Proof. reflexivity. Qed.

(** The loop over the special remotes, with its two lists. *)
Lemma special_remotes_loop_run (d : Dataset)
  (items : list (string * special_remote)) :
  forall (srs_t srs_f : list string) (w : World),
  exists t,
    special_remotes_loop d items srs_t srs_f w
    = mkRun t w
        (Returned ((srs_t ++ unbound_special_remotes d w true items)%list,
                   (srs_f ++ unbound_special_remotes d w false items)%list)).
Proof.
  induction items as [|[uuid config] items IH]; intros srs_t srs_f w.
  - exists []. cbn. now rewrite !app_nil_r.
  - rewrite !unbound_special_remotes_cons.
    cbn [special_remotes_loop].
    fold (autoenable_of config).
    destruct (sr_name config) as [name|].
    2:{ destruct (IH srs_t srs_f w) as [t Ht]. eexists.
        unfold bind, log, emit. cbn [out trace final app].
        rewrite Ht. reflexivity. }
    destruct (autoenable_of config) as [autoenable|].
    2:{ destruct (IH srs_t srs_f w) as [t Ht]. eexists.
        unfold bind, log, emit. cbn [out trace final app].
        rewrite Ht. reflexivity. }
    destruct (PyStr.truthy uuid); cbn [andb].
    2:{ cbn [app]. apply IH. }
    unfold bind, observe. cbn [out trace final].
    destruct (existsb (opt_str_eqb (Some uuid))
                      (map (remote_uuid d w) (get_remotes w d)));
      cbn [negb andb].
    { destruct (IH srs_t srs_f w) as [t Ht]. exists t.
      rewrite Ht. reflexivity. }
    destruct autoenable; cbn [Bool.eqb app].
    + destruct (IH (srs_t ++ [name])%list srs_f w) as [t Ht]. exists t.
      rewrite Ht, <- app_assoc. reflexivity.
    + destruct (IH srs_t (srs_f ++ [name])%list w) as [t Ht]. exists t.
      rewrite Ht, <- app_assoc. reflexivity.
Qed.

(** X11. The loop over the special remotes informs and nothing else:
    it returns, whatever it finds, leaves the world as it is and only
    logs.  The two lists it hands back are the names of the special remotes
    with a name, a readable [autoenable] (absent reads as false) and a UUID
    that is not empty and not that of any remote, in their order: those
    with [autoenable] on, and those with it off. *)
Theorem special_remotes_report (d : Dataset)
  (items : list (string * special_remote)) (w : World) :
  let r := special_remotes_loop d items [] [] w in
  out r = Returned (unbound_special_remotes d w true items,
                    unbound_special_remotes d w false items)
  /\ final r = w
  /\ all_events log_only (trace r).
Proof.
  intros r. subst r.
  destruct (special_remotes_loop_run d items [] [] w) as [t Ht].
  rewrite Ht. cbn [out final]. repeat split.
  rewrite <- Ht. apply all_events_special_remotes. reflexivity.
Qed.

(** X21. In the mode 'ephemeral', on a file system that can make
    symbolic links: when origin has no URL, or a URL that is no local path,
    the annex directory is left as it is: nothing is removed, unlinked or
    linked in the whole run.  For a URL that is no local path a warning
    says so. *)
Theorem ephemeral_without_local_origin (fuel : nat) (d : Dataset)
  (description : option string) (w : World) :
  knows_annex w d = true ->
  let w1 := AnnexRepo w d in
  let w2 := if negb (is_initialized w1 d) || truthy_opt description
            then _init w1 d description else w1 in
  let w3 := set_remote_dead
              (config_set w2 d "remote.origin.annex-ignore" "true")
              d "here" in
  let r := postclonecfg_annexdataset fuel d (Some "ephemeral") description w in
  check_symlink_capability w3 (Path_join (dot_git w3 d) "dl_link_test")
                           (Path_join (dot_git w3 d) "dl_target_test")
  = true ->
  ((config_get w3 d "remote.origin.url" = None
    \/ config_get w3 d "remote.origin.url" = Some EmptyString
    \/ exists url, config_get w3 d "remote.origin.url" = Some url
                   /\ localpath url = None) ->
   all_events not_file_change (trace r))
  /\ (forall url,
         config_get w3 d "remote.origin.url" = Some url ->
         url <> EmptyString ->
         localpath url = None ->
         In (EvLog warning
                   "reckless=ephemeral mode: origin doesn't seem local: %s; no symlinks being used"
                   [url])
            (trace r)).
Proof.
  intros Hannex w1 w2 w3 r Hcan. subst r.
  rewrite (postclonecfg_annexdataset_ephemeral fuel d description w Hannex).
  cbv zeta. fold w1. fold w2. cbn [trace].
  rewrite (reckless_setup_ephemeral d w2). cbv zeta. fold w3.
  rewrite Hcan. rewrite ephemeral_symlink_run. cbv zeta.
  set (rr := annex_report fuel d (Some "ephemeral")).
  assert (Hrr : forall v, all_events not_file_change (trace (rr v))).
  { intros v. subst rr. unfold annex_report. all_ev not_file_change;
      solve [apply all_events_special_remotes; reflexivity
            | apply all_events_configure_origins; reflexivity]. }
  assert (Hpre : forall t,
             all_events not_file_change t ->
             all_events not_file_change
               (EvLog debug "Initializing annex repo at %s" [d]
                :: EvAnnexRepo d
                :: (if negb (is_initialized w1 d) || truthy_opt description
                    then [EvAnnexInit d description] else [])
                ++ t)%list).
  { intros t Ht. apply all_events_cons; [reflexivity|].
    apply all_events_cons; [reflexivity|].
    apply all_events_app; [|exact Ht].
    now destruct (negb (is_initialized w1 d) || truthy_opt description). }
  split.
  - intros Hurl. apply Hpre.
    destruct (config_get w3 d "remote.origin.url") as [url|] eqn:Hu.
    + destruct (PyStr.truthy url) eqn:Ht.
      * destruct Hurl as [Hn|[He|(url' & Hu' & Hl)]]; try discriminate.
        -- injection He as ->. discriminate.
        -- injection Hu' as <-. rewrite Hl. cbn [trace final].
           apply all_events_app; [reflexivity | apply Hrr].
      * cbn [trace final]. apply all_events_app; [reflexivity | apply Hrr].
    + cbn [trace final]. apply all_events_app; [reflexivity | apply Hrr].
  - intros url Hu Hne Hl. rewrite Hu, Hl.
    destruct url as [|a url]; [congruence|]. cbn [PyStr.truthy trace final].
    right. right.
    apply in_or_app. right. apply in_or_app. left.
    cbn. right. right. now left.
Qed.

End AnnexMore.

(* ===================================================================== *)
(** ** The re-init for shared access *)
(* ===================================================================== *)

Section SharedReinit.

Context {N : Network} {H : Helpers} {World : Type} {C : Collaborators World}.




End SharedReinit.

(* ===================================================================== *)
(** ** The configuration of a clone from a RIA store *)
(* ===================================================================== *)

Section RiaFacts.

Context {N : Network} {H : Helpers} {World : Type} {C : Collaborators World}.

Variable d : Dataset.
Variable p : props.
Variable w : World.

#[local] Abbreviation candidate_value :=
  (before_first "#"%char (source p) ++ "#{id}").

#[local] Abbreviation w2 :=
  (config_set (config_set w d "remote.origin.annex-ignore" "true") d
              "datalad.get.subdataset-source-candidate-200origin"
              candidate_value).

#[local] Abbreviation cfgs :=
  [EvConfigSet d "remote.origin.annex-ignore" "true";
   EvConfigSet d "datalad.get.subdataset-source-candidate-200origin"
               candidate_value].

#[local] Abbreviation known_ora :=
  (if is_AnnexRepo w2 d
   then existsb (fun kv => is_ora (sr_externaltype (snd kv)))
                (get_special_remotes w2 d)
   else false).

(** X13. The configuration of a clone from a RIA store begins with two
    settings: origin is to be ignored by the annex, and the store is a
    source candidate for subdatasets, as the specification up to its
    first [#] with [#{id}] appended.  When the siblings then show one ORA
    remote, origin is made to depend on it for publication and the store is
    not asked for anything; with more than one only a warning is logged;
    with none, and no ORA special remote known to the repository (or no
    annex), nothing else happens. *)
Theorem ria_publication_dependency :
  (forall r : sibling,
      query_ora_remotes d w2 = [r] ->
      let sc := siblings_configure w2 d "origin" None (Some (sib_name r))
                                   false in
      postclonecfg_ria d p w
      = mkRun (cfgs
               ++ EvSiblingsConfigure d "origin" None (Some (sib_name r)) false
               :: map EvYield (snd sc))%list
              (fst sc) (Returned tt))
  /\ (forall (r1 r2 : sibling) (more : list sibling),
         query_ora_remotes d w2 = r1 :: r2 :: more ->
         postclonecfg_ria d p w
         = mkRun (cfgs
                  ++ [EvLog warning
                            "Found multiple ORA remotes. Couldn't decide which publishing to 'origin' should depend on: %s."
                            [PyStr.join ", "
                                        (map sib_name (r1 :: r2 :: more))]])%list
                 w2 (Returned tt))
  /\ (query_ora_remotes d w2 = [] ->
      known_ora = false ->
      postclonecfg_ria d p w = mkRun cfgs w2 (Returned tt)).
Proof.
  split; [|split].
  - intros r Hq sc. unfold postclonecfg_ria.
    erewrite bind_run by reflexivity.
    cbn [do_config_set act trace final out app].
    erewrite bind_run by reflexivity.
    cbn [do_config_set act trace final out app].
    erewrite bind_run by reflexivity. cbn [observe trace final out app].
    erewrite bind_run by reflexivity. cbn [observe trace final out app].
    rewrite Hq.
    erewrite bind_run by reflexivity. cbn [ret trace final out app].
    now rewrite do_siblings_configure_run.
  - intros r1 r2 more Hq. unfold postclonecfg_ria.
    erewrite bind_run by reflexivity.
    cbn [do_config_set act trace final out app].
    erewrite bind_run by reflexivity.
    cbn [do_config_set act trace final out app].
    erewrite bind_run by reflexivity. cbn [observe trace final out app].
    erewrite bind_run by reflexivity. cbn [observe trace final out app].
    rewrite Hq.
    erewrite bind_run by reflexivity. cbn [ret trace final out app].
    reflexivity.
  - intros Hq Hk. unfold postclonecfg_ria.
    erewrite bind_run by reflexivity.
    cbn [do_config_set act trace final out app].
    erewrite bind_run by reflexivity.
    cbn [do_config_set act trace final out app].
    erewrite bind_run by reflexivity. cbn [observe trace final out app].
    erewrite bind_run by reflexivity. cbn [observe trace final out app].
    rewrite Hq, Hk.
    erewrite bind_run by reflexivity. cbn [ret trace final out app].
    reflexivity.
Qed.

Lemma bind_eq {A B} (m : M World A) (f : A -> M World B) (v : World)
  (t : list event) (v' : World) (a : A) :
  m v = mkRun t v' (Returned a) ->
  bind m f v = mkRun (t ++ trace (f a v'))%list (final (f a v'))
                     (out (f a v')).
Proof. unfold bind. now intros ->. Qed.

Lemma bind_raised {A B} (m : M World A) (f : A -> M World B) (v : World)
  (t : list event) (v' : World) (e : exn) :
  m v = mkRun t v' (Raised e) -> bind m f v = mkRun t v' (Raised e).
Proof. unfold bind. now intros ->. Qed.

Ltac ria_simpl :=
  cbn [do_config_set act observe log emit ret trace final out app].

Ltac ria_step :=
  erewrite bind_run by reflexivity;
  cbn [do_config_set act observe call log emit ret trace final out app].

#[local] Abbreviation looking_up :=
  (EvLog debug
         "Found no autoenabled ORA special remote. Trying to look it up in source config ..."
         []).

(** X14. Where the siblings show no ORA remote but the repository knows
    an ORA special remote, the store is asked for its configuration only
    when the fetch URL has the scheme [http], [ssh] or [file].  With any
    other scheme, [https] among them, nothing is read, no special remote
    is enabled and no dependency is set: two debug lines are all that
    follows the two settings. *)
Theorem ria_unsupported_scheme :
  query_ora_remotes d w2 = [] ->
  known_ora = true ->
  str_in (before_first ":"%char (giturl p)) ["http"; "ssh"; "file"] = false ->
  postclonecfg_ria d p w
  = mkRun (cfgs
           ++ [looking_up;
               EvLog debug
                     "Unknown URL-Scheme in %s. Can handle SSH, HTTP or FILE scheme URLs."
                     [source p]])%list
          w2 (Returned tt).
Proof.
  intros Hq Hk Hscheme. cbn [str_in existsb] in Hscheme.
  apply orb_false_iff in Hscheme as [Hhttp Hscheme].
  apply orb_false_iff in Hscheme as [Hssh Hscheme].
  apply orb_false_iff in Hscheme as [Hfile _].
  unfold postclonecfg_ria.
  do 4 ria_step. rewrite Hq, Hk.
  unfold ria_config_content. rewrite Hhttp, Hssh, Hfile.
  erewrite bind_run.
  2:{ do 3 ria_step. reflexivity. }
  do 3 ria_step. reflexivity.
Qed.

(** X15. Where the siblings show no ORA remote, the repository knows an
    ORA special remote and the clone came over [http], the file [config]
    under the fetch URL is read, and when it names a UUID under
    [datalad.ora-remote.uuid], the special remote with that UUID is
    enabled with the store (the specification up to its first [#]) as its
    URL.  Only when that succeeds the siblings are asked again, and a
    dependency is set when they show one ORA remote now.  A UUID that the
    repository does not know is logged; enabling that fails is logged; a
    special remote with that UUID and no name makes the run fail. *)
Theorem ria_probe_over_http (content stdout : string) :
  query_ora_remotes d w2 = [] ->
  known_ora = true ->
  before_first ":"%char (giturl p) = "http" ->
  let location :=
    giturl p ++ (if negb (PyStr.endswith "/" (giturl p))
                 then "/" else EmptyString) ++ "config" in
  requests_get w2 location = Some content ->
  content <> EmptyString ->
  git_config_get w2 content "datalad.ora-remote.uuid" = Some stdout ->
  let uuid := PyStr.strip stdout in
  uuid <> EmptyString ->
  let new_url := before_first "#"%char (source p) in
  let probe := [looking_up; EvReadConfig "http" location] in
  match find (fun kv => String.eqb (fst kv) uuid)
             (get_special_remotes w2 d) with
  | None =>
      postclonecfg_ria d p w
      = mkRun (cfgs ++ probe
               ++ [EvLog debug "Unknown ORA special remote uuid at '%s': %s"
                         ["origin"; uuid]])%list
              w2 (Returned tt)
  | Some (_, sr) =>
      match sr_name sr with
      | None =>
          postclonecfg_ria d p w
          = mkRun (cfgs ++ probe)%list w2 (Raised (KeyError "name"))
      | Some name =>
          let en := enable_remote w2 d name ["url=" ++ new_url] in
          let enabling := EvEnableRemote d name ["url=" ++ new_url] in
          match snd en with
          | Some e =>
              postclonecfg_ria d p w
              = mkRun (cfgs ++ probe
                       ++ [enabling (Some e);
                           EvLog debug
                                 "Failed to reconfigure ORA special remote: %s"
                                 [exc_str e]])%list
                      (fst en) (Returned tt)
          | None =>
              let enabled :=
                [enabling None;
                 EvLog info "Reconfigured %s for %s" [name; new_url]] in
              match query_ora_remotes d (fst en) with
              | [] =>
                  postclonecfg_ria d p w
                  = mkRun (cfgs ++ probe ++ enabled)%list
                          (fst en) (Returned tt)
              | [r] =>
                  let sc := siblings_configure (fst en) d "origin" None
                                               (Some (sib_name r)) false in
                  postclonecfg_ria d p w
                  = mkRun (cfgs ++ probe ++ enabled
                           ++ EvSiblingsConfigure d "origin" None
                                                  (Some (sib_name r)) false
                           :: map EvYield (snd sc))%list
                          (fst sc) (Returned tt)
              | r1 :: r2 :: more =>
                  postclonecfg_ria d p w
                  = mkRun (cfgs ++ probe ++ enabled
                           ++ [EvLog warning
                                     "Found multiple ORA remotes. Couldn't decide which publishing to 'origin' should depend on: %s."
                                     [PyStr.join ", "
                                        (map sib_name (r1 :: r2 :: more))]])%list
                          (fst en) (Returned tt)
              end
          end
      end
  end.
Proof.
  intros Hq Hk Hscheme location Hget Hcontent Hgit uuid Huuid new_url probe.
  subst new_url probe.
  assert (Htc : PyStr.truthy content = true)
    by (destruct content; [congruence | reflexivity]).
  assert (Htu : PyStr.truthy uuid = true)
    by (destruct uuid; [congruence | reflexivity]).
  assert (Hcfg : ria_config_content p w2
                 = mkRun [EvReadConfig "http" location] w2
                         (Returned (Some content))).
  { unfold ria_config_content. rewrite Hscheme.
    cbn [String.eqb Ascii.eqb Bool.eqb]. fold location.
    unfold bind, call. cbn [out trace final]. rewrite Hget. reflexivity. }
  unfold postclonecfg_ria.
  do 4 ria_step. rewrite Hq, Hk.
  assert (Hprobe : forall (K : option string -> M World (list sibling)),
             bind (log debug
                       "Found no autoenabled ORA special remote. Trying to look it up in source config ..."
                       [])
                  (fun _ =>
                     bind (ria_config_content p)
                          (fun config_content =>
                             bind (if truthy_opt config_content
                                   then
                                     bind (observe
                                             (fun v =>
                                                git_config_get v
                                                  match config_content with
                                                  | Some c => c
                                                  | None => EmptyString
                                                  end
                                                  "datalad.ora-remote.uuid"))
                                          (fun r =>
                                             match r with
                                             | Some stdout0 =>
                                                 ret (Some (PyStr.strip stdout0))
                                             | None =>
                                                 bind (log debug
                                                         "Found no UUID for ORA special remote at '%s' (%s)"
                                                         ["origin"])
                                                      (fun _ => ret None)
                                             end)
                                   else ret None)
                                  K)) w2
             = mkRun ([looking_up; EvReadConfig "http" location]
                      ++ trace (K (Some uuid) w2))%list
                     (final (K (Some uuid) w2)) (out (K (Some uuid) w2))).
  { intros K.
    erewrite bind_eq by reflexivity. ria_simpl.
    erewrite bind_eq by exact Hcfg. ria_simpl.
    cbn [truthy_opt]. rewrite Htc.
    erewrite bind_eq
      by (erewrite bind_eq by reflexivity; ria_simpl; rewrite Hgit;
          reflexivity).
    ria_simpl. reflexivity. }
  destruct (find (fun kv => String.eqb (fst kv) uuid)
                 (get_special_remotes w2 d)) as [[k sr]|] eqn:Hfind.
  - destruct (sr_name sr) as [name|] eqn:Hname.
    + cbv zeta.
      destruct (enable_remote w2 d name
                              ["url=" ++ before_first "#"%char (source p)])
        as [w3 [e|]] eqn:Hen; cbn [fst snd].
      * erewrite bind_eq.
        2:{ rewrite Hprobe. rewrite Htu. unfold ria_enable.
            erewrite bind_eq by reflexivity. ria_simpl.
            rewrite Hfind, Hname. cbv zeta.
            erewrite bind_eq by (unfold call; rewrite Hen; reflexivity).
            ria_simpl.
            erewrite bind_eq by reflexivity. ria_simpl. reflexivity. }
        ria_simpl. reflexivity.
      * destruct (query_ora_remotes d w3) as [|r [|r2 more]] eqn:Hq3;
          cbv zeta.
        all: erewrite bind_eq;
          [|rewrite Hprobe; rewrite Htu; unfold ria_enable;
            erewrite bind_eq by reflexivity; ria_simpl;
            rewrite Hfind, Hname; cbv zeta;
            erewrite bind_eq by (unfold call; rewrite Hen; reflexivity);
            ria_simpl;
            erewrite bind_eq by reflexivity; ria_simpl;
            rewrite Hq3; reflexivity].
        -- ria_simpl. reflexivity.
        -- ria_simpl. rewrite do_siblings_configure_run. ria_simpl.
           reflexivity.
        -- ria_simpl. reflexivity.
    + erewrite bind_raised; [reflexivity|].
      rewrite Hprobe. rewrite Htu. unfold ria_enable.
      erewrite bind_eq by reflexivity. ria_simpl.
      rewrite Hfind, Hname. unfold raise. ria_simpl.
      reflexivity.
  - erewrite bind_eq.
    2:{ rewrite Hprobe. rewrite Htu. unfold ria_enable.
        erewrite bind_eq by reflexivity. ria_simpl.
        rewrite Hfind.
        erewrite bind_eq by reflexivity. ria_simpl. reflexivity. }
    ria_simpl. reflexivity.
Qed.

End RiaFacts.

(* ===================================================================== *)
(** ** A cycle of origins *)
(* ===================================================================== *)

Section OriginCycle.

Context {N : Network} {H : Helpers} {World : Type} {C : Collaborators World}.

(** X16. The walk over the origins does not look out for datasets it
    has seen: where every dataset it comes to has a local path as URL of
    its origin that leads to such a dataset again (a dataset that is its
    own origin, say), and inheriting is on, no budget of levels is enough
    for it to end.  [keeps] is what stays true of the world while remotes
    [origin-<depth>] are set up, [on_cycle] the datasets of the cycle. *)
Theorem configure_origins_cycle (cfgds : Dataset) (keeps : World -> Prop)
  (on_cycle : Dataset -> Prop) :
  (forall w p, keeps w -> on_cycle p ->
               exists url,
                 config_get w p "remote.origin.url" = Some url
                 /\ url <> EmptyString
                 /\ is_PathRI (RI_of url) = true
                 /\ on_cycle (Path_join p url)) ->
  (forall w, keeps w ->
             config_obtain w cfgds "datalad.install.inherit-local-origin" true
             = true) ->
  (forall w depth url,
      keeps w ->
      keeps (fst (siblings_configure w cfgds ("origin-" ++ str_of_nat depth)
                                     (Some url) None true))) ->
  forall (fuel : nat) (probeds : Dataset) (label : option nat) (w : World),
    keeps w -> on_cycle probeds ->
    out (configure_origins fuel cfgds probeds label w) = OutOfFuel.
Proof.
  intros Hurl Hinherit Hkeeps fuel.
  induction fuel as [|fuel IH]; intros probeds label w Hw Hp;
    [reflexivity|].
  rewrite configure_origins_step. cbv zeta.
  destruct (Hurl w probeds Hw Hp) as (url & Hu & Hne & Hri & Hnext).
  rewrite Hu, (Hinherit w Hw), Hri.
  destruct url as [|a url]; [congruence|].
  cbn [PyStr.truthy negb orb out].
  apply IH; [|exact Hnext].
  destruct (negb (String.eqb cfgds probeds) && _); [|exact Hw].
  now apply Hkeeps.
Qed.

End OriginCycle.

(* ===================================================================== *)
(** ** The command *)
(* ===================================================================== *)

Section CommandFacts.

Context {N : Network} {H : Helpers} {World : Type} {C : Collaborators World}
        {Cmd : Command World}.

Variable fuel : nat.
Variable source : source_arg.
Variables dataset description : option string.
Variable w : World.

(** X17. The command fails before anything happens, with the world as
    it was and nothing yielded or logged: when the dataset to clone into
    is not there; when the path is the source; and when no path is given
    and the source cannot be decoded. *)
Theorem call_raises_early (reckless : reckless_arg) :
  (forall e,
      required_dataset dataset w = Err e ->
      forall path,
        __call__ fuel source path dataset description reckless w
        = mkCmdRun [] w (Raised e))
  /\ (forall ds,
         required_dataset dataset w = Ok ds ->
         __call__ fuel source (Some (source_path source)) dataset description
                  reckless w
         = mkCmdRun [] w
             (Raised (ValueError (identical_message (source_path source)))))
  /\ (forall ds e,
         required_dataset dataset w = Ok ds ->
         decode_source_spec (source_path source) = Err e ->
         __call__ fuel source None dataset description reckless w
         = mkCmdRun [] w (Raised e)).
Proof.
  split; [|split].
  - intros e He path. unfold __call__. now rewrite He.
  - intros ds Hds. unfold __call__. rewrite Hds.
    cbn [opt_str_eqb]. now rewrite String.eqb_refl.
  - intros ds e Hds He. unfold __call__. rewrite Hds.
    cbn [opt_str_eqb target_path]. now rewrite He.
Qed.

(** X18. A target path that will not do is answered with one 'error'
    record, and nothing is cloned or saved.  Where the file system cannot
    handle the path, the record has the path and no dataset; where a
    dataset to clone into is given and is not among the parents of the
    path, the record names both. *)
Theorem call_target_refused (reckless : reckless_arg)
  (path : option string) (ds : option Dataset) (target : string)
  (logs : list event) :
  required_dataset dataset w = Ok ds ->
  opt_str_eqb (Some (source_path source)) path = false ->
  target_path (source_path source) path dataset = Ok (target, logs) ->
  let r := __call__ fuel source path dataset description reckless w in
  (forall e_str,
      path_error w target = Some e_str ->
      r = mkCmdRun
            (map CmdEvent logs
             ++ [CmdYieldPath
                   (mkPR error target
                         (MsgFmt "cannot handle target path: %s"
                                 [ArgStr e_str])
                         "install" ds (source_path source))])%list
            w (Returned tt))
  /\ (forall d,
         path_error w target = None ->
         ds = Some d ->
         str_in d (Path_parents target) = false ->
         r = mkCmdRun
               (map CmdEvent logs
                ++ [CmdEvent
                      (EvYield
                         (get_status_dict error
                            (Some (MsgFmt
                                     "clone target path '%s' not in specified target dataset '%s'"
                                     [ArgStr target; ArgDataset d]))
                            (mkRP "install" ds (Some (source_path source))
                                  target None)))])%list
               w (Returned tt)).
Proof.
  intros Hds Hne Ht r. subst r. unfold __call__. rewrite Hds, Hne, Ht.
  split.
  - intros e_str He. now rewrite He.
  - intros d He -> Hout. rewrite He. cbn [outside_dataset].
    now rewrite Hout.
Qed.

(** X19. Where the target path will do, the run of the command is the
    debug lines about the path, the run of [clone_dataset] for the one
    source into the dataset at that path, with the reckless mode in effect,
    and, when that returns and there is a dataset to clone into, the records
    of saving the path in it.  The path is saved whatever the records of
    [clone_dataset] were, an 'error' among them or not; it is not saved
    when [clone_dataset] raises. *)
Theorem call_saves_after_clone (reckless : reckless_arg)
  (path : option string) (ds : option Dataset) (target : string)
  (logs : list event) :
  required_dataset dataset w = Ok ds ->
  opt_str_eqb (Some (source_path source)) path = false ->
  target_path (source_path source) path dataset = Ok (target, logs) ->
  path_error w target = None ->
  outside_dataset ds target = false ->
  let inner :=
    clone_dataset fuel [source_path source] target
                  (effective_reckless reckless ds w) description
                  (Some (mkRP "install" ds (Some (source_path source))
                              target None)) w in
  let r := __call__ fuel source path dataset description reckless w in
  (out inner = Returned tt ->
   r = mkCmdRun
         (map CmdEvent logs ++ map CmdEvent (trace inner)
          ++ map (fun x => CmdEvent (EvYield x))
                 (snd (save_into ds target (final inner))))%list
         (fst (save_into ds target (final inner))) (Returned tt))
  /\ (forall e,
         out inner = Raised e ->
         r = mkCmdRun (map CmdEvent logs ++ map CmdEvent (trace inner))%list
                      (final inner) (Raised e))
  /\ (ds = None -> save_into ds target (final inner) = (final inner, [])).
Proof.
  intros Hds Hne Ht He Hout inner r. subst r. unfold __call__.
  rewrite Hds, Hne, Ht, He, Hout. fold inner.
  split; [|split].
  - intros ->. reflexivity.
  - intros e ->. reflexivity.
  - now intros ->.
Qed.


End CommandFacts.

(* ===================================================================== *)
(** ** More runs in the concrete worlds *)
(* ===================================================================== *)

Section MoreRuns.

Import Sim SimCommand.

(** The installation path of a URL with slashes at its end. *)
Lemma installation_path_of_url_witness :
  RI_of "http://example.com/a/b.git//"
  = URL (parse_url "http://example.com/a/b.git//")
  /\ _get_installationpath_from_url "http://example.com/a/b.git//" = Ok "b".
Proof.
  split; [reflexivity|].
  pose proof (installation_path_of_url "http://example.com/a/b.git//"
                (parse_url "http://example.com/a/b.git//") eq_refl) as Hw.
  cbv zeta in Hw. destruct Hw as (_ & Hw & _).
  apply (Hw "/a" "b.git"); [discriminate | reflexivity | reflexivity
                            | discriminate].
Defined.

Lemma decode_source_spec_kinds_witness :
  decode_source_spec "/src" = Ok (local_props "/src" "src")
  /\ source (local_props "/src" "src") = "/src"
  /\ giturl (local_props "/src" "src") = rewrite_url "/src".
Proof.
  split; [reflexivity|].
  pose proof (decode_source_spec_kinds "/src" (local_props "/src" "src")
                eq_refl) as (Hs & _ & _ & Hg & _).
  split; [exact Hs | exact (Hg eq_refl)].
Defined.

(** The alias of the command's example. *)
Lemma decode_ria_alias_witness :
  RI_of (rewrite_url "ria+http://store.datalad.org#~hcp-openaccess")
  = URL (parse_url "ria+http://store.datalad.org#~hcp-openaccess")
  /\ decode_source_spec "ria+http://store.datalad.org#~hcp-openaccess"
     = Ok (mkProps "ria+http://store.datalad.org#~hcp-openaccess" None
                   type_ria "http://store.datalad.org/alias/hcp-openaccess"
                   "hcp-openaccess").
Proof.
  split; [reflexivity|].
  exact (decode_ria_alias "ria+http://store.datalad.org#~hcp-openaccess"
           (parse_url "ria+http://store.datalad.org#~hcp-openaccess")
           "hcp-openaccess" None eq_refl eq_refl eq_refl eq_refl).
Defined.

Lemma candidates_come_from_specs_witness :
  decode_all ["/a"; "/b"] = Ok [local_props "/a" "a"; local_props "/b" "b"]
  /\ map source [local_props "/a" "a"; local_props "/b" "b"] = ["/a"; "/b"]
  /\ Forall (fun c =>
               exists s p,
                 In s ["/a"; "/b"]
                 /\ decode_source_spec s = Ok p
                 /\ source c = s
                 /\ c = with_giturl p (giturl c)
                 /\ In (giturl c)
                       (_get_flexible_source_candidates (giturl p)))
            (expand_candidates [local_props "/a" "a"; local_props "/b" "b"]).
Proof.
  split; [reflexivity|].
  destruct (candidates_come_from_specs (N := network) ["/a"; "/b"]
              [local_props "/a" "a"; local_props "/b" "b"]
              ltac:(reflexivity))
    as (Hm & _ & Hall).
  split; [exact Hm | exact Hall].
Defined.

(** No source at all. *)
Lemma clone_dataset_no_candidates_witness :
  decode_all [] = Ok []
  /\ expand_candidates [] = []
  /\ path_exists (fresh "/dst") "/dst" && path_nonempty (fresh "/dst") "/dst"
     = false
  /\ clone_dataset 1 [] "/dst" None None None (fresh "/dst")
     = mkRun [EvProgress "Cloning dataset to %s" ["/dst"];
              EvProgress "Completed clone attempts for %s" ["/dst"]]
             (fresh "/dst") (Raised (NameError "cand")).
Proof.
  split; [reflexivity|]. split; [reflexivity|]. split; [reflexivity|].
  exact (clone_dataset_no_candidates 1 [] "/dst" None None None []
           (fresh "/dst") eq_refl eq_refl eq_refl).
Defined.

(** Two sources, of which the first fails and leaves files behind. *)
Lemma clone_dataset_removes_only_destination_witness :
  (None : option string) <> Some "ephemeral"
  /\ all_events (wipes_only "/dst" false)
       (trace (clone_dataset 1 ["/a"; "/b"] "/dst" None None None
                 (failing (fresh "/dst") [("/a", silent_error)]))).
Proof.
  split; [discriminate|].
  exact (clone_dataset_removes_only_destination 1 ["/a"; "/b"] "/dst" None
           None None (failing (fresh "/dst") [("/a", silent_error)])
           ltac:(discriminate)).
Defined.

(** A plain Git repository, cloned in the mode 'auto'. *)
Lemma clone_dataset_plain_git_witness :
  decode_all ["/src"] = Ok [local_props "/src" "src"]
  /\ GitRepo_clone (fresh "/dst") "/dst" "/src" None
     = (fst (GitRepo_clone (fresh "/dst") "/dst" "/src" None), None)
  /\ clone_dataset 1 ["/src"] "/dst" (Some "auto") None None (fresh "/dst")
     = mkRun [EvProgress "Cloning dataset to %s" ["/dst"];
              EvProgress "Attempting to clone from %s to %s" ["/src"; "/dst"];
              EvClone "/dst" "/src" None None;
              EvProgress "Completed clone attempts for %s" ["/dst"];
              EvYield (get_status_dict ok None
                         (set_source (default_result_props "/dst")
                                     (local_props "/src" "src")))]
             (fst (GitRepo_clone (fresh "/dst") "/dst" "/src" None))
             (Returned tt).
Proof.
  split; [reflexivity|]. split; [reflexivity|].
  exact (clone_dataset_plain_git 1 ["/src"] "/dst" (Some "auto") None None
           [local_props "/src" "src"] [] (local_props "/src" "src")
           (fresh "/dst")
           (fst (GitRepo_clone (fresh "/dst") "/dst" "/src" None))
           eq_refl eq_refl eq_refl eq_refl eq_refl eq_refl eq_refl
           ltac:(discriminate) eq_refl).
Defined.

(** A source with an annex, cloned in the mode 'auto'. *)
Lemma annexdataset_untrusted_modes_witness :
  knows_annex (annexed true) "/dst" = true
  /\ exists post,
       trace (postclonecfg_annexdataset 5 "/dst" (Some "auto") None
                                        (annexed true))
       = ([EvLog debug
                 "Instruct annex to hardlink content in %s from local sources, if possible (reckless)"
                 ["/dst"];
           EvConfigSet "/dst" "annex.hardlink" "true";
           EvLog debug "Initializing annex repo at %s" ["/dst"];
           EvAnnexRepo "/dst";
           EvAnnexInit "/dst" None;
           EvAnnexCommand "/dst" "untrust" ["here"];
           EvConfigSet "/dst" "datalad.clone.reckless" "auto"]
          ++ post)%list
       /\ all_events report_only post.
Proof.
  split; [reflexivity|].
  destruct (annexdataset_untrusted_modes (N := network) (C := collaborators) 5 "/dst" "auto"
              None (annexed true)
              ltac:(reflexivity) ltac:(left; reflexivity))
    as (post & Hp & Hq).
  exists post. split; [exact Hp | exact Hq].
Defined.

(** With a description, an annex that is initialized is initialized
    again. *)
Lemma annexdataset_init_condition_witness :
  knows_annex (set_annex_initialized (annexed true)) "/dst" = true
  /\ exists pre post,
       trace (postclonecfg_annexdataset 5 "/dst" None (Some "my clone")
                (set_annex_initialized (annexed true)))
       = (pre ++ EvAnnexRepo "/dst"
              :: [EvAnnexInit "/dst" (Some "my clone")] ++ post)%list
       /\ all_events not_annex_init pre
       /\ all_events not_annex_init post.
Proof.
  split; [reflexivity|].
  exact (proj2 (annexdataset_init_condition (N := network) (C := collaborators) 5 "/dst"
                  None (Some "my clone")
                  (set_annex_initialized (annexed true)))
           ltac:(reflexivity)).
Defined.


(** One ORA sibling is there from the start. *)
Lemma ria_publication_dependency_witness :
  query_ora_remotes "/dst"
    (config_set
       (config_set (with_store (fresh "/dst") [] [ora_sibling "store-storage"])
                   "/dst" "remote.origin.annex-ignore" "true")
       "/dst" "datalad.get.subdataset-source-candidate-200origin"
       (before_first "#"%char (source ria_props) ++ "#{id}"))
  = [ora_sibling "store-storage"]
  /\ trace (postclonecfg_ria "/dst" ria_props
              (with_store (fresh "/dst") [] [ora_sibling "store-storage"]))
     = [EvConfigSet "/dst" "remote.origin.annex-ignore" "true";
        EvConfigSet "/dst" "datalad.get.subdataset-source-candidate-200origin"
                    "ria+http://store.datalad.org#{id}";
        EvSiblingsConfigure "/dst" "origin" None (Some "store-storage") false;
        EvYield (sibling_record "/dst")].
Proof.
  split; [reflexivity|].
  pose proof (proj1 (ria_publication_dependency (N := network) (C := collaborators) "/dst"
                       ria_props
                       (with_store (fresh "/dst") []
                                   [ora_sibling "store-storage"]))
                (ora_sibling "store-storage") ltac:(reflexivity)) as Hw.
  cbv zeta in Hw. rewrite Hw. reflexivity.
Defined.

(** A store that was cloned from over HTTPS. *)
Lemma ria_unsupported_scheme_witness :
  str_in (before_first ":"%char "https://store.example.org/alias/study")
         ["http"; "ssh"; "file"] = false
  /\ trace (postclonecfg_ria "/dst"
              (mkProps "ria+https://store.example.org#~study" None type_ria
                       "https://store.example.org/alias/study" "study")
              (with_store (fresh "/dst")
                          [("uuid-1", ora_special_remote "store-storage")]
                          []))
     = [EvConfigSet "/dst" "remote.origin.annex-ignore" "true";
        EvConfigSet "/dst" "datalad.get.subdataset-source-candidate-200origin"
                    "ria+https://store.example.org#{id}";
        EvLog debug
              "Found no autoenabled ORA special remote. Trying to look it up in source config ..."
              [];
        EvLog debug
              "Unknown URL-Scheme in %s. Can handle SSH, HTTP or FILE scheme URLs."
              ["ria+https://store.example.org#~study"]].
Proof.
  split; [reflexivity|].
  rewrite (ria_unsupported_scheme (N := network) (C := collaborators) "/dst"
             (mkProps "ria+https://store.example.org#~study" None type_ria
                      "https://store.example.org/alias/study" "study")
             (with_store (fresh "/dst")
                         [("uuid-1", ora_special_remote "store-storage")] [])
             ltac:(reflexivity) ltac:(reflexivity) ltac:(reflexivity)).
  reflexivity.
Defined.

(** An ephemeral clone of a source that was reached over HTTP. *)
Lemma ephemeral_without_local_origin_witness :
  knows_annex (with_annex (cloned "/dst" "http://example.com/repo") true)
              "/dst" = true
  /\ localpath "http://example.com/repo" = None
  /\ all_events not_file_change
       (trace (postclonecfg_annexdataset 5 "/dst" (Some "ephemeral") None
                 (with_annex (cloned "/dst" "http://example.com/repo") true)))
  /\ In (EvLog warning
               "reckless=ephemeral mode: origin doesn't seem local: %s; no symlinks being used"
               ["http://example.com/repo"])
        (trace (postclonecfg_annexdataset 5 "/dst" (Some "ephemeral") None
                  (with_annex (cloned "/dst" "http://example.com/repo")
                              true))).
Proof.
  split; [reflexivity|]. split; [reflexivity|].
  pose proof (ephemeral_without_local_origin (N := network)
                (C := collaborators) 5 "/dst" None
                (with_annex (cloned "/dst" "http://example.com/repo") true)
                ltac:(reflexivity)) as Hw.
  cbv zeta in Hw. destruct (Hw ltac:(reflexivity)) as (Hq & Hin).
  split.
  - apply Hq. right. right. exists "http://example.com/repo".
    split; reflexivity.
  - apply (Hin "http://example.com/repo");
      [reflexivity | discriminate | reflexivity].
Defined.

(** A dataset that is its own origin, two levels up from the clone. *)
Lemma configure_origins_cycle_witness :
  out (configure_origins 40 "/c" "/c" None self_origin) = OutOfFuel.
Proof.
  apply (configure_origins_cycle (N := network) (C := collaborators) "/c"
           (fun v => cfg_lookup v "/c" "remote.origin.url" = Some "/p"
                     /\ cfg_lookup v "/p" "remote.origin.url" = Some "/p"
                     /\ cfg_lookup v "/c"
                                   "datalad.install.inherit-local-origin"
                        = None)
           (fun q => q = "/c" \/ q = "/p")).
  - intros v q (Hc & Hp & _) [->| ->].
    + exists "/p". split; [exact Hc|]. split; [discriminate|].
      split; [reflexivity | now right].
    + exists "/p". split; [exact Hp|]. split; [discriminate|].
      split; [reflexivity | now right].
  - intros v (_ & _ & Hi). cbn. now rewrite Hi.
  - intros v depth url (Hc & Hp & Hi). cbn. now repeat split.
  - now repeat split.
  - now left.
Defined.

End MoreRuns.

Section HollowRuns.

Import Sim Hollow.

(** Git says the source was cloned, and there is nothing. *)
Lemma clone_dataset_awkward_witness :
  decode_all ["/a"] = Ok [local_props "/a" "a"]
  /\ GitRepo_clone false "/dst" "/a" None = (false, None)
  /\ is_installed false "/dst" = false
  /\ clone_dataset 1 ["/a"] "/dst" None None None false
     = mkRun [EvProgress "Cloning dataset to %s" ["/dst"];
              EvProgress "Attempting to clone from %s to %s" ["/a"; "/dst"];
              EvClone "/dst" "/a" None None;
              EvProgress "Completed clone attempts for %s" ["/dst"];
              EvYield (get_status_dict error
                         (Some (awkward_message "/dst"
                                                (local_props "/a" "a")))
                         (set_source (default_result_props "/dst")
                                     (local_props "/a" "a")))]
             false (Returned tt).
Proof.
  split; [reflexivity|]. split; [reflexivity|]. split; [reflexivity|].
  exact (clone_dataset_awkward (N := network) (C := Hollow.collaborators) 1 ["/a"] "/dst"
           None None None [local_props "/a" "a"] [] (local_props "/a" "a")
           false false ltac:(reflexivity) ltac:(reflexivity)
           ltac:(reflexivity) ltac:(reflexivity) ltac:(reflexivity)).
Defined.

(** The store names the UUID of the special remote, which is enabled
    and then shows among the siblings. *)
Lemma ria_probe_over_http_witness :
  requests_get false "http://store.example.org/alias/study/config"
  = Some "uuid-ora"
  /\ postclonecfg_ria "/dst" alias_props false
     = mkRun [EvConfigSet "/dst" "remote.origin.annex-ignore" "true";
              EvConfigSet "/dst"
                          "datalad.get.subdataset-source-candidate-200origin"
                          "ria+http://store.example.org#{id}";
              EvLog debug
                    "Found no autoenabled ORA special remote. Trying to look it up in source config ..."
                    [];
              EvReadConfig "http"
                           "http://store.example.org/alias/study/config";
              EvEnableRemote "/dst" "store-storage"
                             ["url=ria+http://store.example.org"] None;
              EvLog info "Reconfigured %s for %s"
                    ["store-storage"; "ria+http://store.example.org"];
              EvSiblingsConfigure "/dst" "origin" None (Some "store-storage")
                                  false]
             true (Returned tt).
Proof.
  split; [reflexivity|].
  exact (ria_probe_over_http (N := network) (C := Hollow.collaborators) "/dst" alias_props
           false "uuid-ora" ("uuid-ora" ++ PyStr.lf)
           ltac:(reflexivity) ltac:(reflexivity) ltac:(reflexivity)
           ltac:(reflexivity) ltac:(discriminate) ltac:(reflexivity)
           ltac:(discriminate)).
Defined.

End HollowRuns.

Section CommandRuns.

Import Sim SimCommand.

(** The source as the path to clone into. *)
Lemma call_raises_early_witness :
  required_dataset None (fresh "/dst") = Ok None
  /\ __call__ 1 (SourceStr "/a") (Some "/a") None None RecklessNone
              (fresh "/dst")
     = mkCmdRun [] (fresh "/dst")
         (Raised (ValueError (identical_message "/a"))).
Proof.
  split; [reflexivity|].
  exact (proj1 (proj2 (call_raises_early (N := network) (C := collaborators) (Cmd := command)
                         1 (SourceStr "/a") None None (fresh "/dst")
                         RecklessNone))
           None ltac:(reflexivity)).
Defined.

(** A path outside the dataset to clone into. *)
Lemma call_target_refused_witness :
  required_dataset (Some "/super") super = Ok (Some "/super")
  /\ target_path "/a" (Some "/elsewhere/x") (Some "/super")
     = Ok ("/elsewhere/x",
           [EvLog debug "Resolved clone target path to: '%s'"
                  ["/elsewhere/x"]])
  /\ str_in "/super" (Path_parents "/elsewhere/x") = false
  /\ __call__ 1 (SourceStr "/a") (Some "/elsewhere/x") (Some "/super") None
              RecklessNone super
     = mkCmdRun
         [CmdEvent (EvLog debug "Resolved clone target path to: '%s'"
                          ["/elsewhere/x"]);
          CmdEvent
            (EvYield
               (get_status_dict error
                  (Some (MsgFmt
                           "clone target path '%s' not in specified target dataset '%s'"
                           [ArgStr "/elsewhere/x"; ArgDataset "/super"]))
                  (mkRP "install" (Some "/super") (Some "/a") "/elsewhere/x"
                        None)))]
         super (Returned tt).
Proof.
  split; [reflexivity|]. split; [reflexivity|]. split; [reflexivity|].
  exact (proj2 (call_target_refused (N := network) (C := collaborators) (Cmd := command) 1
                  (SourceStr "/a") (Some "/super") None super RecklessNone
                  (Some "/elsewhere/x") (Some "/super") "/elsewhere/x"
                  [EvLog debug "Resolved clone target path to: '%s'"
                         ["/elsewhere/x"]]
                  ltac:(reflexivity) ltac:(reflexivity) ltac:(reflexivity))
           "/super" ltac:(reflexivity) ltac:(reflexivity) ltac:(reflexivity)).
Defined.

(** A clone into a dataset that fails: the path is saved all the same. *)
Lemma call_saves_after_clone_witness :
  required_dataset (Some "/super") (failing super [("/a", silent_error)])
  = Ok (Some "/super")
  /\ outside_dataset (Some "/super") "/super/sub" = false
  /\ yields (cmd_events
               (cmd_trace
                  (__call__ 1 (SourceStr "/a") (Some "sub") (Some "/super")
                            None RecklessNone
                            (failing super [("/a", silent_error)]))))
     = [get_status_dict error
          (Some (MsgFmt "Failed to clone from all attempted sources: %s"
                        [ArgList ["/a"]]))
          (mkRP "install" (Some "/super") (Some "/a") "/super/sub" None);
        mkSD ok None (mkRP "save" None None "/super" None)].
Proof.
  split; [reflexivity|]. split; [reflexivity|].
  pose proof (call_saves_after_clone (N := network) (C := collaborators) (Cmd := command) 1
                (SourceStr "/a") (Some "/super") None
                (failing super [("/a", silent_error)]) RecklessNone
                (Some "sub") (Some "/super") "/super/sub"
                [EvLog debug "Resolved clone target path to: '%s'"
                       ["/super/sub"]]
                ltac:(reflexivity) ltac:(reflexivity) ltac:(reflexivity)
                ltac:(reflexivity) ltac:(reflexivity)) as Hw.
  cbv zeta in Hw. destruct Hw as (Hw & _).
  rewrite (Hw ltac:(vm_compute; reflexivity)).
  vm_compute. reflexivity.
Defined.


End CommandRuns.

